(** * spirit: waveform synthesis and PCM encoding

    A shallow embedding of [spirit/__main__.py]: the six waveform
    generators and the conversion to 16-bit samples done by [save_wav].

    Numbers.  A sample value is a real number: [np.sin] is the real
    sine and the arithmetic that produces a sample is exact, so a sample
    of the model is the sample of the program up to the rounding of its
    float64 operations.  Rounding is modelled where an integer or a bound
    of the program depends on it: the product [SAMPLE_RATE * duration]
    whose integer part is the number of samples, the product
    [audio_data * 32767] that is cast to 16 bits, and the final scaling of
    the layered mix.  [F64.round] rounds a real to the nearest number with
    a significand of 53 bits, ties to even; overflow and gradual underflow
    are outside the model, so durations and samples are taken in the
    normal range of float64.  An [int] duration is taken as the float of
    the same value, which gives the same count below 2^53 samples.

    One dimensional arrays are lists, the two-column array of the
    binaural generator is a list of pairs.  Calls that raise return
    [inl e] in the error monad [sum exn].

    The preset generators and [main] act on a file system, modelled as
    the directories and files that exist and the paths the operating
    system refuses to create or write; they run in the monad [io], which
    keeps what was done before an exception. *)

From Stdlib Require Import String DecimalString.
From Stdlib Require Import Reals Lra Lia ZArith List Bool.
From Stdlib Require Import Zfloor.
From ExtLib Require Import Structures.Monad Data.Monads.EitherMonad.
Import ListNotations.
Import MonadNotation.
Local Open Scope monad_scope.
Local Open Scope R_scope.

(** ** Exceptions and results *)

(** The two [ValueError]s numpy can raise in the modelled code. *)
Inductive exn : Type :=
| NegativeSamples (num : Z)            (* linspace: number of samples must be non-negative *)
| BroadcastError (src dst : nat).      (* could not broadcast input array from shape (src,) into shape (dst,) *)

Definition result (A : Type) : Type := sum exn A.

#[global] Instance Monad_result : Monad result := Monad_either exn.

Definition Ok {A : Type} (a : A) : result A := inr a.
Definition Raise {A : Type} (e : exn) : result A := inl e.

(** ** Float64 rounding *)

Module F64.

(** The integer nearest to [r]; a tie goes to the even one. *)
Definition nearest_even (r : R) : Z :=
  let f := Zfloor r in
  if Rlt_dec (r - IZR f) (1 / 2) then f
  else if Rlt_dec (1 / 2) (r - IZR f) then (f + 1)%Z
  else if Z.even f then f else (f + 1)%Z.

(** The binary exponent [e] of [x <> 0]: [2^e <= |x| < 2^(e+1)]. *)
Definition exponent (x : R) : Z := Zfloor (ln (Rabs x) / ln 2).

(** [x] rounded to a significand of 53 bits: the nearest multiple of
    [2^(e-52)], where [e] is the exponent of [x]. *)
Definition round (x : R) : R :=
  if Req_dec_T x 0 then 0
  else IZR (nearest_even (x * powerRZ 2 (52 - exponent x))) * powerRZ 2 (exponent x - 52).

(** The float64 product and quotient of two floats. *)
Definition mul (x y : R) : R := round (x * y).
Definition div (x y : R) : R := round (x / y).

(** The reals that are float64 numbers. *)
Definition is_float (x : R) : Prop := round x = x.

End F64.

(** ** Python and numpy primitives *)

Module Np.

(** Python's [int(x)] of a float: the integer part, rounded toward zero. *)
Definition int (x : R) : Z :=
  if Rle_dec 0 x then Zfloor x else Zceil x.

(** [np.arange(0, num)] as floats. *)
Definition arange (num : nat) : list R := map INR (seq 0 num).

(** [a[-1] = v] on a non-empty array. *)
Definition set_last (a : list R) (v : R) : list R :=
  firstn (length a - 1) a ++ [v].

(** [np.linspace(start, stop, num, endpoint)].  A negative [num] is
    rejected; otherwise the samples are [arange(0, num) * step + start]
    with [step = (stop - start) / div], and with [endpoint] the last one
    is overwritten by [stop].  (numpy's separate path for a step that
    underflows to zero computes the same values in exact arithmetic.) *)
Definition linspace (start stop : R) (num : Z) (endpoint : bool) : result (list R) :=
  if (num <? 0)%Z then Raise (NegativeSamples num)
  else
    let n := Z.to_nat num in
    let div := if endpoint then (n - 1)%nat else n in
    let delta := stop - start in
    let y := arange n in
    let y := if (0 <? div)%nat
             then map (fun k => k * (delta / INR div)) y
             else map (fun k => k * delta) y in
    let y := map (fun v => v + start) y in
    let y := if endpoint && (1 <? n)%nat then set_last y stop else y in
    Ok y.

Definition zeros_like (t : list R) : list R := repeat 0 (length t).
Definition ones_like (t : list R) : list R := repeat 1 (length t).

(** Element-wise binary operation on two arrays of one shape. *)
Definition zip_with (f : R -> R -> R) (a b : list R) : list R :=
  map (fun p => f (fst p) (snd p)) (combine a b).

(** [np.clip(x, lo, hi)] on one element: [minimum(maximum(x, lo), hi)]. *)
Definition clip (x lo hi : R) : R := Rmin (Rmax x lo) hi.

(** A slice bound [i] resolved against an array of length [n]: negative
    bounds count from the end, and the result is clamped to [0..n]. *)
Definition slice_bound (n : nat) (i : Z) : nat :=
  if (i <? 0)%Z then Z.to_nat (Z.max (i + Z.of_nat n) 0)
  else Nat.min (Z.to_nat i) n.

(** [a[start:stop] = v] with resolved bounds.  The value must have the
    length of the slice, or length one (it is then repeated); any other
    length cannot be broadcast. *)
Definition set_slice (a : list R) (start stop : nat) (v : list R) : result (list R) :=
  let stop := Nat.max start stop in
  let len := (stop - start)%nat in
  if (length v =? len)%nat then Ok (firstn start a ++ v ++ skipn stop a)
  else if (length v =? 1)%nat then Ok (firstn start a ++ repeat (hd 0 v) len ++ skipn stop a)
  else Raise (BroadcastError (length v) len).

(** [x.astype(np.int16)] on one element: the fractional part is dropped
    (rounding toward zero) and the integer is reduced to its low 16 bits,
    read as two's complement; nothing saturates. *)
Definition wrap16 (z : Z) : Z := ((z + 32768) mod 65536 - 32768)%Z.
Definition astype_int16 (x : R) : Z := wrap16 (int x).

End Np.

(** ** The program *)

Definition SAMPLE_RATE : Z := 44100.

(** Every generator starts with
    [t = np.linspace(0, duration, int(SAMPLE_RATE * duration), False)];
    the product is a float64 product.

    [generate_sine_wave(frequency, duration, amplitude)] *)
Definition generate_sine_wave (frequency duration amplitude : R) : result (list R) :=
  t <- Np.linspace 0 duration (Np.int (F64.mul (IZR SAMPLE_RATE) duration)) false ;;
  let wave := map (fun ti => amplitude * sin (2 * PI * frequency * ti)) t in
  ret wave.

(** [generate_binaural_beat(base_freq, beat_freq, duration, amplitude)];
    [np.column_stack] pairs the two channels row by row. *)
Definition generate_binaural_beat (base_freq beat_freq duration amplitude : R)
  : result (list (R * R)) :=
  t <- Np.linspace 0 duration (Np.int (F64.mul (IZR SAMPLE_RATE) duration)) false ;;
  let left_freq := base_freq in
  let right_freq := base_freq + beat_freq in
  let left_channel := map (fun ti => amplitude * sin (2 * PI * left_freq * ti)) t in
  let right_channel := map (fun ti => amplitude * sin (2 * PI * right_freq * ti)) t in
  let stereo := combine left_channel right_channel in
  ret stereo.

(** [generate_isochronic_tone(frequency, pulse_freq, duration, amplitude)] *)
Definition generate_isochronic_tone (frequency pulse_freq duration amplitude : R)
  : result (list R) :=
  t <- Np.linspace 0 duration (Np.int (F64.mul (IZR SAMPLE_RATE) duration)) false ;;
  let carrier := map (fun ti => sin (2 * PI * frequency * ti)) t in
  let envelope := map (fun ti => 0.5 * (1 + sin (2 * PI * pulse_freq * ti))) t in
  let envelope := map (fun e => Np.clip e 0 1) envelope in
  let wave := Np.zip_with (fun c e => amplitude * c * e) carrier envelope in
  ret wave.

(** [generate_frequency_sweep(start_freq, end_freq, duration, amplitude)];
    [instantaneous_freq] is computed and never used. *)
Definition generate_frequency_sweep (start_freq end_freq duration amplitude : R)
  : result (list R) :=
  t <- Np.linspace 0 duration (Np.int (F64.mul (IZR SAMPLE_RATE) duration)) false ;;
  let instantaneous_freq :=
    map (fun ti => start_freq + (end_freq - start_freq) * ti / duration) t in
  let phase :=
    map (fun ti => 2 * PI * (start_freq * ti
                             + (end_freq - start_freq) * ti ^ 2 / (2 * duration))) t in
  let wave := map (fun p => amplitude * sin p) phase in
  ret wave.

(** [generate_layered_frequencies(frequencies, duration, amplitude)]; the
    [for] loop is a left fold that adds one sinusoid per frequency.  The
    last line, [amplitude * wave / len(frequencies)], is a float64 product
    followed by a float64 quotient. *)
Definition generate_layered_frequencies (frequencies : list R) (duration amplitude : R)
  : result (list R) :=
  t <- Np.linspace 0 duration (Np.int (F64.mul (IZR SAMPLE_RATE) duration)) false ;;
  let wave := Np.zeros_like t in
  let wave :=
    fold_left
      (fun wave freq => Np.zip_with Rplus wave (map (fun ti => sin (2 * PI * freq * ti)) t))
      frequencies wave in
  let wave :=
    map (fun w => F64.div (F64.mul amplitude w) (INR (length frequencies))) wave in
  ret wave.

(** [generate_om_tone(duration, amplitude)] *)
Definition generate_om_tone (duration amplitude : R) : result (list R) :=
  t <- Np.linspace 0 duration (Np.int (F64.mul (IZR SAMPLE_RATE) duration)) false ;;
  let base := 136.1 in
  let wave := map (fun ti => sin (2 * PI * base * ti)) t in
  let wave := Np.zip_with Rplus wave (map (fun ti => 0.5 * sin (2 * PI * base * 2 * ti)) t) in
  let wave := Np.zip_with Rplus wave (map (fun ti => 0.25 * sin (2 * PI * base * 3 * ti)) t) in
  let envelope := Np.ones_like t in
  let fade_samples := Np.int (F64.mul (IZR SAMPLE_RATE) 0.5) in
  ramp <- Np.linspace 0 1 fade_samples true ;;
  envelope <- Np.set_slice envelope 0 (Np.slice_bound (length envelope) fade_samples) ramp ;;
  ramp <- Np.linspace 1 0 fade_samples true ;;
  envelope <- Np.set_slice envelope (Np.slice_bound (length envelope) (- fade_samples))
                (length envelope) ramp ;;
  let wave := Np.zip_with (fun w e => amplitude * w * e / 1.75) wave envelope in
  ret wave.

(** Audio handed to [save_wav]: a mono buffer or a two-column stereo one. *)
Inductive audio : Type :=
| Mono (samples : list R)
| Stereo (frames : list (R * R)).

Inductive pcm : Type :=
| PcmMono (samples : list Z)
| PcmStereo (frames : list (Z * Z)).

(** [audio_data * k] and [.astype(np.int16)] act on every element,
    whatever the shape; the product is a float64 product. *)
Definition audio_scale (a : audio) (k : R) : audio :=
  match a with
  | Mono s => Mono (map (fun x => F64.mul x k) s)
  | Stereo f => Stereo (map (fun p => (F64.mul (fst p) k, F64.mul (snd p) k)) f)
  end.

Definition audio_astype_int16 (a : audio) : pcm :=
  match a with
  | Mono s => PcmMono (map Np.astype_int16 s)
  | Stereo f => PcmStereo (map (fun p => (Np.astype_int16 (fst p), Np.astype_int16 (snd p))) f)
  end.

(** What [wavfile.write] receives: the rate and the integer samples. *)
Record wav_file : Type := { wav_rate : Z; wav_data : pcm }.

(** [save_wav(filename, audio_data, stereo)]; both branches of the test on
    [stereo] are the same expression. *)
Definition save_wav (audio_data : audio) (stereo : bool) : wav_file :=
  let audio_int :=
    if stereo then audio_astype_int16 (audio_scale audio_data 32767)
    else audio_astype_int16 (audio_scale audio_data 32767) in
  {| wav_rate := SAMPLE_RATE; wav_data := audio_int |}.

(** ** Vocabulary of the properties *)

(** An array given by its index function: element [i] is [g i]. *)
Definition tabulate (g : nat -> R) (n : nat) : list R := map g (seq 0 n).

(** The number of samples every generator asks [linspace] for. *)
Definition sample_count (duration : R) : Z :=
  Np.int (F64.mul (IZR SAMPLE_RATE) duration).

(** The [i]-th instant of a grid of [n] samples over [duration]. *)
Definition grid_time (duration : R) (n i : nat) : R := INR i * (duration / INR n).

(** [fade_samples = int(SAMPLE_RATE * 0.5)], as a length (kept as
    [Z.to_nat] of the binary number). *)
Definition fade : nat := Z.to_nat 22050.

(** The envelope the two slice assignments leave behind, by index, for a
    buffer of [n >= fade] samples: the fade-out ramp on the last [fade]
    samples, and before them the fade-in ramp on what is left of the first
    [fade] samples, and 1 in between. *)
Definition om_envelope (n i : nat) : R :=
  if (n - fade <=? i)%nat then 1 - INR (i - (n - fade)) / 22049
  else if (i <? fade)%nat then INR i / 22049
  else 1.


(** [q] is [x] with its fractional part dropped: the integer next to [x]
    on the side of zero. *)
Definition toward_zero (x : R) (q : Z) : Prop :=
  (0 <= x -> IZR q <= x < IZR q + 1) /\ (x <= 0 -> IZR q - 1 < x <= IZR q).

(** [q] is [x] rounded to a nearest integer, whatever the rule for ties. *)
Definition nearest (x : R) (q : Z) : Prop := Rabs (IZR q - x) <= 1 / 2.

(** [z] is what a 16-bit signed sample holds for the float sample [s]:
    the float64 product [s * 32767] truncated toward zero, then reduced
    modulo 2^16 into [-32768, 32767]. *)
Definition encodes (s : R) (z : Z) : Prop :=
  exists q, toward_zero (F64.mul s 32767) q /\
            ((z - q) mod 65536 = 0)%Z /\ (-32768 <= z <= 32767)%Z.

(** Reading a sample back from the file: division by 32767. *)
Definition decode (z : Z) : R := IZR z / 32767.

(** The float64 numbers nearest to 0.3 and to 0.8, which is what Python
    reads the literals [0.3] and [0.8] as. *)
Definition double_0_3 : R := 5404319552844595 / 18014398509481984.

(** ** Files and the preset generators *)

(** A path is the list of its components; [p / name] appends one. *)
Definition path : Type := list string.
Definition path_div (p : path) (name : string) : path := p ++ [name].
Definition parent (p : path) : path := removelast p.

(** A path with all its ancestors, down to the empty path. *)
Definition ancestors (p : path) : list path :=
  map (fun n => firstn n p) (seq 0 (S (length p))).

Definition path_eq_dec : forall p q : path, {p = q} + {p <> q} :=
  list_eq_dec string_dec.

(** What the file-writing code can raise: the errors of the generators,
    [np.concatenate] of no array, a missing dictionary key, and the
    [OSError]s of [mkdir] and of opening a file for writing. *)
Inductive py_exn : Type :=
| NumpyError (e : exn)
| ConcatenateEmpty
| KeyError (key : Z)
| FileNotFound (filename : path)     (* the directory of the file does not exist *)
| FileExists (p : path)              (* mkdir: the path is a regular file *)
| NotADirectory (p : path)           (* an ancestor of the path is a regular file *)
| IsADirectory (filename : path)     (* the file to write is a directory *)
| PermissionError (p : path).        (* the operating system refuses the path *)

(** The file system as the program sees it: the directories that exist,
    the regular files with what was last written to them (the latest
    first; for a file that was there before, whatever it holds), and the
    paths the operating system will not let the program create or write
    (permissions, read-only media).  Console output is not modelled. *)
Record world : Type := {
  dirs : list path;
  files : list (path * wav_file);
  refused : list path
}.

Definition is_dir (w : world) (p : path) : bool :=
  if in_dec path_eq_dec p (dirs w) then true else false.
Definition is_file (w : world) (p : path) : bool :=
  if in_dec path_eq_dec p (map fst (files w)) then true else false.
Definition is_refused (w : world) (p : path) : bool :=
  if in_dec path_eq_dec p (refused w) then true else false.

(** The world with more directories, and with more files. *)
Definition add_dirs (ds : list path) (w : world) : world :=
  {| dirs := ds ++ dirs w; files := files w; refused := refused w |}.
Definition add_files (fs : list (path * wav_file)) (w : world) : world :=
  {| dirs := dirs w; files := fs ++ files w; refused := refused w |}.

(** Code that acts on the file system and may raise; what was done before
    an exception stays done. *)
Definition io (A : Type) : Type := world -> world * (py_exn + A).

#[global] Instance Monad_io : Monad io :=
  {| ret := fun A (a : A) (w : world) => (w, inr a);
     bind := fun A B (m : io A) (k : A -> io B) (w : world) =>
               match m w with
               | (w', inr a) => k a w'
               | (w', inl e) => (w', inl e)
               end |}.

Definition raise_io {A : Type} (e : py_exn) : io A := fun w => (w, inl e).

(** A call of a generator or of numpy inside file-writing code. *)
Definition lift {A : Type} (r : result A) : io A :=
  fun w => (w, match r with inl e => inl (NumpyError e) | inr a => inr a end).

(** Of the directories [todo], listed from the top down, the first one
    that is missing and that the operating system refuses to create, with
    those before it. *)
Fixpoint first_refused (w : world) (todo : list path) : option (list path * path) :=
  match todo with
  | [] => None
  | q :: todo' =>
      if negb (is_dir w q) && is_refused w q then Some ([], q)
      else match first_refused w todo' with
           | Some (made, r) => Some (q :: made, r)
           | None => None
           end
  end.

(** [p.mkdir(parents=True, exist_ok=True)]: a regular file at [p] or above
    it makes the call fail before anything is created; otherwise the
    missing directories are created from the top down, up to the first one
    that is refused. *)
Definition mkdir (p : path) : io unit :=
  fun w =>
    if is_file w p then (w, inl (FileExists p))
    else if existsb (is_file w) (ancestors p) then (w, inl (NotADirectory p))
    else match first_refused w (ancestors p) with
         | Some (made, q) => (add_dirs made w, inl (PermissionError q))
         | None => (add_dirs (ancestors p) w, inr tt)
         end.

(** [wavfile.write(filename, rate, data)] opens [filename] for writing:
    its directory must exist, with no regular file on the way to it, and
    the path must neither be a directory nor be refused. *)
Definition write_wav (filename : path) (f : wav_file) : io unit :=
  fun w =>
    if existsb (is_file w) (ancestors (parent filename))
    then (w, inl (NotADirectory filename))
    else if negb (is_dir w (parent filename)) then (w, inl (FileNotFound filename))
    else if is_dir w filename then (w, inl (IsADirectory filename))
    else if is_refused w filename then (w, inl (PermissionError filename))
    else (add_files [(filename, f)] w, inr tt).

(** [save_wav(filename, audio_data, stereo)] with its effect: the samples
    [save_wav] computes are written to [filename]. *)
Definition save_wav_to (filename : path) (audio_data : audio) (stereo : bool) : io unit :=
  write_wav filename (save_wav audio_data stereo).

(** [for x in l: body(x)] *)
Fixpoint for_each {A : Type} (l : list A) (body : A -> io unit) : io unit :=
  match l with
  | [] => ret tt
  | x :: l' => body x ;; for_each l' body
  end.

(** A [for] loop that appends to a list: the list is passed along. *)
Fixpoint for_fold {A S : Type} (l : list A) (s : S) (body : S -> A -> io S) : io S :=
  match l with
  | [] => ret s
  | x :: l' => s' <- body s x ;; for_fold l' s' body
  end.

(** [if b: m] *)
Definition when (b : bool) (m : io unit) : io unit := if b then m else ret tt.

(** [str] of a Python int, as an f-string prints it. *)
Definition str_int (z : Z) : string := NilZero.string_of_int (Z.to_int z).

(** [d[key]] on a dictionary kept as the list of its items. *)
Fixpoint dict_get (d : list (Z * string)) (key : Z) : io string :=
  match d with
  | [] => raise_io (KeyError key)
  | (k, v) :: d' => if (k =? key)%Z then ret v else dict_get d' key
  end.

(** [np.concatenate(arrays)] of one-dimensional arrays. *)
Definition concatenate (arrays : list (list R)) : io (list R) :=
  match arrays with
  | [] => raise_io ConcatenateEmpty
  | _ => ret (concat arrays)
  end.

(** [a[start:stop] *= v] with resolved bounds: the in-place product has the
    shape of the slice, so [v] must have its length, or length one; any
    other length is the [ValueError] of shapes that cannot be broadcast. *)
Definition imul_slice (a : list R) (start stop : nat) (v : list R) : result (list R) :=
  let stop := Nat.max start stop in
  let len := (stop - start)%nat in
  let target := firstn len (skipn start a) in
  if (length v =? len)%nat
  then Ok (firstn start a ++ Np.zip_with Rmult target v ++ skipn stop a)
  else if (length v =? 1)%nat
  then Ok (firstn start a ++ map (fun x => x * hd 0 v) target ++ skipn stop a)
  else Raise (BroadcastError (length v) len).

(** A float option as a condition: [None] and [0.0] are false. *)
Definition truthy (x : option R) : bool :=
  match x with
  | None => false
  | Some v => if Req_dec_T v 0 then false else true
  end.

Definition SOLFEGGIO_FREQUENCIES : list (Z * string) :=
  [ (174, "Pain relief, anesthetic");
    (285, "Tissue healing, regeneration");
    (396, "Liberation from guilt and fear");
    (417, "Facilitating change, breaking patterns");
    (528, "Love frequency, DNA repair, miracles");
    (639, "Connecting relationships, harmony");
    (741, "Expression, solutions, cleansing");
    (852, "Spiritual order, awakening intuition");
    (963, "Divine consciousness, pineal activation") ]%string%Z.

Definition ANGEL_FREQUENCIES : list (Z * string) :=
  [ (111, "New beginnings, manifestation");
    (222, "Balance, harmony, cooperation");
    (333, "Ascended masters, encouragement");
    (444, "Protection, angelic presence");
    (555, "Major life changes coming");
    (666, "Balance material/spiritual (reclaimed)");
    (777, "Divine luck, miracles");
    (888, "Abundance, infinite flow");
    (999, "Completion, lightworker activation") ]%string%Z.

Definition CHAKRA_FREQUENCIES : list (Z * string) :=
  [ (396, "Root chakra (Muladhara) - grounding");
    (417, "Sacral chakra (Svadhisthana) - creativity");
    (528, "Solar plexus (Manipura) - confidence");
    (639, "Heart chakra (Anahata) - love");
    (741, "Throat chakra (Vishuddha) - expression");
    (852, "Third eye (Ajna) - intuition");
    (963, "Crown chakra (Sahasrara) - enlightenment") ]%string%Z.

Definition BRAINWAVE_STATES : list (string * (R * R * string)) :=
  [ ("delta", (0.5, 4, "Deep sleep, healing, unconscious"));
    ("theta", (4, 8, "Meditation, creativity, REM sleep"));
    ("alpha", (8, 14, "Relaxation, calm focus, light meditation"));
    ("beta", (14, 30, "Active thinking, focus, alertness"));
    ("gamma", (30, 100, "Higher cognition, peak awareness")) ]%string.

(** The command line after [argparse]: [--duration] is an int, [--custom]
    a float or absent. *)
Record args : Type := {
  arg_output : path;
  arg_duration : Z;
  arg_all : bool;
  arg_solfeggio : bool;
  arg_binaural : bool;
  arg_angels : bool;
  arg_schumann : bool;
  arg_chakras : bool;
  arg_compare_tuning : bool;
  arg_om : bool;
  arg_custom : option R;
  arg_mode : string;
  arg_list : bool
}.

Section Presets.

(** How an f-string prints a float; the program only puts the result in
    file names. *)
Variable str_float : R -> string.

(** [generate_all_solfeggio(output_dir, duration)] *)
Definition generate_all_solfeggio (output_dir : path) (duration : R) : io unit :=
  mkdir output_dir ;;
  for_each SOLFEGGIO_FREQUENCIES (fun item =>
    let freq := fst item in
    wave <- lift (generate_sine_wave (IZR freq) duration 0.8) ;;
    save_wav_to (path_div output_dir ("solfeggio_" ++ str_int freq ++ "hz.wav")%string)
      (Mono wave) false).

(** [generate_all_angel_frequencies(output_dir, duration)] *)
Definition generate_all_angel_frequencies (output_dir : path) (duration : R) : io unit :=
  mkdir output_dir ;;
  for_each ANGEL_FREQUENCIES (fun item =>
    let freq := fst item in
    wave <- lift (generate_sine_wave (IZR freq) duration 0.8) ;;
    save_wav_to (path_div output_dir ("angel_" ++ str_int freq ++ "hz.wav")%string)
      (Mono wave) false).

(** [generate_binaural_presets(output_dir, duration, base_freq)] *)
Definition generate_binaural_presets (output_dir : path) (duration base_freq : R) : io unit :=
  mkdir output_dir ;;
  for_each BRAINWAVE_STATES (fun item =>
    let state := fst item in
    let low := fst (fst (snd item)) in
    let high := snd (fst (snd item)) in
    let target_freq := (low + high) / 2 in
    stereo <- lift (generate_binaural_beat base_freq target_freq duration 0.8) ;;
    save_wav_to
      (path_div output_dir
         ("binaural_" ++ state ++ "_" ++ str_float target_freq ++ "hz.wav")%string)
      (Stereo stereo) true).

(** [generate_schumann_resonance(output_dir, duration)] *)
Definition generate_schumann_resonance (output_dir : path) (duration : R) : io unit :=
  mkdir output_dir ;;
  wave <- lift (generate_isochronic_tone 200 7.83 duration 0.8) ;;
  save_wav_to (path_div output_dir "schumann_7.83hz_isochronic.wav"%string) (Mono wave) false ;;
  stereo <- lift (generate_binaural_beat 200 7.83 duration 0.8) ;;
  save_wav_to (path_div output_dir "schumann_7.83hz_binaural.wav"%string) (Stereo stereo) true.

(** [generate_432_vs_440(output_dir, duration)]; [duration] is an int,
    which [range(duration // 10)] needs. *)
Definition generate_432_vs_440 (output_dir : path) (duration : Z) : io unit :=
  mkdir output_dir ;;
  wave_432 <- lift (generate_sine_wave 432 (IZR duration) 0.8) ;;
  wave_440 <- lift (generate_sine_wave 440 (IZR duration) 0.8) ;;
  save_wav_to (path_div output_dir "tuning_432hz_natural.wav"%string) (Mono wave_432) false ;;
  save_wav_to (path_div output_dir "tuning_440hz_standard.wav"%string) (Mono wave_440) false ;;
  let segment_duration := 5%Z in
  segments <-
    for_fold (seq 0 (Z.to_nat (duration / (segment_duration * 2)))) []
      (fun segments _ =>
         a <- lift (generate_sine_wave 432 (IZR segment_duration) 0.8) ;;
         let segments := segments ++ [a] in
         b <- lift (generate_sine_wave 440 (IZR segment_duration) 0.8) ;;
         let segments := segments ++ [b] in
         ret segments) ;;
  comparison <- concatenate segments ;;
  save_wav_to (path_div output_dir "tuning_432_440_comparison.wav"%string)
    (Mono comparison) false.

(** [generate_chakra_meditation(output_dir, duration_per_chakra)] *)
Definition generate_chakra_meditation (output_dir : path) (duration_per_chakra : R)
  : io unit :=
  mkdir output_dir ;;
  let chakras :=
    [ (396, "root"); (417, "sacral"); (528, "solar_plexus"); (639, "heart");
      (741, "throat"); (852, "third_eye"); (963, "crown") ]%string%Z in
  full_sequence <-
    for_fold chakras []
      (fun full_sequence item =>
         let freq := fst item in
         let name := snd item in
         description <- dict_get CHAKRA_FREQUENCIES freq ;;
         wave <- lift (generate_sine_wave (IZR freq) duration_per_chakra 0.8) ;;
         let fade_samples := Np.int (IZR SAMPLE_RATE * 2) in
         ramp <- lift (Np.linspace 0 1 fade_samples true) ;;
         wave <- lift (imul_slice wave 0 (Np.slice_bound (length wave) fade_samples) ramp) ;;
         ramp <- lift (Np.linspace 1 0 fade_samples true) ;;
         wave <- lift (imul_slice wave (Np.slice_bound (length wave) (- fade_samples))
                         (length wave) ramp) ;;
         let full_sequence := full_sequence ++ [wave] in
         save_wav_to
           (path_div output_dir ("chakra_" ++ name ++ "_" ++ str_int freq ++ "hz.wav")%string)
           (Mono wave) false ;;
         ret full_sequence) ;;
  full_meditation <- concatenate full_sequence ;;
  save_wav_to (path_div output_dir "chakra_full_meditation.wav"%string)
    (Mono full_meditation) false.

(** [generate_custom_frequency(frequency, duration, output_file, mode)];
    a mode that is none of the three falls through the [if] chain. *)
Definition generate_custom_frequency (frequency duration : R) (output_file : path)
    (mode : string) : io unit :=
  if string_dec mode "sine" then
    wave <- lift (generate_sine_wave frequency duration 0.8) ;;
    save_wav_to output_file (Mono wave) false
  else if string_dec mode "binaural" then
    stereo <- lift (generate_binaural_beat 200 frequency duration 0.8) ;;
    save_wav_to output_file (Stereo stereo) true
  else if string_dec mode "isochronic" then
    wave <- lift (generate_isochronic_tone 200 frequency duration 0.8) ;;
    save_wav_to output_file (Mono wave) false
  else ret tt.

(** [main()] from the parsed arguments on.  [--list] and the final
    [print_help] only print. *)
Definition main (a : args) : io unit :=
  if arg_list a then ret tt
  else
    let output_dir := arg_output a in
    let duration := arg_duration a in
    if arg_all a then
      generate_all_solfeggio (path_div output_dir "solfeggio") (IZR duration) ;;
      generate_all_angel_frequencies (path_div output_dir "angels") (IZR duration) ;;
      generate_binaural_presets (path_div output_dir "binaural") (IZR (Z.min duration 300)) 200 ;;
      generate_schumann_resonance (path_div output_dir "schumann") (IZR (Z.min duration 300)) ;;
      generate_432_vs_440 (path_div output_dir "tuning") 30 ;;
      generate_chakra_meditation (path_div output_dir "chakras") (IZR duration) ;;
      wave <- lift (generate_om_tone (IZR duration) 0.8) ;;
      save_wav_to (path_div output_dir "om_136.1hz.wav") (Mono wave) false
    else
      when (arg_solfeggio a)
        (generate_all_solfeggio (path_div output_dir "solfeggio") (IZR duration)) ;;
      when (arg_binaural a)
        (generate_binaural_presets (path_div output_dir "binaural") (IZR duration) 200) ;;
      when (arg_angels a)
        (generate_all_angel_frequencies (path_div output_dir "angels") (IZR duration)) ;;
      when (arg_schumann a)
        (generate_schumann_resonance (path_div output_dir "schumann") (IZR duration)) ;;
      when (arg_chakras a)
        (generate_chakra_meditation (path_div output_dir "chakras") (IZR duration)) ;;
      when (arg_compare_tuning a)
        (generate_432_vs_440 (path_div output_dir "tuning") 30) ;;
      when (arg_om a)
        (wave <- lift (generate_om_tone (IZR duration) 0.8) ;;
         mkdir output_dir ;;
         save_wav_to (path_div output_dir "om_136.1hz.wav") (Mono wave) false) ;;
      when (truthy (arg_custom a))
        (mkdir output_dir ;;
         let frequency := match arg_custom a with Some v => v | None => 0 end in
         let output_file :=
           path_div output_dir
             ("custom_" ++ str_float frequency ++ "hz_" ++ arg_mode a ++ ".wav")%string in
         generate_custom_frequency frequency (IZR duration) output_file (arg_mode a)).

End Presets.

(** [m] raises no [FileNotFound] when the directories [D] exist; it only
    adds directories, and when it returns those of [D'] exist. *)
Definition safe {A : Type} (D : list path) (m : io A) (D' : list path) : Prop :=
  forall w, incl D (dirs w) ->
    incl (dirs w) (dirs (fst (m w))) /\
    match snd (m w) with
    | inr _ => incl D' (dirs (fst (m w)))
    | inl e => forall p, e <> FileNotFound p
    end.

(** The file system lets a preset work in [output_dir]: no regular file
    sits at the directory or above it, each of these directories exists or
    may be created, and no name inside it is a directory or is refused. *)
Definition accepts (w : world) (output_dir : path) : Prop :=
  (forall q, In q (ancestors output_dir) ->
     ~ In q (map fst (files w)) /\ (In q (dirs w) \/ ~ In q (refused w))) /\
  (forall name,
     ~ In (path_div output_dir name) (dirs w) /\
     ~ In (path_div output_dir name) (refused w)).

(** The file [filename] can be written: its directory exists, with no
    regular file on the way to it, and the path is neither a directory
    nor refused. *)
Definition writable (w : world) (filename : path) : Prop :=
  (forall q, In q (ancestors (parent filename)) -> ~ In q (map fst (files w))) /\
  In (parent filename) (dirs w) /\
  ~ In filename (dirs w) /\ ~ In filename (refused w).

(** Every name inside the existing directory [output_dir] can be
    written. *)
Definition open_dir (w : world) (output_dir : path) : Prop :=
  forall name, writable w (path_div output_dir name).

(** [output_dir] is free for a whole run: it can be created, and nothing
    exists or is refused below it. *)
Definition vacant (w : world) (output_dir : path) : Prop :=
  (forall q, In q (ancestors output_dir) ->
     ~ In q (map fst (files w)) /\ (In q (dirs w) \/ ~ In q (refused w))) /\
  (forall name rest,
     ~ In (output_dir ++ name :: rest) (dirs w) /\
     ~ In (output_dir ++ name :: rest) (map fst (files w)) /\
     ~ In (output_dir ++ name :: rest) (refused w)).

(** What a run has added to [w] when it has worked in the directories
    [subs] of [output_dir]: these directories with their ancestors, and
    files inside them. *)
Definition grown (output_dir : path) (subs : list string) (w w' : world) : Prop :=
  refused w' = refused w /\
  incl (dirs w) (dirs w') /\
  (forall q, In q (dirs w') ->
     In q (dirs w) \/ In q (ancestors output_dir) \/
     exists s, In s subs /\ q = path_div output_dir s) /\
  (forall q, In q (map fst (files w')) ->
     In q (map fst (files w)) \/
     exists s name, q = path_div (path_div output_dir s) name).

(** * Properties *)

(** ** Float64 rounding *)

Lemma nearest_even_cases r :
  let f := Zfloor r in
  (r - IZR f < 1 / 2 /\ F64.nearest_even r = f) \/
  (1 / 2 < r - IZR f /\ F64.nearest_even r = (f + 1)%Z) \/
  (r - IZR f = 1 / 2 /\ F64.nearest_even r = if Z.even f then f else (f + 1)%Z).
Proof.
  intros f. unfold F64.nearest_even. fold f.
  destruct (Rlt_dec (r - IZR f) (1 / 2)) as [H|H]; [left; split; [exact H | reflexivity]|].
  destruct (Rlt_dec (1 / 2) (r - IZR f)) as [H'|H'];
    [right; left; split; [exact H' | reflexivity]|].
  right; right. split; [lra | reflexivity].
Qed.


Lemma nearest_even_eq (z : Z) r : Rabs (r - IZR z) < 1 / 2 -> F64.nearest_even r = z.
Proof.
  intros H. apply Rabs_def2 in H. destruct H as [Hhi Hlo].
  destruct (Zfloor_bound r) as [Flo Fhi].
  assert (Hz : (Zfloor r = z \/ Zfloor r = z - 1)%Z).
  { assert (z - 1 <= Zfloor r)%Z by (apply Zfloor_lub; rewrite minus_IZR; lra).
    assert (Zfloor r < z + 1)%Z by (apply lt_IZR; rewrite plus_IZR; lra). lia. }
  destruct (nearest_even_cases r) as [[H ->]|[[H ->]|[H ->]]];
    destruct Hz as [Hz|Hz]; rewrite Hz in *; try rewrite minus_IZR in *; try lia; lra.
Qed.

Lemma nearest_even_IZR z : F64.nearest_even (IZR z) = z.
Proof. apply nearest_even_eq. rewrite Rminus_diag, Rabs_R0. lra. Qed.

Lemma nearest_even_tie (z : Z) r :
  r = IZR z + 1 / 2 -> F64.nearest_even r = if Z.even z then z else (z + 1)%Z.
Proof.
  intros ->. assert (Hf : Zfloor (IZR z + 1 / 2) = z) by (apply Zfloor_eq; lra).
  destruct (nearest_even_cases (IZR z + 1 / 2)) as [[H _]|[[H _]|[_ ->]]];
    rewrite Hf in *; try lra. reflexivity.
Qed.

Lemma nearest_even_monotone r s : r <= s -> (F64.nearest_even r <= F64.nearest_even s)%Z.
Proof.
  intros Hrs.
  assert (Hfl : (Zfloor r <= Zfloor s)%Z) by (apply Zfloor_le, Hrs).
  destruct (Zfloor_bound r) as [Rlo Rhi]. destruct (Zfloor_bound s) as [Slo Shi].
  assert (Hr : (F64.nearest_even r <= Zfloor r + 1)%Z).
  { destruct (nearest_even_cases r) as [[_ ->]|[[_ ->]|[_ ->]]];
      try destruct (Z.even (Zfloor r)); lia. }
  assert (Hs : (Zfloor s <= F64.nearest_even s)%Z).
  { destruct (nearest_even_cases s) as [[_ ->]|[[_ ->]|[_ ->]]];
      try destruct (Z.even (Zfloor s)); lia. }
  destruct (Z.eq_dec (Zfloor r) (Zfloor s)) as [E|E]; [|lia].
  destruct (nearest_even_cases r) as [[H1 ->]|[[H1 ->]|[H1 ->]]];
    destruct (nearest_even_cases s) as [[H2 ->]|[[H2 ->]|[H2 ->]]];
    rewrite E in *; try destruct (Z.even (Zfloor s)); try lia; lra.
Qed.

(** Ties to even is symmetric about zero. *)
Lemma nearest_even_opp r : F64.nearest_even (- r) = (- F64.nearest_even r)%Z.
Proof.
  destruct (Zfloor_bound r) as [Rlo Rhi].
  destruct (Req_dec_T r (IZR (Zfloor r))) as [E|E].
  - rewrite E, <- opp_IZR, !nearest_even_IZR. reflexivity.
  - assert (Hf : Zfloor (- r) = (- Zfloor r - 1)%Z).
    { apply Zfloor_eq. rewrite minus_IZR, opp_IZR. lra. }
    destruct (nearest_even_cases r) as [[H1 ->]|[[H1 ->]|[H1 ->]]].
    + apply nearest_even_eq. rewrite opp_IZR. apply Rabs_def1; lra.
    + apply nearest_even_eq. rewrite opp_IZR, plus_IZR. apply Rabs_def1; lra.
    + rewrite (nearest_even_tie (- Zfloor r - 1)) by (rewrite minus_IZR, opp_IZR; lra).
      replace (- Zfloor r - 1)%Z with (- (Zfloor r + 1))%Z by lia.
      rewrite Z.even_opp, Z.even_add. simpl (Z.even 1).
      destruct (Z.even (Zfloor r)); simpl; lia.
Qed.

Lemma pow2_pos e : 0 < powerRZ 2 e.
Proof. apply powerRZ_lt. lra. Qed.

Lemma pow2_add a b : powerRZ 2 (a + b) = powerRZ 2 a * powerRZ 2 b.
Proof. apply powerRZ_add. lra. Qed.

Lemma pow2_IZR n : (0 <= n)%Z -> powerRZ 2 n = IZR (2 ^ n).
Proof.
  intros H. rewrite <- (Z2Nat.id n H) at 1. rewrite <- pow_powerRZ, pow_IZR.
  rewrite Z2Nat.id by exact H. reflexivity.
Qed.

Lemma pow2_neg n : (0 <= n)%Z -> powerRZ 2 (- n) = / IZR (2 ^ n).
Proof. intros H. rewrite powerRZ_neg', pow2_IZR by exact H. reflexivity. Qed.

Lemma pow2_ge_1 n : (0 <= n)%Z -> 1 <= powerRZ 2 n.
Proof.
  intros H. rewrite <- (Z2Nat.id n H), <- pow_powerRZ.
  apply pow_R1_Rle. lra.
Qed.

Lemma pow2_le a b : (a <= b)%Z -> powerRZ 2 a <= powerRZ 2 b.
Proof.
  intros H. replace b with (a + (b - a))%Z by lia. rewrite pow2_add.
  assert (H1 := pow2_ge_1 (b - a) ltac:(lia)). assert (H2 := pow2_pos a). nra.
Qed.

Lemma pow2_lt_inv a b : powerRZ 2 a < powerRZ 2 b -> (a < b)%Z.
Proof.
  intros H. destruct (Z_lt_le_dec a b) as [|Hle]; [assumption|].
  apply pow2_le in Hle. lra.
Qed.

Lemma pow2_ln e : ln (powerRZ 2 e) = IZR e * ln 2.
Proof. rewrite powerRZ_Rpower by lra. apply ln_Rpower. Qed.

Lemma ln2_pos : 0 < ln 2.
Proof. assert (H := ln_lt_2). lra. Qed.

Lemma exponent_unique e x :
  powerRZ 2 e <= Rabs x < powerRZ 2 (e + 1) -> F64.exponent x = e.
Proof.
  intros [Hlo Hhi]. unfold F64.exponent. apply Zfloor_eq.
  assert (Hp := pow2_pos e). assert (Hl := ln2_pos).
  assert (H1 : IZR e * ln 2 <= ln (Rabs x)).
  { rewrite <- pow2_ln. destruct Hlo as [Hlo|Hlo].
    - left. apply ln_increasing; assumption.
    - right. rewrite Hlo. reflexivity. }
  assert (H2 : ln (Rabs x) < (IZR e + 1) * ln 2).
  { rewrite <- plus_IZR, <- pow2_ln. apply ln_increasing; lra. }
  split.
  - apply (Rmult_le_reg_r (ln 2)); [exact Hl|].
    unfold Rdiv. rewrite Rmult_assoc, Rinv_l by lra. lra.
  - apply (Rmult_lt_reg_r (ln 2)); [exact Hl|].
    unfold Rdiv. rewrite Rmult_assoc, Rinv_l by lra. lra.
Qed.

Lemma exponent_spec x :
  x <> 0 -> powerRZ 2 (F64.exponent x) <= Rabs x < powerRZ 2 (F64.exponent x + 1).
Proof.
  intros Hx. assert (Ha : 0 < Rabs x) by (apply Rabs_pos_lt, Hx).
  assert (Hl := ln2_pos).
  destruct (Zfloor_bound (ln (Rabs x) / ln 2)) as [Hlo Hhi].
  fold (F64.exponent x) in Hlo, Hhi.
  assert (Hm : ln (Rabs x) / ln 2 * ln 2 = ln (Rabs x)) by (field; lra).
  split.
  - assert (H : ln (powerRZ 2 (F64.exponent x)) <= ln (Rabs x)) by (rewrite pow2_ln; nra).
    destruct H as [H|H].
    + left. apply ln_lt_inv; [apply pow2_pos | exact Ha | exact H].
    + right. apply ln_inv; [apply pow2_pos | exact Ha | exact H].
  - apply ln_lt_inv; [exact Ha | apply pow2_pos |].
    rewrite pow2_ln, plus_IZR. nra.
Qed.

Lemma exponent_opp x : F64.exponent (- x) = F64.exponent x.
Proof. unfold F64.exponent. rewrite Rabs_Ropp. reflexivity. Qed.

Lemma round_0 : F64.round 0 = 0.
Proof. unfold F64.round. destruct (Req_dec_T 0 0); [reflexivity | contradiction]. Qed.

Lemma round_nonzero x :
  x <> 0 ->
  F64.round x
  = IZR (F64.nearest_even (x * powerRZ 2 (52 - F64.exponent x)))
    * powerRZ 2 (F64.exponent x - 52).
Proof.
  intros H. unfold F64.round. destruct (Req_dec_T x 0); [contradiction | reflexivity].
Qed.

(** Inside the binade [2^e, 2^(e+1)) rounding is to a multiple of
    [2^(e-52)]. *)
Lemma round_binade e x :
  powerRZ 2 e <= Rabs x < powerRZ 2 (e + 1) ->
  F64.round x = IZR (F64.nearest_even (x * powerRZ 2 (52 - e))) * powerRZ 2 (e - 52).
Proof.
  intros H. assert (Hp := pow2_pos e).
  assert (Hx : x <> 0) by (intros ->; rewrite Rabs_R0 in H; lra).
  rewrite round_nonzero by exact Hx. rewrite (exponent_unique e x H). reflexivity.
Qed.

Lemma round_at (e z : Z) x :
  powerRZ 2 e <= Rabs x < powerRZ 2 (e + 1) ->
  Rabs (x * powerRZ 2 (52 - e) - IZR z) < 1 / 2 ->
  F64.round x = IZR z * powerRZ 2 (e - 52).
Proof.
  intros Hb Hz. rewrite (round_binade e x Hb), (nearest_even_eq z _ Hz). reflexivity.
Qed.


Lemma round_opp x : F64.round (- x) = - F64.round x.
Proof.
  destruct (Req_dec_T x 0) as [->|Hx].
  - rewrite Ropp_0, round_0. ring.
  - rewrite !round_nonzero by lra. rewrite exponent_opp.
    rewrite <- Ropp_mult_distr_l, nearest_even_opp, opp_IZR. ring.
Qed.

(** A number with a significand of at most 53 bits is its own rounding. *)
Lemma round_dyadic (m k : Z) :
  (Z.abs m < 2 ^ 53)%Z -> F64.round (IZR m * powerRZ 2 k) = IZR m * powerRZ 2 k.
Proof.
  intros Hm. destruct (Z.eq_dec m 0) as [->|Hm0].
  { rewrite Rmult_0_l. apply round_0. }
  set (x := IZR m * powerRZ 2 k).
  assert (Hk := pow2_pos k).
  assert (Hx : x <> 0).
  { unfold x. apply Rmult_integral_contrapositive_currified; [|lra].
    apply not_0_IZR, Hm0. }
  destruct (exponent_spec x Hx) as [Hlo Hhi].
  set (e := F64.exponent x) in *.
  assert (Habs : Rabs x = IZR (Z.abs m) * powerRZ 2 k).
  { unfold x. rewrite Rabs_mult, (Rabs_right (powerRZ 2 k)), abs_IZR by lra. reflexivity. }
  assert (He : (e - k <= 52)%Z).
  { assert (H : powerRZ 2 (e - k) < powerRZ 2 53).
    { assert (H53 : IZR (Z.abs m) < powerRZ 2 53)
        by (rewrite pow2_IZR by lia; apply IZR_lt; exact Hm).
      assert (Hs : powerRZ 2 (e - k) * powerRZ 2 k = powerRZ 2 e)
        by (rewrite <- pow2_add; f_equal; lia).
      rewrite Habs in Hlo. nra. }
    apply pow2_lt_inv in H. lia. }
  rewrite round_nonzero by exact Hx. fold e.
  assert (Hint : x * powerRZ 2 (52 - e) = IZR (m * 2 ^ (52 - e + k))).
  { unfold x. rewrite Rmult_assoc, <- pow2_add, mult_IZR. f_equal.
    replace (k + (52 - e))%Z with (52 - e + k)%Z by lia.
    apply pow2_IZR. lia. }
  rewrite Hint, nearest_even_IZR, <- Hint.
  rewrite Rmult_assoc, <- pow2_add.
  replace (52 - e + (e - 52))%Z with 0%Z by lia. simpl. ring.
Qed.

(** In particular every integer below 2^53 in magnitude. *)
Lemma round_IZR (m : Z) : (Z.abs m < 2 ^ 53)%Z -> F64.round (IZR m) = IZR m.
Proof.
  intros H. rewrite <- (Rmult_1_r (IZR m)). change 1 with (powerRZ 2 0).
  apply round_dyadic, H.
Qed.

(** Rounding keeps a positive number inside the closure of its binade. *)
Lemma round_in_binade e x :
  powerRZ 2 e <= x < powerRZ 2 (e + 1) ->
  powerRZ 2 e <= F64.round x <= powerRZ 2 (e + 1).
Proof.
  intros [Hlo Hhi]. assert (Hp := pow2_pos e).
  rewrite (round_binade e) by (rewrite Rabs_right by lra; split; assumption).
  assert (Hs := pow2_pos (52 - e)). assert (Ht := pow2_pos (e - 52)).
  assert (H52 : powerRZ 2 e * powerRZ 2 (52 - e) = IZR (2 ^ 52)).
  { rewrite <- pow2_add. replace (e + (52 - e))%Z with 52%Z by lia.
    apply pow2_IZR. lia. }
  assert (H53 : powerRZ 2 (e + 1) * powerRZ 2 (52 - e) = IZR (2 ^ 53)).
  { rewrite <- pow2_add. replace (e + 1 + (52 - e))%Z with 53%Z by lia.
    apply pow2_IZR. lia. }
  assert (Hone : powerRZ 2 (52 - e) * powerRZ 2 (e - 52) = 1).
  { rewrite <- pow2_add. replace (52 - e + (e - 52))%Z with 0%Z by lia. reflexivity. }
  assert (L : (2 ^ 52 <= F64.nearest_even (x * powerRZ 2 (52 - e)))%Z).
  { rewrite <- (nearest_even_IZR (2 ^ 52)). apply nearest_even_monotone.
    rewrite <- H52. nra. }
  assert (U : (F64.nearest_even (x * powerRZ 2 (52 - e)) <= 2 ^ 53)%Z).
  { rewrite <- (nearest_even_IZR (2 ^ 53)). apply nearest_even_monotone.
    rewrite <- H53. nra. }
  apply IZR_le in L, U. rewrite <- H52 in L. rewrite <- H53 in U.
  split.
  - replace (powerRZ 2 e) with (powerRZ 2 e * powerRZ 2 (52 - e) * powerRZ 2 (e - 52))
      by (rewrite Rmult_assoc, Hone; ring).
    apply Rmult_le_compat_r; lra.
  - replace (powerRZ 2 (e + 1))
      with (powerRZ 2 (e + 1) * powerRZ 2 (52 - e) * powerRZ 2 (e - 52))
      by (rewrite Rmult_assoc, Hone; ring).
    apply Rmult_le_compat_r; lra.
Qed.

Lemma round_pos x : 0 < x -> 0 < F64.round x.
Proof.
  intros H. destruct (exponent_spec x ltac:(lra)) as [Hlo Hhi].
  rewrite Rabs_right in Hlo, Hhi by lra.
  destruct (round_in_binade _ x (conj Hlo Hhi)) as [L _].
  assert (Hp := pow2_pos (F64.exponent x)). lra.
Qed.

Lemma round_monotone_pos x y : 0 < x -> x <= y -> F64.round x <= F64.round y.
Proof.
  intros Hx Hxy.
  destruct (exponent_spec x ltac:(lra)) as [Xlo Xhi].
  destruct (exponent_spec y ltac:(lra)) as [Ylo Yhi].
  rewrite Rabs_right in Xlo, Xhi, Ylo, Yhi by lra.
  set (ex := F64.exponent x) in *. set (ey := F64.exponent y) in *.
  assert (Hle : (ex <= ey)%Z).
  { assert (H : powerRZ 2 ex < powerRZ 2 (ey + 1)) by lra.
    apply pow2_lt_inv in H. lia. }
  destruct (Z.eq_dec ex ey) as [E|E].
  - rewrite (round_binade ex x) by (rewrite Rabs_right by lra; split; assumption).
    rewrite (round_binade ex y) by (rewrite Rabs_right by lra; rewrite E; split; assumption).
    apply Rmult_le_compat_r; [apply Rlt_le, pow2_pos|].
    apply IZR_le, nearest_even_monotone.
    apply Rmult_le_compat_r; [apply Rlt_le, pow2_pos | exact Hxy].
  - destruct (round_in_binade ex x (conj Xlo Xhi)) as [_ U].
    destruct (round_in_binade ey y (conj Ylo Yhi)) as [L _].
    assert (H := pow2_le (ex + 1) ey ltac:(lia)). lra.
Qed.

(** Rounding is monotone. *)
Lemma round_monotone x y : x <= y -> F64.round x <= F64.round y.
Proof.
  intros Hxy.
  destruct (Rlt_dec 0 x) as [Hx|Hx].
  - apply round_monotone_pos; assumption.
  - destruct (Rlt_dec 0 y) as [Hy|Hy].
    + assert (H1 : F64.round x <= 0).
      { destruct (Req_dec_T x 0) as [->|Hx0]; [rewrite round_0; lra|].
        assert (H := round_pos (- x) ltac:(lra)). rewrite round_opp in H. lra. }
      assert (H2 := round_pos y Hy). lra.
    + destruct (Req_dec_T y 0) as [->|Hy0].
      * rewrite round_0.
        destruct (Req_dec_T x 0) as [->|Hx0]; [rewrite round_0; lra|].
        assert (H := round_pos (- x) ltac:(lra)). rewrite round_opp in H. lra.
      * assert (H := round_monotone_pos (- y) (- x) ltac:(lra) ltac:(lra)).
        rewrite !round_opp in H. lra.
Qed.

Lemma round_abs x : F64.round (Rabs x) = Rabs (F64.round x).
Proof.
  assert (H0 := round_0).
  unfold Rabs at 1. destruct (Rcase_abs x) as [Hx|Hx].
  - rewrite round_opp. assert (H := round_monotone x 0 ltac:(lra)).
    rewrite Rabs_left1 by lra. reflexivity.
  - assert (H := round_monotone 0 x ltac:(lra)).
    rewrite Rabs_right by lra. reflexivity.
Qed.



(** Rounding commutes with a change of exponent. *)
Lemma round_scale x j : F64.round (x * powerRZ 2 j) = F64.round x * powerRZ 2 j.
Proof.
  destruct (Req_dec_T x 0) as [->|Hx].
  { rewrite Rmult_0_l, round_0. ring. }
  destruct (exponent_spec x Hx) as [Hlo Hhi].
  set (e := F64.exponent x) in *.
  assert (Hj := pow2_pos j).
  assert (Hb : powerRZ 2 (e + j) <= Rabs (x * powerRZ 2 j) < powerRZ 2 (e + j + 1)).
  { rewrite Rabs_mult, (Rabs_right (powerRZ 2 j)) by lra.
    replace (e + j + 1)%Z with (e + 1 + j)%Z by lia.
    rewrite (pow2_add e j), (pow2_add (e + 1) j).
    split; [apply Rmult_le_compat_r | apply Rmult_lt_compat_r]; lra. }
  rewrite (round_binade (e + j) _ Hb), (round_binade e x (conj Hlo Hhi)).
  rewrite !Rmult_assoc, <- !pow2_add.
  replace (j + (52 - (e + j)))%Z with (52 - e)%Z by lia.
  replace (e - 52 + j)%Z with (e + j - 52)%Z by lia.
  reflexivity.
Qed.

Lemma is_float_scale x j : F64.is_float x -> F64.is_float (x * powerRZ 2 j).
Proof. unfold F64.is_float. intros H. rewrite round_scale, H. reflexivity. Qed.

Lemma is_float_opp x : F64.is_float x -> F64.is_float (- x).
Proof. unfold F64.is_float. intros H. rewrite round_opp, H. reflexivity. Qed.

(** A float of the binade [2^e, 2^(e+1)) is a multiple of [2^(e-52)]. *)
Lemma float_significand x e :
  F64.is_float x -> powerRZ 2 e <= Rabs x < powerRZ 2 (e + 1) ->
  exists m : Z, x = IZR m * powerRZ 2 (e - 52).
Proof.
  intros Hf Hb. exists (F64.nearest_even (x * powerRZ 2 (52 - e))).
  rewrite <- (round_binade e x Hb). symmetry. exact Hf.
Qed.

(** ** Integer part *)

Lemma int_nonneg_floor x : 0 <= x -> Np.int x = Zfloor x.
Proof. intros H. unfold Np.int. destruct (Rle_dec 0 x); [reflexivity | contradiction]. Qed.

Lemma int_neg_ceil x : x <= 0 -> Np.int x = Zceil x.
Proof.
  intros H. unfold Np.int. destruct (Rle_dec 0 x) as [H0|H0]; [|reflexivity].
  assert (x = 0) as -> by lra.
  unfold Zceil. rewrite Ropp_0. change 0 with (IZR 0). rewrite ZfloorZ. reflexivity.
Qed.

Lemma int_IZR z : Np.int (IZR z) = z.
Proof.
  unfold Np.int. destruct (Rle_dec 0 (IZR z)).
  - apply ZfloorZ.
  - unfold Zceil. rewrite <- opp_IZR, ZfloorZ. lia.
Qed.

(** The integer part is the integer of largest magnitude between 0 and [x]. *)
Lemma int_bounds x :
  (0 <= x -> IZR (Np.int x) <= x < IZR (Np.int x) + 1) /\
  (x <= 0 -> IZR (Np.int x) - 1 < x <= IZR (Np.int x)).
Proof.
  split; intros H.
  - rewrite int_nonneg_floor by assumption. apply Zfloor_bound.
  - rewrite int_neg_ceil by assumption. apply Zceil_bound.
Qed.

Lemma int_eq_nonneg (z : Z) x : 0 <= x -> IZR z <= x < IZR z + 1 -> Np.int x = z.
Proof. intros H0 H. rewrite int_nonneg_floor by assumption. apply Zfloor_eq, H. Qed.

Lemma int_eq_nonpos (z : Z) x : x <= 0 -> IZR z - 1 < x <= IZR z -> Np.int x = z.
Proof. intros H0 H. rewrite int_neg_ceil by assumption. apply Zceil_eq, H. Qed.

Lemma int_abs_error x : Rabs (IZR (Np.int x) - x) < 1.
Proof.
  destruct (Rle_dec 0 x) as [H|H].
  - destruct (proj1 (int_bounds x) H). apply Rabs_def1; lra.
  - destruct (proj2 (int_bounds x)) as [? ?]; [lra|]. apply Rabs_def1; lra.
Qed.

Lemma int_opp x : Np.int (- x) = (- Np.int x)%Z.
Proof.
  destruct (Rle_dec 0 x) as [H|H].
  - rewrite (int_neg_ceil (- x)) by lra. rewrite int_nonneg_floor by exact H.
    apply ZceilN.
  - rewrite (int_nonneg_floor (- x)) by lra. rewrite int_neg_ceil by lra.
    rewrite ZfloorN. reflexivity.
Qed.

Lemma int_sign x :
  (0 <= x -> (0 <= Np.int x)%Z) /\ (x <= 0 -> (Np.int x <= 0)%Z).
Proof.
  split; intros H.
  - rewrite int_nonneg_floor by exact H. apply Zfloor_lub. simpl. exact H.
  - rewrite int_neg_ceil by exact H.
    rewrite <- (Zceil_eq 0 0) by (simpl; lra). apply Zceil_le. exact H.
Qed.

Lemma int_monotone x y : x <= y -> (Np.int x <= Np.int y)%Z.
Proof.
  intros Hxy. destruct (Rle_dec 0 x) as [Hx|Hx].
  - rewrite !int_nonneg_floor by lra. apply Zfloor_le, Hxy.
  - destruct (Rle_dec 0 y) as [Hy|Hy].
    + assert (Np.int x <= 0)%Z by (apply int_sign; lra).
      assert (0 <= Np.int y)%Z by (apply int_sign; exact Hy). lia.
    + rewrite !int_neg_ceil by lra. apply Zceil_le, Hxy.
Qed.

Lemma int_abs_le x : Rabs (IZR (Np.int x)) <= Rabs x.
Proof.
  destruct (Rle_dec 0 x) as [H|H].
  - destruct (proj1 (int_bounds x) H) as [Hlo _].
    assert (H0 := IZR_le _ _ (proj1 (int_sign x) H)). simpl in H0.
    rewrite !Rabs_right by lra. exact Hlo.
  - destruct (proj2 (int_bounds x)) as [_ Hhi]; [lra|].
    assert (H0 := IZR_le _ _ (proj2 (int_sign x) ltac:(lra))). simpl in H0.
    rewrite !Rabs_left1 by lra. lra.
Qed.

Lemma fade_samples_eq : Np.int (F64.mul (IZR SAMPLE_RATE) 0.5) = 22050%Z.
Proof.
  unfold F64.mul.
  replace (IZR SAMPLE_RATE * 0.5) with (IZR 22050) by (unfold SAMPLE_RATE; lra).
  rewrite round_IZR by lia. apply int_IZR.
Qed.

(** ** Arrays as index functions *)

Lemma length_tabulate g n : length (tabulate g n) = n.
Proof. unfold tabulate. rewrite length_map, length_seq. reflexivity. Qed.

Lemma nth_tabulate g n i d : (i < n)%nat -> nth i (tabulate g n) d = g i.
Proof.
  intros H. unfold tabulate.
  rewrite (nth_indep _ d (g 0%nat)) by (rewrite length_map, length_seq; exact H).
  rewrite map_nth, seq_nth by exact H. reflexivity.
Qed.

Lemma tabulate_ext g h n :
  (forall i, (i < n)%nat -> g i = h i) -> tabulate g n = tabulate h n.
Proof.
  intros H. unfold tabulate. apply map_ext_in.
  intros i Hi. apply in_seq in Hi. apply H. lia.
Qed.

Lemma map_tabulate f g n : map f (tabulate g n) = tabulate (fun i => f (g i)) n.
Proof. unfold tabulate. rewrite map_map. reflexivity. Qed.

Lemma tabulate_S g n : tabulate g (S n) = tabulate g n ++ [g n].
Proof. unfold tabulate. rewrite seq_S, map_app. reflexivity. Qed.

Lemma zip_with_map f (g h : nat -> R) (l : list nat) :
  Np.zip_with f (map g l) (map h l) = map (fun i => f (g i) (h i)) l.
Proof.
  unfold Np.zip_with. induction l as [|x l IH]; simpl; [reflexivity|].
  f_equal. exact IH.
Qed.

Lemma zip_with_tabulate f g h n :
  Np.zip_with f (tabulate g n) (tabulate h n) = tabulate (fun i => f (g i) (h i)) n.
Proof. apply zip_with_map. Qed.

Lemma repeat_tabulate (c : R) n : repeat c n = tabulate (fun _ => c) n.
Proof.
  induction n as [|n IH]; [reflexivity|].
  rewrite tabulate_S, <- IH. apply repeat_cons.
Qed.

Lemma skipn_repeat_sub (c : R) k n : skipn k (repeat c n) = repeat c (n - k).
Proof.
  revert n. induction k as [|k IH]; intros n.
  - rewrite Nat.sub_0_r. reflexivity.
  - destruct n as [|n]; [reflexivity|]. simpl. apply IH.
Qed.

(** ** [linspace] *)

Lemma linspace_negative start stop num endpoint :
  (num < 0)%Z -> Np.linspace start stop num endpoint = Raise (NegativeSamples num).
Proof.
  intros H. unfold Np.linspace.
  destruct (Z.ltb_spec num 0); [reflexivity | lia].
Qed.

(** Without the end point: [n] samples, [i]-th one [i * step + start] with
    [step = (stop - start) / n]. *)
Lemma linspace_open start stop n :
  Np.linspace start stop (Z.of_nat n) false
  = Ok (tabulate (fun i => INR i * ((stop - start) / INR n) + start) n).
Proof.
  unfold Np.linspace.
  destruct (Z.ltb_spec (Z.of_nat n) 0) as [H|_]; [lia|].
  rewrite Nat2Z.id, andb_false_l. unfold Np.arange, tabulate. f_equal.
  destruct (Nat.ltb_spec 0 n) as [Hn|Hn].
  - rewrite !map_map. reflexivity.
  - assert (n = 0%nat) as -> by lia. reflexivity.
Qed.

Lemma set_last_snoc (l : list R) x v : Np.set_last (l ++ [x]) v = l ++ [v].
Proof.
  unfold Np.set_last. rewrite length_app. simpl.
  replace (length l + 1 - 1)%nat with (length l + 0)%nat by lia.
  rewrite firstn_app_2. simpl. rewrite app_nil_r. reflexivity.
Qed.

(** With the end point and at least two samples: the step is
    [(stop - start) / (n - 1)], and the last sample, overwritten by [stop],
    is the value the formula gives anyway. *)
Lemma linspace_closed start stop n :
  (2 <= n)%nat ->
  Np.linspace start stop (Z.of_nat n) true
  = Ok (tabulate (fun i => INR i * ((stop - start) / INR (n - 1)) + start) n).
Proof.
  intros Hn. unfold Np.linspace.
  destruct (Z.ltb_spec (Z.of_nat n) 0) as [H|_]; [lia|].
  rewrite Nat2Z.id, andb_true_l.
  destruct (Nat.ltb_spec 0 (n - 1)) as [_|H]; [|lia].
  destruct (Nat.ltb_spec 1 n) as [_|H]; [|lia].
  f_equal. unfold Np.arange. rewrite !map_map.
  destruct n as [|m]; [lia|].
  replace (S m - 1)%nat with m by lia.
  change (map (fun x => INR x * ((stop - start) / INR m) + start) (seq 0 (S m)))
    with (tabulate (fun i => INR i * ((stop - start) / INR m) + start) (S m)).
  rewrite tabulate_S, set_last_snoc. f_equal. f_equal.
  assert (INR m <> 0) by (apply not_0_INR; lia).
  field. assumption.
Qed.

(** ** The time grid *)

Lemma time_grid_raises duration :
  (sample_count duration < 0)%Z ->
  Np.linspace 0 duration (sample_count duration) false
  = Raise (NegativeSamples (sample_count duration)).
Proof. apply linspace_negative. Qed.

Lemma time_grid_ok duration :
  (0 <= sample_count duration)%Z ->
  Np.linspace 0 duration (sample_count duration) false
  = Ok (tabulate (grid_time duration (Z.to_nat (sample_count duration)))
          (Z.to_nat (sample_count duration))).
Proof.
  intros H. rewrite <- (Z2Nat.id (sample_count duration)) at 1 by exact H.
  rewrite linspace_open. f_equal. apply tabulate_ext. intros i _.
  unfold grid_time. rewrite Rminus_0_r, Rplus_0_r. reflexivity.
Qed.

(** ** The number of samples *)

Lemma sample_count_IZR (z : Z) (duration : R) :
  IZR SAMPLE_RATE * duration = IZR z -> (Z.abs z < 2 ^ 53)%Z -> sample_count duration = z.
Proof.
  intros H Hz. unfold sample_count, F64.mul.
  rewrite H, round_IZR by exact Hz. apply int_IZR.
Qed.

Lemma sample_count_monotone d1 d2 : d1 <= d2 -> (sample_count d1 <= sample_count d2)%Z.
Proof.
  intros H. apply int_monotone, round_monotone. unfold SAMPLE_RATE. lra.
Qed.

Lemma sample_count_nonneg duration : 0 <= duration -> (0 <= sample_count duration)%Z.
Proof.
  intros H. rewrite <- (sample_count_IZR 0 0) by (try lia; lra).
  apply sample_count_monotone, H.
Qed.

(** For a duration that is not negative the count is the floor of the
    float64 product [44100 * duration]. *)
Lemma sample_count_floor duration :
  0 <= duration -> sample_count duration = Zfloor (F64.mul (IZR SAMPLE_RATE) duration).
Proof.
  intros H. unfold sample_count. apply int_nonneg_floor.
  rewrite <- round_0. apply round_monotone. unfold SAMPLE_RATE. lra.
Qed.

Lemma sample_count_negative duration :
  IZR SAMPLE_RATE * duration <= -1 -> (sample_count duration < 0)%Z.
Proof.
  intros H. unfold sample_count, F64.mul.
  assert (Hr := round_monotone _ _ H).
  rewrite (round_IZR (-1)) in Hr by lia.
  assert (Hi := int_monotone _ _ Hr). rewrite int_IZR in Hi. lia.
Qed.

(** The float64 product of a float in (-1/44100, 0] stays above -1: the
    float nearest to -1/44100 on that side gives a product that is more
    than half a unit in the last place away from -1. *)
Lemma rate_product_above_minus_one duration :
  F64.is_float duration -> -1 < IZR SAMPLE_RATE * duration <= 0 ->
  -1 < F64.mul (IZR SAMPLE_RATE) duration <= 0.
Proof.
  intros Hf [Hlo Hhi]. unfold F64.mul.
  split; [|rewrite <- round_0; apply round_monotone, Hhi].
  set (a := - duration).
  assert (Hfa : F64.is_float a) by (apply is_float_opp, Hf).
  assert (Ha : 0 <= a /\ 44100 * a < 1) by (unfold a, SAMPLE_RATE in *; lra).
  replace (IZR SAMPLE_RATE * duration) with (- (44100 * a))
    by (unfold a, SAMPLE_RATE; ring).
  rewrite round_opp.
  assert (H16 : powerRZ 2 (-16) = / 65536) by (simpl; lra).
  assert (H15 : powerRZ 2 (-16 + 1) = / 32768) by (simpl; lra).
  assert (H : F64.round (44100 * a) < 1); [|lra].
  destruct (Rlt_dec a (/ 65536)) as [Hs|Hs].
  - assert (Hr := round_monotone (44100 * a) (IZR 3 * powerRZ 2 (-2))
                    ltac:(simpl; lra)).
    rewrite round_dyadic in Hr by lia. simpl in Hr. lra.
  - destruct (float_significand a (-16) Hfa) as [m Hm].
    { rewrite Rabs_right, H16, H15 by lra. lra. }
    assert (H68 : powerRZ 2 (-16 - 52) = / IZR (2 ^ 68)) by (apply (pow2_neg 68); lia).
    rewrite H68 in Hm.
    assert (Hp68 : 0 < IZR (2 ^ 68)) by (apply IZR_lt; lia).
    assert (Hmz : (44100 * m < 2 ^ 68)%Z).
    { apply lt_IZR. rewrite mult_IZR.
      apply (Rmult_lt_reg_r (/ IZR (2 ^ 68))); [apply Rinv_0_lt_compat, Hp68|].
      rewrite Rinv_r by lra. rewrite Rmult_assoc, <- Hm. lra. }
    assert (Hle : 44100 * a <= IZR (2 ^ 53 - 1) * powerRZ 2 (-53)).
    { assert (H53 : powerRZ 2 (-53) = / IZR (2 ^ 53)) by (apply (pow2_neg 53); lia).
      rewrite H53, Hm.
      assert (Hm' : (m <= 6692696262570358)%Z) by lia.
      apply IZR_le in Hm'.
      assert (Hq : IZR (2 ^ 68) = 32768 * IZR (2 ^ 53))
        by (rewrite <- mult_IZR; f_equal).
      assert (Hp53 : 0 < IZR (2 ^ 53)) by (apply IZR_lt; lia).
      rewrite Hq, Rinv_mult.
      apply (Rmult_le_reg_r (IZR (2 ^ 53))); [exact Hp53|].
      replace (44100 * (IZR m * (/ 32768 * / IZR (2 ^ 53))) * IZR (2 ^ 53))
        with (44100 * IZR m / 32768) by (field; lra).
      rewrite Rmult_assoc, Rinv_l by lra.
      change (2 ^ 53 - 1)%Z with 9007199254740991%Z. lra. }
    assert (Hr := round_monotone _ _ Hle).
    rewrite round_dyadic in Hr by lia.
    assert (H53 : powerRZ 2 (-53) = / IZR (2 ^ 53)) by (apply (pow2_neg 53); lia).
    rewrite H53 in Hr.
    assert (IZR (2 ^ 53 - 1) * / IZR (2 ^ 53) < 1); [|lra].
    assert (Hp53 : 0 < IZR (2 ^ 53)) by (apply IZR_lt; lia).
    apply (Rmult_lt_reg_r (IZR (2 ^ 53))); [exact Hp53|].
    rewrite Rmult_assoc, Rinv_l by lra. rewrite minus_IZR. lra.
Qed.

(** A float duration in (-1/44100, 0] gives a count of zero. *)
Lemma sample_count_zero duration :
  F64.is_float duration -> -1 < IZR SAMPLE_RATE * duration <= 0 ->
  sample_count duration = 0%Z.
Proof.
  intros Hf H. destruct (rate_product_above_minus_one duration Hf H) as [H1 H2].
  unfold sample_count. apply int_eq_nonpos; [exact H2 | simpl; lra].
Qed.

(** The float64 product of a float below one half stays below 22050: the
    float just under one half gives a product that rounds down. *)
Lemma rate_product_below_half duration :
  F64.is_float duration -> 0 < duration < 0.5 ->
  F64.mul (IZR SAMPLE_RATE) duration < 22050.
Proof.
  intros Hf [Hlo Hhi]. unfold F64.mul.
  assert (H2 : powerRZ 2 (-2) = / 4) by (simpl; lra).
  assert (H1 : powerRZ 2 (-2 + 1) = / 2) by (simpl; lra).
  destruct (Rlt_dec duration (/ 4)) as [Hs|Hs].
  - assert (Hr := round_monotone (IZR SAMPLE_RATE * duration) (IZR 11025)
                    ltac:(unfold SAMPLE_RATE; lra)).
    rewrite round_IZR in Hr by lia. lra.
  - destruct (float_significand duration (-2) Hf) as [m Hm].
    { rewrite Rabs_right, H2, H1 by lra. lra. }
    assert (H54 : powerRZ 2 (-2 - 52) = / IZR (2 ^ 54)) by (apply (pow2_neg 54); lia).
    rewrite H54 in Hm.
    assert (Hp54 : 0 < IZR (2 ^ 54)) by (apply IZR_lt; lia).
    assert (Hmz : (2 * m < 2 ^ 54)%Z).
    { apply lt_IZR. rewrite mult_IZR.
      apply (Rmult_lt_reg_r (/ IZR (2 ^ 54))); [apply Rinv_0_lt_compat, Hp54|].
      rewrite Rinv_r by lra. rewrite Rmult_assoc, <- Hm. lra. }
    assert (Hm' : (m <= 2 ^ 53 - 1)%Z) by lia.
    apply IZR_le in Hm'.
    set (x := 44100 * (IZR (2 ^ 53 - 1) * / IZR (2 ^ 54))).
    assert (Hle : IZR SAMPLE_RATE * duration <= x).
    { unfold x, SAMPLE_RATE. rewrite Hm.
      assert (0 < / IZR (2 ^ 54)) by (apply Rinv_0_lt_compat, Hp54). nra. }
    assert (Hr := round_monotone _ _ Hle).
    assert (Hx : F64.round x = IZR 6061057848115199 * powerRZ 2 (14 - 52)).
    { apply round_at.
      - unfold x. change (2 ^ 53 - 1)%Z with 9007199254740991%Z.
        change (2 ^ 54)%Z with 18014398509481984%Z.
        rewrite Rabs_right by lra. simpl. lra.
      - unfold x. change (2 ^ 53 - 1)%Z with 9007199254740991%Z.
        change (2 ^ 54)%Z with 18014398509481984%Z.
        simpl. apply Rabs_def1; lra. }
    rewrite Hx in Hr. simpl in Hr. lra.
Qed.

(** Likewise the product of a float below two stays below 88200. *)
Lemma rate_product_below_two duration :
  F64.is_float duration -> 0 <= duration < 2 ->
  F64.mul (IZR SAMPLE_RATE) duration < 88200.
Proof.
  intros Hf [Hlo Hhi]. unfold F64.mul.
  destruct (Req_dec_T duration 0) as [->|Hd].
  { rewrite Rmult_0_r, round_0. lra. }
  assert (H2 : powerRZ 2 (-2) = / 4) by (simpl; lra).
  assert (H4 : powerRZ 2 2 = 4) by (simpl; lra).
  assert (Hq := rate_product_below_half (duration * powerRZ 2 (-2))
                  (is_float_scale _ _ Hf) ltac:(rewrite H2; lra)).
  unfold F64.mul in Hq.
  replace (IZR SAMPLE_RATE * duration)
    with (IZR SAMPLE_RATE * (duration * powerRZ 2 (-2)) * powerRZ 2 2)
    by (rewrite H2, H4; field).
  rewrite round_scale, H4. lra.
Qed.

Lemma sample_count_short duration :
  F64.is_float duration -> 0 < duration < 0.5 -> (0 <= sample_count duration < 22050)%Z.
Proof.
  intros Hf H. split; [apply sample_count_nonneg; lra|].
  rewrite sample_count_floor by lra. apply lt_IZR.
  destruct (Zfloor_bound (F64.mul (IZR SAMPLE_RATE) duration)) as [Hb _].
  assert (Hh := rate_product_below_half duration Hf H). lra.
Qed.

(** Half a second or more gives at least 22050 samples. *)
Lemma sample_count_half duration : 0.5 <= duration -> (22050 <= sample_count duration)%Z.
Proof.
  intros H. rewrite <- (sample_count_IZR 22050 0.5) by (try lia; unfold SAMPLE_RATE; lra).
  apply sample_count_monotone, H.
Qed.

(** ** Closed forms of the generators *)

Lemma bind_Ok {A B : Type} (a : A) (k : A -> result B) : bind (Ok a) k = k a.
Proof. reflexivity. Qed.

Lemma bind_Raise {A B : Type} (e : exn) (k : A -> result B) : bind (Raise e) k = Raise e.
Proof. reflexivity. Qed.

Lemma ret_Ok {A : Type} (a : A) : ret a = Ok a.
Proof. reflexivity. Qed.

(** Rewrites the [linspace] call of a generator, under either sign of the
    sample count. *)
Ltac grid_ok H :=
  change (Np.int (F64.mul (IZR SAMPLE_RATE) ?d)) with (sample_count d);
  rewrite (time_grid_ok _ H), bind_Ok.

Ltac grid_raises H :=
  change (Np.int (F64.mul (IZR SAMPLE_RATE) ?d)) with (sample_count d);
  rewrite (time_grid_raises _ H), bind_Raise.

Section Generators.

Variable duration : R.

Local Abbreviation num := (sample_count duration).
Local Abbreviation N := (Z.to_nat (sample_count duration)).
Local Abbreviation t := (grid_time duration (Z.to_nat (sample_count duration))).

Lemma sine_raises frequency amplitude :
  (num < 0)%Z ->
  generate_sine_wave frequency duration amplitude = Raise (NegativeSamples num).
Proof. intros H. unfold generate_sine_wave. grid_raises H. reflexivity. Qed.

Lemma sine_ok frequency amplitude :
  (0 <= num)%Z ->
  generate_sine_wave frequency duration amplitude
  = Ok (tabulate (fun i => amplitude * sin (2 * PI * frequency * t i)) N).
Proof.
  intros H. unfold generate_sine_wave. grid_ok H.
  rewrite map_tabulate. reflexivity.
Qed.

Lemma binaural_raises base_freq beat_freq amplitude :
  (num < 0)%Z ->
  generate_binaural_beat base_freq beat_freq duration amplitude
  = Raise (NegativeSamples num).
Proof. intros H. unfold generate_binaural_beat. grid_raises H. reflexivity. Qed.

Lemma binaural_ok base_freq beat_freq amplitude :
  (0 <= num)%Z ->
  generate_binaural_beat base_freq beat_freq duration amplitude
  = Ok (combine
          (tabulate (fun i => amplitude * sin (2 * PI * base_freq * t i)) N)
          (tabulate (fun i => amplitude * sin (2 * PI * (base_freq + beat_freq) * t i)) N)).
Proof.
  intros H. unfold generate_binaural_beat. grid_ok H.
  rewrite !map_tabulate. reflexivity.
Qed.

Lemma isochronic_raises frequency pulse_freq amplitude :
  (num < 0)%Z ->
  generate_isochronic_tone frequency pulse_freq duration amplitude
  = Raise (NegativeSamples num).
Proof. intros H. unfold generate_isochronic_tone. grid_raises H. reflexivity. Qed.

Lemma isochronic_ok frequency pulse_freq amplitude :
  (0 <= num)%Z ->
  generate_isochronic_tone frequency pulse_freq duration amplitude
  = Ok (tabulate
          (fun i => amplitude * sin (2 * PI * frequency * t i)
                    * Np.clip (0.5 * (1 + sin (2 * PI * pulse_freq * t i))) 0 1) N).
Proof.
  intros H. unfold generate_isochronic_tone. grid_ok H.
  rewrite !map_tabulate, zip_with_tabulate. reflexivity.
Qed.

Lemma sweep_raises start_freq end_freq amplitude :
  (num < 0)%Z ->
  generate_frequency_sweep start_freq end_freq duration amplitude
  = Raise (NegativeSamples num).
Proof. intros H. unfold generate_frequency_sweep. grid_raises H. reflexivity. Qed.

Lemma sweep_ok start_freq end_freq amplitude :
  (0 <= num)%Z ->
  generate_frequency_sweep start_freq end_freq duration amplitude
  = Ok (tabulate
          (fun i => amplitude
                    * sin (2 * PI * (start_freq * t i
                                     + (end_freq - start_freq) * t i ^ 2 / (2 * duration)))) N).
Proof.
  intros H. unfold generate_frequency_sweep. grid_ok H.
  rewrite !map_tabulate. reflexivity.
Qed.

Lemma layered_raises frequencies amplitude :
  (num < 0)%Z ->
  generate_layered_frequencies frequencies duration amplitude
  = Raise (NegativeSamples num).
Proof. intros H. unfold generate_layered_frequencies. grid_raises H. reflexivity. Qed.

(** The running sum of the loop, element [i], after the frequencies [fs]. *)
Lemma layered_loop (fs : list R) (w : nat -> R) n (g : nat -> R) :
  fold_left
    (fun wave freq =>
       Np.zip_with Rplus wave (map (fun ti => sin (2 * PI * freq * ti)) (tabulate g n)))
    fs (tabulate w n)
  = tabulate (fun i => fold_left (fun acc freq => acc + sin (2 * PI * freq * g i)) fs (w i)) n.
Proof.
  revert w. induction fs as [|f fs IH]; intros w; simpl; [reflexivity|].
  rewrite map_tabulate, zip_with_tabulate. apply IH.
Qed.

Lemma layered_ok frequencies amplitude :
  (0 <= num)%Z ->
  generate_layered_frequencies frequencies duration amplitude
  = Ok (tabulate
          (fun i =>
             F64.div
               (F64.mul amplitude
                  (fold_left (fun acc freq => acc + sin (2 * PI * freq * t i)) frequencies 0))
               (INR (length frequencies))) N).
Proof.
  intros H. unfold generate_layered_frequencies. grid_ok H.
  unfold Np.zeros_like. rewrite length_tabulate, repeat_tabulate, layered_loop, map_tabulate.
  reflexivity.
Qed.

End Generators.

(** ** Slice assignment *)

Lemma slice_bound_nonneg n i : (0 <= i)%Z -> Np.slice_bound n i = Nat.min (Z.to_nat i) n.
Proof.
  intros H. unfold Np.slice_bound. destruct (Z.ltb_spec i 0); [lia | reflexivity].
Qed.

Lemma slice_bound_neg n i :
  (i < 0)%Z -> Np.slice_bound n i = (n - Z.to_nat (- i))%nat.
Proof.
  intros H. unfold Np.slice_bound. destruct (Z.ltb_spec i 0); lia.
Qed.

Lemma set_slice_fits a start stop v :
  (start <= stop)%nat -> length v = (stop - start)%nat ->
  Np.set_slice a start stop v = Ok (firstn start a ++ v ++ skipn stop a).
Proof.
  intros Hle Hlen. unfold Np.set_slice.
  rewrite Nat.max_r by exact Hle.
  destruct (Nat.eqb_spec (length v) (stop - start)); [reflexivity | contradiction].
Qed.

Lemma set_slice_mismatch a start stop v :
  (start <= stop)%nat -> length v <> (stop - start)%nat -> length v <> 1%nat ->
  Np.set_slice a start stop v = Raise (BroadcastError (length v) (stop - start)).
Proof.
  intros Hle Hlen H1. unfold Np.set_slice.
  rewrite Nat.max_r by exact Hle.
  destruct (Nat.eqb_spec (length v) (stop - start)); [contradiction|].
  destruct (Nat.eqb_spec (length v) 1); [contradiction | reflexivity].
Qed.

(** ** The envelope of the Om tone *)

Lemma fade_facts : Z.of_nat fade = 22050%Z /\ INR (fade - 1) = 22049.
Proof.
  assert (H : Z.of_nat fade = 22050%Z) by (unfold fade; lia).
  split; [exact H|].
  rewrite INR_IZR_INZ.
  replace (Z.of_nat (fade - 1)) with 22049%Z by lia. reflexivity.
Qed.

(** The array built by the two assignments, for ramps given by their
    index functions. *)
Lemma envelope_assignments (t : list R) n f (up down : nat -> R) :
  length t = n -> (f <= n)%nat ->
  exists e1,
    Np.set_slice (Np.ones_like t) 0 f (tabulate up f) = Ok e1 /\
    length e1 = n /\
    Np.set_slice e1 (n - f) n (tabulate down f)
    = Ok (tabulate (fun i => if (n - f <=? i)%nat then down (i - (n - f))%nat
                             else if (i <? f)%nat then up i else 1) n).
Proof.
  intros Ht Hf. unfold Np.ones_like. rewrite Ht.
  exists (tabulate up f ++ repeat 1 (n - f)).
  assert (Hlen : length (tabulate up f ++ repeat 1 (n - f)) = n)
    by (rewrite length_app, length_tabulate, repeat_length; lia).
  split; [|split; [exact Hlen|]].
  - rewrite set_slice_fits; [| lia | rewrite length_tabulate; lia].
    rewrite skipn_repeat_sub. reflexivity.
  - rewrite set_slice_fits; [| lia | rewrite length_tabulate; lia].
    f_equal.
    rewrite (skipn_all2 (n := n)) by (rewrite Hlen; lia).
    rewrite app_nil_r.
    assert (Hl1 : length (firstn (n - f) (tabulate up f ++ repeat 1 (n - f))) = (n - f)%nat)
      by (rewrite length_firstn, Hlen; lia).
    apply (nth_ext _ _ 0 0).
    + rewrite length_app, Hl1, !length_tabulate. lia.
    + intros i Hi.
      rewrite length_app, Hl1, length_tabulate in Hi.
      rewrite (nth_tabulate _ n i) by lia.
      destruct (Nat.leb_spec (n - f) i) as [Hge|Hlt].
      * rewrite app_nth2 by (rewrite Hl1; lia).
        rewrite Hl1. apply nth_tabulate. lia.
      * rewrite app_nth1 by (rewrite Hl1; lia).
        rewrite nth_firstn.
        destruct (Nat.ltb_spec i (n - f)) as [_|H]; [|lia].
        destruct (Nat.ltb_spec i f) as [Hif|Hif].
        -- rewrite app_nth1 by (rewrite length_tabulate; exact Hif).
           apply nth_tabulate. exact Hif.
        -- rewrite app_nth2 by (rewrite length_tabulate; exact Hif).
           rewrite length_tabulate. apply nth_repeat_lt. lia.
Qed.

Section OmTone.

Variables duration amplitude : R.

Local Abbreviation num := (sample_count duration).
Local Abbreviation N := (Z.to_nat (sample_count duration)).
Local Abbreviation t := (grid_time duration (Z.to_nat (sample_count duration))).

Lemma om_raises_negative :
  (num < 0)%Z -> generate_om_tone duration amplitude = Raise (NegativeSamples num).
Proof. intros H. unfold generate_om_tone. grid_raises H. reflexivity. Qed.

(** A buffer shorter than the fade: the first slice has the length of
    the whole buffer and the ramp of [fade] samples does not fit it. *)
Lemma om_raises_short :
  (0 <= num < 22050)%Z ->
  generate_om_tone duration amplitude = Raise (BroadcastError fade N).
Proof.
  intros [H0 H1]. unfold generate_om_tone.
  rewrite fade_samples_eq. grid_ok H0.
  destruct fade_facts as [HF _]. rewrite <- HF.
  assert (H2 : (2 <= fade)%nat) by lia.
  rewrite (linspace_closed 0 1 fade H2), bind_Ok.
  unfold Np.ones_like. rewrite repeat_length, length_tabulate.
  rewrite slice_bound_nonneg by lia. rewrite Nat2Z.id.
  replace (Nat.min fade N) with N by lia.
  rewrite set_slice_mismatch; rewrite ?length_tabulate; try lia.
  rewrite bind_Raise, Nat.sub_0_r. reflexivity.
Qed.

Lemma om_ok :
  (22050 <= num)%Z ->
  generate_om_tone duration amplitude
  = Ok (tabulate
          (fun i => amplitude
                    * (sin (2 * PI * 136.1 * t i)
                       + 0.5 * sin (2 * PI * 136.1 * 2 * t i)
                       + 0.25 * sin (2 * PI * 136.1 * 3 * t i))
                    * om_envelope N i / 1.75) N).
Proof.
  intros H. assert (H0 : (0 <= num)%Z) by lia. unfold generate_om_tone.
  rewrite fade_samples_eq. grid_ok H0.
  destruct fade_facts as [HF HF1]. rewrite <- HF.
  assert (H2 : (2 <= fade)%nat) by lia.
  assert (HfN : (fade <= N)%nat) by lia.
  rewrite (linspace_closed 0 1 fade H2), bind_Ok.
  destruct (envelope_assignments (tabulate (grid_time duration N) N) N fade
              (fun i => INR i * ((1 - 0) / INR (fade - 1)) + 0)
              (fun i => INR i * ((0 - 1) / INR (fade - 1)) + 1)
              (length_tabulate _ _) HfN) as (e1 & He1 & Hlen & He2).
  replace (Np.slice_bound (length (Np.ones_like (tabulate (grid_time duration N) N)))
             (Z.of_nat fade)) with fade
    by (unfold Np.ones_like; rewrite repeat_length, length_tabulate,
          slice_bound_nonneg by lia; lia).
  rewrite He1, bind_Ok.
  rewrite (linspace_closed 1 0 fade H2), bind_Ok.
  rewrite Hlen, slice_bound_neg by lia.
  rewrite Z.opp_involutive, Nat2Z.id, He2, bind_Ok, ret_Ok.
  rewrite !map_tabulate, !zip_with_tabulate. f_equal.
  apply tabulate_ext. intros i Hi. f_equal. f_equal.
  unfold om_envelope. rewrite HF1.
  destruct (N - fade <=? i)%nat; [field|].
  destruct (i <? fade)%nat; [field | reflexivity].
Qed.

End OmTone.

(** ** The time grid and the length of every buffer *)

Lemma sample_count_of_duration duration :
  0 <= duration ->
  (0 <= sample_count duration)%Z /\
  Z.of_nat (Z.to_nat (sample_count duration)) = Zfloor (F64.mul (IZR SAMPLE_RATE) duration).
Proof.
  intros H.
  assert (H0 : (0 <= sample_count duration)%Z) by (apply sample_count_nonneg, H).
  split; [exact H0|].
  rewrite Z2Nat.id by exact H0. apply sample_count_floor, H.
Qed.

Lemma grid_time_range duration n i :
  0 < duration -> (i < n)%nat -> 0 <= grid_time duration n i < duration.
Proof.
  intros Hd Hi. unfold grid_time.
  assert (Hin : INR i < INR n) by (apply lt_INR; exact Hi).
  assert (H0 : 0 <= INR i) by apply pos_INR.
  assert (Hn : 0 < INR n) by lra.
  assert (Hq : 0 < duration / INR n) by (apply Rdiv_lt_0_compat; assumption).
  assert (Hm : duration / INR n * INR n = duration) by (field; lra).
  split; nra.
Qed.

Lemma double_0_3_float : F64.is_float double_0_3.
Proof.
  unfold F64.is_float.
  replace double_0_3 with (IZR 5404319552844595 * powerRZ 2 (-54))
    by (unfold double_0_3; simpl; lra).
  apply round_dyadic. lia.
Qed.

Lemma sample_count_double_0_3 : sample_count double_0_3 = 13230%Z.
Proof.
  unfold sample_count, F64.mul, SAMPLE_RATE, double_0_3.
  rewrite (round_at 13 7273269417738240).
  - replace (7273269417738240 * powerRZ 2 (13 - 52)) with (IZR 13230) by (simpl; lra).
    apply int_IZR.
  - rewrite Rabs_right by lra. simpl. lra.
  - simpl. apply Rabs_def1; lra.
Qed.

(** C3, as stated, fails.  At the float nearest to 0.3 the product
    44100 * duration is 13229.9999999999995..., of floor 13229; computed
    in float64 it is 13230.0, and the grid has 13230 samples. *)
Lemma grid_count_follows_float_product :
  F64.is_float double_0_3 /\ 0 < double_0_3 /\
  Zfloor (IZR SAMPLE_RATE * double_0_3) = 13229%Z /\
  Np.linspace 0 double_0_3 (Np.int (F64.mul (IZR SAMPLE_RATE) double_0_3)) false
  = Ok (tabulate (grid_time double_0_3 (Z.to_nat 13230)) (Z.to_nat 13230)) /\
  Z.of_nat (length (tabulate (grid_time double_0_3 (Z.to_nat 13230)) (Z.to_nat 13230)))
  = 13230%Z.
Proof.
  split; [apply double_0_3_float|].
  split; [unfold double_0_3; lra|].
  split; [apply Zfloor_eq; unfold SAMPLE_RATE, double_0_3; lra|].
  split.
  - change (Np.int (F64.mul (IZR SAMPLE_RATE) double_0_3)) with (sample_count double_0_3).
    rewrite time_grid_ok; rewrite sample_count_double_0_3; [reflexivity | lia].
  - rewrite length_tabulate. lia.
Qed.

(** C3, amended.  For every duration > 0 the grid every generator builds
    has floor(fl(44100 * duration)) samples, where fl is the product as
    float64 computes it; the [i]-th one is at [i * duration / n]: evenly
    spaced from 0 and all strictly before [duration]; and the buffer of
    every generator has that same length. *)
Theorem time_grid_floor_length (duration : R) :
  0 < duration ->
  exists (n : nat) (t : list R),
    Z.of_nat n = Zfloor (F64.mul (IZR SAMPLE_RATE) duration) /\
    Np.linspace 0 duration (Np.int (F64.mul (IZR SAMPLE_RATE) duration)) false = Ok t /\
    length t = n /\
    (forall i, (i < n)%nat ->
       nth i t 0 = INR i * (duration / INR n) /\ 0 <= nth i t 0 < duration) /\
    (forall f a, exists w, generate_sine_wave f duration a = Ok w /\ length w = n) /\
    (forall f b a, exists w, generate_binaural_beat f b duration a = Ok w /\ length w = n) /\
    (forall f p a, exists w, generate_isochronic_tone f p duration a = Ok w /\ length w = n) /\
    (forall f g a, exists w, generate_frequency_sweep f g duration a = Ok w /\ length w = n) /\
    (forall fs a, exists w, generate_layered_frequencies fs duration a = Ok w /\ length w = n) /\
    (forall a w, generate_om_tone duration a = Ok w -> length w = n).
Proof.
  intros Hd.
  destruct (sample_count_of_duration duration) as [H0 Hn]; [lra|].
  exists (Z.to_nat (sample_count duration)).
  eexists. split; [exact Hn|].
  split; [apply time_grid_ok, H0|].
  split; [apply length_tabulate|].
  split.
  { intros i Hi. rewrite nth_tabulate by exact Hi.
    split; [reflexivity | apply grid_time_range; assumption]. }
  split.
  { intros f a. eexists. split; [apply sine_ok, H0 | apply length_tabulate]. }
  split.
  { intros f b a. eexists. split; [apply binaural_ok, H0|].
    rewrite length_combine, !length_tabulate. apply Nat.min_id. }
  split.
  { intros f p a. eexists. split; [apply isochronic_ok, H0 | apply length_tabulate]. }
  split.
  { intros f g a. eexists. split; [apply sweep_ok, H0 | apply length_tabulate]. }
  split.
  { intros fs a. eexists. split; [apply layered_ok, H0 | apply length_tabulate]. }
  intros a w Hw.
  destruct (Z_lt_le_dec (sample_count duration) 22050) as [Hs|Hs].
  - rewrite om_raises_short in Hw by lia. discriminate Hw.
  - rewrite om_ok in Hw by exact Hs. injection Hw as <-. apply length_tabulate.
Qed.

Lemma time_grid_floor_length_witness :
  0 < 1 /\
  exists (n : nat) (t : list R),
    Z.of_nat n = Zfloor (F64.mul (IZR SAMPLE_RATE) 1) /\
    Np.linspace 0 1 (Np.int (F64.mul (IZR SAMPLE_RATE) 1)) false = Ok t /\
    length t = n.
Proof.
  assert (H : 0 < 1) by lra.
  split; [exact H|].
  destruct (time_grid_floor_length 1 H) as (n & t & Hn & Ht & Hl & _).
  exists n, t. repeat split; assumption.
Defined.

(** ** Durations that are not positive *)

Lemma sample_count_int (d : Z) :
  (Z.abs (44100 * d) < 2 ^ 53)%Z -> sample_count (IZR d) = (44100 * d)%Z.
Proof.
  intros H. apply sample_count_IZR; [|exact H].
  unfold SAMPLE_RATE. rewrite mult_IZR. reflexivity.
Qed.

Lemma is_float_IZR (z : Z) : (Z.abs z < 2 ^ 53)%Z -> F64.is_float (IZR z).
Proof. apply round_IZR. Qed.

Lemma is_float_quarter : F64.is_float 0.25.
Proof.
  unfold F64.is_float.
  replace 0.25 with (IZR 1 * powerRZ 2 (-2)) by (simpl; lra).
  apply round_dyadic. lia.
Qed.

(** C4, as stated, fails: a duration of -1 s asks [linspace] for -44100
    samples, and the tone generator raises instead of returning an empty
    buffer. *)
Lemma negative_duration_raises :
  -1 <= 0 /\
  generate_sine_wave 440 (-1) 0.8 = Raise (NegativeSamples (-44100)).
Proof.
  split; [lra|].
  assert (Hc : sample_count (-1) = (-44100)%Z) by (apply (sample_count_int (-1)); lia).
  rewrite sine_raises; rewrite Hc; [reflexivity | lia].
Qed.

(** C4, amended.  A float duration in (-1/44100, 0] truncates to a count
    of zero samples, and the tone, binaural, isochronic, sweep and layered
    generators return an empty buffer without raising.  A duration of
    -1/44100 or below gives a negative count, which [linspace] rejects:
    every generator raises. *)
Theorem nonpositive_duration_contract (duration : R) :
  (F64.is_float duration -> -1 < IZR SAMPLE_RATE * duration <= 0 ->
     (forall f a, generate_sine_wave f duration a = Ok []) /\
     (forall f b a, generate_binaural_beat f b duration a = Ok []) /\
     (forall f p a, generate_isochronic_tone f p duration a = Ok []) /\
     (forall f g a, generate_frequency_sweep f g duration a = Ok []) /\
     (forall fs a, generate_layered_frequencies fs duration a = Ok [])) /\
  (IZR SAMPLE_RATE * duration <= -1 ->
     exists num, (num < 0)%Z /\
     (forall f a, generate_sine_wave f duration a = Raise (NegativeSamples num)) /\
     (forall f b a, generate_binaural_beat f b duration a = Raise (NegativeSamples num)) /\
     (forall f p a, generate_isochronic_tone f p duration a = Raise (NegativeSamples num)) /\
     (forall f g a, generate_frequency_sweep f g duration a = Raise (NegativeSamples num)) /\
     (forall fs a, generate_layered_frequencies fs duration a = Raise (NegativeSamples num)) /\
     (forall a, generate_om_tone duration a = Raise (NegativeSamples num))).
Proof.
  split.
  - intros Hf H. assert (Hc := sample_count_zero duration Hf H).
    assert (H0 : (0 <= sample_count duration)%Z) by lia.
    repeat split; intros.
    + rewrite sine_ok, Hc by exact H0. reflexivity.
    + rewrite binaural_ok, Hc by exact H0. reflexivity.
    + rewrite isochronic_ok, Hc by exact H0. reflexivity.
    + rewrite sweep_ok, Hc by exact H0. reflexivity.
    + rewrite layered_ok, Hc by exact H0. reflexivity.
  - intros H. assert (Hc := sample_count_negative duration H).
    exists (sample_count duration). split; [exact Hc|].
    repeat split; intros.
    + apply sine_raises, Hc.
    + apply binaural_raises, Hc.
    + apply isochronic_raises, Hc.
    + apply sweep_raises, Hc.
    + apply layered_raises, Hc.
    + apply om_raises_negative, Hc.
Qed.

Lemma nonpositive_duration_contract_witness :
  (F64.is_float 0 /\ -1 < IZR SAMPLE_RATE * 0 <= 0 /\ generate_sine_wave 440 0 0.8 = Ok []) /\
  (IZR SAMPLE_RATE * -1 <= -1 /\
   exists num, (num < 0)%Z /\ generate_om_tone (-1) 0.8 = Raise (NegativeSamples num)).
Proof.
  assert (Hf : F64.is_float 0) by apply round_0.
  assert (H0 : -1 < IZR SAMPLE_RATE * 0 <= 0) by lra.
  assert (H1 : IZR SAMPLE_RATE * -1 <= -1) by (unfold SAMPLE_RATE; lra).
  split.
  - split; [exact Hf|]. split; [exact H0|].
    apply (proj1 (nonpositive_duration_contract 0) Hf H0).
  - split; [exact H1|].
    destruct (proj2 (nonpositive_duration_contract (-1)) H1) as (num & Hn & _ & _ & _ & _ & _ & Hom).
    exists num. split; [exact Hn | apply Hom].
Defined.

(** ** Frequencies that are not positive *)

(** C8, as stated, fails: a frequency of 0 Hz is accepted and the tone
    generator returns one second of silence rather than an error. *)
Lemma zero_frequency_accepted :
  (0 : R) <= 0 /\
  generate_sine_wave 0 1 0.8 = Ok (repeat 0 (Z.to_nat 44100)).
Proof.
  split; [lra|].
  assert (Hc : sample_count 1 = 44100%Z) by (apply (sample_count_int 1); lia).
  rewrite sine_ok; rewrite Hc; [|lia].
  f_equal. rewrite repeat_tabulate. apply tabulate_ext. intros i _.
  replace (2 * PI * 0 * grid_time 1 (Z.to_nat 44100) i) with 0 by ring.
  rewrite sin_0. ring.
Qed.

(** C8, amended.  No generator looks at the sign of a frequency: for every
    duration >= 0 and every frequency, positive or not, each generator
    returns a buffer, all of one length.  The tone is
    [amplitude * sin(2 pi f t)] on the grid of the buffer, as for any
    other frequency, which at 0 Hz is silence. *)
Theorem frequency_not_validated (duration : R) :
  0 <= duration ->
  exists n : nat,
    (forall f a, exists w,
        generate_sine_wave f duration a = Ok w /\ length w = n /\
        (forall i, (i < length w)%nat ->
           nth i w 0 = a * sin (2 * PI * f * (INR i * (duration / INR (length w))))) /\
        (f = 0 -> forall i, (i < length w)%nat -> nth i w 0 = 0)) /\
    (forall f b a, exists w, generate_binaural_beat f b duration a = Ok w /\ length w = n) /\
    (forall f p a, exists w, generate_isochronic_tone f p duration a = Ok w /\ length w = n) /\
    (forall f g a, exists w, generate_frequency_sweep f g duration a = Ok w /\ length w = n) /\
    (forall fs a, exists w, generate_layered_frequencies fs duration a = Ok w /\ length w = n).
Proof.
  intros Hd.
  destruct (sample_count_of_duration duration Hd) as [H0 _].
  exists (Z.to_nat (sample_count duration)).
  split.
  { intros f a. eexists. split; [apply sine_ok, H0|].
    rewrite length_tabulate.
    split; [reflexivity|]. split.
    - intros i Hi. rewrite nth_tabulate by exact Hi. reflexivity.
    - intros -> i Hi. rewrite nth_tabulate by exact Hi.
      replace (2 * PI * 0 * grid_time duration (Z.to_nat (sample_count duration)) i)
        with 0 by ring.
      rewrite sin_0. ring. }
  split.
  { intros f b a. eexists. split; [apply binaural_ok, H0|].
    rewrite length_combine, !length_tabulate. apply Nat.min_id. }
  split.
  { intros f p a. eexists. split; [apply isochronic_ok, H0 | apply length_tabulate]. }
  split.
  { intros f g a. eexists. split; [apply sweep_ok, H0 | apply length_tabulate]. }
  intros fs a. eexists. split; [apply layered_ok, H0 | apply length_tabulate].
Qed.

Lemma frequency_not_validated_witness :
  0 <= 1 /\
  exists w, generate_sine_wave (-440) 1 0.8 = Ok w /\
            forall i, (i < length w)%nat ->
              nth i w 0 = 0.8 * sin (2 * PI * -440 * (INR i * (1 / INR (length w)))).
Proof.
  assert (H : 0 <= 1) by lra.
  split; [exact H|].
  destruct (frequency_not_validated 1 H) as (n & Hs & _).
  destruct (Hs (-440) 0.8) as (w & Hw & _ & Hf & _).
  exists w. split; assumption.
Defined.

(** ** The Om tone *)

(** C10. For every float duration strictly between 0 and 0.5 s the buffer
    has fewer samples than the fade window of 22050, and the Om generator
    does not return: assigning the ramp of 22050 samples to the shorter
    slice raises the shape-mismatch error. *)
Theorem om_short_duration_raises (duration amplitude : R) :
  F64.is_float duration ->
  0 < duration < 0.5 ->
  exists n : nat,
    Z.of_nat n = Zfloor (F64.mul (IZR SAMPLE_RATE) duration) /\
    Z.of_nat fade = 22050%Z /\
    (n < fade)%nat /\
    generate_om_tone duration amplitude = Raise (BroadcastError fade n).
Proof.
  intros Hf Hd.
  destruct (sample_count_of_duration duration) as [H0 Hn]; [lra|].
  destruct fade_facts as [HF _].
  assert (Hlt := sample_count_short duration Hf Hd).
  exists (Z.to_nat (sample_count duration)).
  split; [exact Hn|]. split; [exact HF|]. split; [lia|].
  apply om_raises_short. lia.
Qed.

Lemma om_short_duration_raises_witness :
  F64.is_float 0.25 /\ 0 < 0.25 < 0.5 /\
  exists n : nat,
    Z.of_nat n = Zfloor (F64.mul (IZR SAMPLE_RATE) 0.25) /\
    Z.of_nat fade = 22050%Z /\
    (n < fade)%nat /\
    generate_om_tone 0.25 0.8 = Raise (BroadcastError fade n).
Proof.
  assert (H : 0 < 0.25 < 0.5) by lra.
  split; [exact is_float_quarter|].
  split; [exact H | exact (om_short_duration_raises 0.25 0.8 is_float_quarter H)].
Defined.

(** C5, as stated for every duration, fails: at a quarter of a second the
    Om generator returns no buffer at all. *)
Lemma om_quarter_second_no_output :
  generate_om_tone 0.25 0.8 = Raise (BroadcastError fade (Z.to_nat 11025)) /\
  ~ exists wave, generate_om_tone 0.25 0.8 = Ok wave.
Proof.
  assert (Hc : sample_count 0.25 = 11025%Z)
    by (apply sample_count_IZR; [unfold SAMPLE_RATE; lra | lia]).
  assert (Hr : generate_om_tone 0.25 0.8 = Raise (BroadcastError fade (Z.to_nat 11025)))
    by (rewrite om_raises_short; rewrite Hc; [reflexivity | lia]).
  split; [exact Hr|].
  intros [wave Hw]. rewrite Hr in Hw. discriminate Hw.
Qed.

(** C5, amended.  For every duration of at least 0.5 s, and every
    amplitude, the Om generator returns a buffer of [n >= 22050] samples
    with
    [amplitude * (sin(2 pi 136.1 t) + 0.5 sin(2 pi 272.2 t)
                  + 0.25 sin(2 pi 408.3 t)) * envelope / 1.75]
    on its time grid.  The envelope rises linearly from 0 to 1 over the
    first 22050 samples and falls from 1 to 0 over the last 22050; where
    the two windows overlap (fewer than 44100 samples) the fade-out value
    is the one kept. *)
Theorem om_tone_formula (duration amplitude : R) :
  0.5 <= duration ->
  exists wave : list R,
    generate_om_tone duration amplitude = Ok wave /\
    (fade <= length wave)%nat /\
    forall i, (i < length wave)%nat ->
      let n := length wave in
      let t := INR i * (duration / INR n) in
      nth i wave 0
      = amplitude
        * (sin (2 * PI * 136.1 * t) + 0.5 * sin (2 * PI * 272.2 * t)
           + 0.25 * sin (2 * PI * 408.3 * t))
        * om_envelope n i / 1.75 /\
      ((i < fade)%nat -> (i < n - fade)%nat -> om_envelope n i = INR i / 22049) /\
      ((fade <= i)%nat -> (i < n - fade)%nat -> om_envelope n i = 1) /\
      ((n - fade <= i)%nat -> om_envelope n i = 1 - INR (i - (n - fade)) / 22049).
Proof.
  intros Hd.
  assert (Hge := sample_count_half duration Hd).
  destruct fade_facts as [HF _].
  eexists. split; [apply om_ok, Hge|].
  rewrite length_tabulate. split; [lia|].
  intros i Hi. cbv zeta. rewrite nth_tabulate by exact Hi.
  set (n := Z.to_nat (sample_count duration)) in *.
  split; [|split; [|split]].
  - unfold grid_time. set (t := INR i * (duration / INR n)).
    replace (2 * PI * 136.1 * 2 * t) with (2 * PI * 272.2 * t)
      by (replace 272.2 with (136.1 * 2) by lra; ring).
    replace (2 * PI * 136.1 * 3 * t) with (2 * PI * 408.3 * t)
      by (replace 408.3 with (136.1 * 3) by lra; ring).
    reflexivity.
  - intros H1 H2. unfold om_envelope.
    destruct (Nat.leb_spec (n - fade) i); [lia|].
    destruct (Nat.ltb_spec i fade); [reflexivity | lia].
  - intros H1 H2. unfold om_envelope.
    destruct (Nat.leb_spec (n - fade) i); [lia|].
    destruct (Nat.ltb_spec i fade); [lia | reflexivity].
  - intros H1. unfold om_envelope.
    destruct (Nat.leb_spec (n - fade) i); [reflexivity | lia].
Qed.

Lemma om_tone_formula_witness :
  0.5 <= 1 /\
  exists wave : list R,
    generate_om_tone 1 0.8 = Ok wave /\ (fade <= length wave)%nat.
Proof.
  assert (H : 0.5 <= 1) by lra.
  split; [exact H|].
  destruct (om_tone_formula 1 0.8 H) as (wave & Hw & Hl & _).
  exists wave. split; assumption.
Defined.

(** ** The frequency sweep *)



(** The sweep is not the shortcut [sin(2 pi f(t) t)] on the instantaneous
    frequency [f(t) = start + (end - start) t / duration]: from 0 Hz to
    2 Hz over one second, the sample at t = 0.5 s is [sin(pi/2) = 1],
    where the shortcut gives [sin(pi) = 0]. *)
Lemma sweep_differs_from_shortcut :
  exists wave,
    generate_frequency_sweep 0 2 1 1 = Ok wave /\
    nth fade wave 0 = 1 /\
    sin (2 * PI * (0 + (2 - 0) * (1 / 2) / 1) * (1 / 2)) = 0.
Proof.
  assert (Hc : sample_count 1 = 44100%Z) by (apply (sample_count_int 1); lia).
  eexists. split; [apply sweep_ok; rewrite Hc; lia|]. split.
  - rewrite Hc. rewrite nth_tabulate by (unfold fade; lia).
    unfold grid_time.
    assert (Hf : INR fade = 22050)
      by (rewrite INR_IZR_INZ; f_equal; apply fade_facts).
    assert (Hn : INR (Z.to_nat 44100) = 44100)
      by (rewrite INR_IZR_INZ, Z2Nat.id by lia; reflexivity).
    rewrite Hf, Hn.
    replace (2 * PI * (0 * (22050 * (1 / 44100))
                       + (2 - 0) * (22050 * (1 / 44100)) ^ 2 / (2 * 1)))
      with (PI / 2) by field.
    rewrite sin_PI2. ring.
  - replace (2 * PI * (0 + (2 - 0) * (1 / 2) / 1) * (1 / 2)) with PI by field.
    apply sin_PI.
Qed.

(** ** The layered mix *)










(** ** The isochronic tone *)

Lemma clip_unit x : 0 <= Np.clip x 0 1 <= 1.
Proof.
  unfold Np.clip. split.
  - apply Rmin_glb; [apply Rmax_r | lra].
  - apply Rmin_r.
Qed.

Lemma clip_unit_id x : 0 <= x <= 1 -> Np.clip x 0 1 = x.
Proof.
  intros [H0 H1]. unfold Np.clip.
  rewrite Rmax_left by exact H0. apply Rmin_left, H1.
Qed.





(** ** The sample encoder *)

Lemma wrap16_range z : (-32768 <= Np.wrap16 z <= 32767)%Z.
Proof.
  unfold Np.wrap16.
  assert (H := Z.mod_pos_bound (z + 32768) 65536 ltac:(lia)). lia.
Qed.

Lemma wrap16_congruent z : ((Np.wrap16 z - z) mod 65536 = 0)%Z.
Proof.
  unfold Np.wrap16.
  replace ((z + 32768) mod 65536 - 32768 - z)%Z
    with (- ((z + 32768) / 65536) * 65536)%Z
    by (rewrite (Z.mod_eq (z + 32768) 65536) by lia; ring).
  apply Z_mod_mult.
Qed.

Lemma wrap16_in_range z : (-32768 <= z <= 32767)%Z -> Np.wrap16 z = z.
Proof.
  intros H. unfold Np.wrap16. rewrite Z.mod_small by lia. lia.
Qed.

Lemma int_toward_zero x : toward_zero x (Np.int x).
Proof. apply int_bounds. Qed.

Lemma toward_zero_unique x q : toward_zero x q -> q = Np.int x.
Proof.
  intros [Hp Hn]. destruct (Rle_dec 0 x) as [H|H].
  - symmetry. apply int_eq_nonneg; [exact H | exact (Hp H)].
  - symmetry. apply int_eq_nonpos; [lra | apply Hn; lra].
Qed.

Lemma int_in_range x : -32767 <= x <= 32767 -> (-32767 <= Np.int x <= 32767)%Z.
Proof.
  intros [Hlo Hhi]. destruct (Rle_dec 0 x) as [H|H].
  - rewrite int_nonneg_floor by exact H. split.
    + assert (0 <= Zfloor x)%Z by (apply Zfloor_lub; simpl; exact H). lia.
    + apply le_IZR. destruct (Zfloor_bound x). lra.
  - rewrite int_neg_ceil by lra. split.
    + apply le_IZR. destruct (Zceil_bound x). lra.
    + assert (Zceil x <= 0)%Z.
      { rewrite <- (Zceil_eq 0 0) by (simpl; lra). apply Zceil_le. lra. }
      lia.
Qed.

(** The float64 product of a sample in [-1, 1] and 32767 stays within
    [-32767, 32767]. *)
Lemma scaled_sample_range s : -1 <= s <= 1 -> -32767 <= F64.mul s 32767 <= 32767.
Proof.
  intros [Hlo Hhi]. unfold F64.mul.
  assert (H1 := round_monotone (IZR (-32767)) (s * 32767) ltac:(lra)).
  assert (H2 := round_monotone (s * 32767) (IZR 32767) ltac:(lra)).
  rewrite round_IZR in H1, H2 by lia. lra.
Qed.

(** Rounding and then truncating moves a number by less than 1. *)
Lemma int_round_error_nonneg x :
  0 <= x <= 32767 -> Rabs (IZR (Np.int (F64.round x)) - x) < 1.
Proof.
  intros [Hlo Hhi].
  assert (H0 : 0 <= F64.round x) by (rewrite <- round_0; apply round_monotone, Hlo).
  assert (H1 := round_monotone x (IZR 32767) Hhi). rewrite round_IZR in H1 by lia.
  destruct (proj1 (int_bounds (F64.round x)) H0) as [Zlo Zhi].
  assert (Hr := int_in_range (F64.round x) ltac:(lra)).
  set (z := Np.int (F64.round x)) in *.
  assert (Hup : x < IZR z + 1).
  { apply Rnot_le_lt. intros Hge.
    assert (H := round_monotone _ _ Hge).
    rewrite <- plus_IZR, round_IZR in H by lia. rewrite plus_IZR in H. lra. }
  assert (Hdown : IZR z - 1 < x).
  { apply Rnot_le_lt. intros Hge.
    assert (H := round_monotone _ _ Hge).
    rewrite <- minus_IZR, round_IZR in H by lia. rewrite minus_IZR in H. lra. }
  apply Rabs_def1; lra.
Qed.

Lemma int_round_error x :
  -32767 <= x <= 32767 -> Rabs (IZR (Np.int (F64.round x)) - x) < 1.
Proof.
  intros [Hlo Hhi]. destruct (Rle_dec 0 x) as [H|H].
  - apply int_round_error_nonneg. lra.
  - assert (Hn := int_round_error_nonneg (- x) ltac:(lra)).
    rewrite round_opp, int_opp, opp_IZR in Hn.
    replace (- IZR (Np.int (F64.round x)) - - x)
      with (- (IZR (Np.int (F64.round x)) - x)) in Hn by ring.
    rewrite Rabs_Ropp in Hn. exact Hn.
Qed.

Lemma astype_encodes s : encodes s (Np.astype_int16 (F64.mul s 32767)).
Proof.
  exists (Np.int (F64.mul s 32767)). unfold Np.astype_int16.
  split; [apply int_toward_zero|].
  split; [apply wrap16_congruent | apply wrap16_range].
Qed.

Lemma Forall2_map_both {A B C : Type} (P : A -> C -> Prop) (f : A -> B) (g : B -> C) l :
  (forall x, P x (g (f x))) -> Forall2 P l (map g (map f l)).
Proof.
  intros H. induction l as [|x l IH]; simpl; constructor; [apply H | exact IH].
Qed.

(** The product [0.25 * 32767] is exact in float64. *)
Lemma quarter_scaled : F64.mul 0.25 32767 = 8191.75.
Proof.
  unfold F64.mul.
  replace (0.25 * 32767) with (IZR 32767 * powerRZ 2 (-2)) by (simpl; lra).
  rewrite round_dyadic by lia. simpl. lra.
Qed.

(** C1, as stated, fails: the sample 0.25 scales to 8191.75 and is
    written as 8191, which is not 8191.75 rounded. *)
Lemma quarter_sample_not_rounded :
  wav_data (save_wav (Mono [0.25]) false) = PcmMono [8191%Z] /\
  ~ nearest (0.25 * 32767) 8191.
Proof.
  split.
  - unfold save_wav. simpl. unfold Np.astype_int16.
    rewrite quarter_scaled, (int_eq_nonneg 8191) by lra. reflexivity.
  - unfold nearest. intros H.
    rewrite Rabs_left1 in H by lra. lra.
Qed.

(** C1, amended.  For every buffer, mono or stereo, and either value of
    the [stereo] flag, each float sample [s] is written as the float64
    product [s * 32767] truncated toward zero, as a 16-bit signed
    integer, without clamping: the integer is reduced modulo 2^16.  A
    sample in [-1, 1] is written as the truncation itself; one outside
    wraps, 2.0 being written as -2. *)
Theorem save_wav_truncates_and_wraps :
  (forall samples stereo, exists ints,
      wav_data (save_wav (Mono samples) stereo) = PcmMono ints /\
      Forall2 encodes samples ints) /\
  (forall frames stereo, exists ints,
      wav_data (save_wav (Stereo frames) stereo) = PcmStereo ints /\
      Forall2 (fun p q => encodes (fst p) (fst q) /\ encodes (snd p) (snd q)) frames ints) /\
  (forall s z, -1 <= s <= 1 -> encodes s z -> toward_zero (F64.mul s 32767) z) /\
  wav_data (save_wav (Mono [2]) false) = PcmMono [(-2)%Z].
Proof.
  split; [|split; [|split]].
  - intros samples stereo. eexists. split.
    + destruct stereo; reflexivity.
    + apply Forall2_map_both. intros s. apply astype_encodes.
  - intros frames stereo. eexists. split.
    + destruct stereo; reflexivity.
    + apply Forall2_map_both. intros p. split; apply astype_encodes.
  - intros s z Hs (q & Hq & Hmod & Hz).
    assert (Hr : (-32767 <= q <= 32767)%Z).
    { rewrite (toward_zero_unique _ _ Hq). apply int_in_range, scaled_sample_range, Hs. }
    assert (z = q) as ->; [|exact Hq].
    apply Z.mod_divide in Hmod; [|lia]. destruct Hmod as [k Hk]. lia.
  - unfold save_wav. simpl. unfold Np.astype_int16, F64.mul.
    replace (2 * 32767) with (IZR 65534) by lra.
    rewrite round_IZR by lia. rewrite int_IZR. reflexivity.
Qed.

Lemma save_wav_truncates_and_wraps_witness :
  -1 <= 0.25 <= 1 /\ encodes 0.25 8191 /\ toward_zero (F64.mul 0.25 32767) 8191.
Proof.
  assert (Hs : -1 <= 0.25 <= 1) by lra.
  assert (He : encodes 0.25 8191).
  { exists 8191%Z. split; [|split; [reflexivity | lia]].
    rewrite quarter_scaled. split; intros; lra. }
  split; [exact Hs|]. split; [exact He|].
  destruct save_wav_truncates_and_wraps as (_ & _ & H & _).
  exact (H 0.25 8191%Z Hs He).
Defined.

(** C9. For every buffer of samples in [-1, 1], writing a sample and
    reading it back (dividing by 32767) gives the sample to within one
    step of the 16-bit scale: [|decode(encode(s)) - s| <= 1/32767]. *)
Theorem roundtrip_within_one_lsb (samples : list R) (stereo : bool) :
  Forall (fun s => -1 <= s <= 1) samples ->
  exists ints,
    wav_data (save_wav (Mono samples) stereo) = PcmMono ints /\
    Forall2 (fun s z => Rabs (decode z - s) <= 1 / 32767) samples ints.
Proof.
  intros Hall. eexists. split; [destruct stereo; reflexivity|].
  induction Hall as [|s l Hs _ IH]; simpl; constructor; [|exact IH].
  unfold Np.astype_int16, decode.
  rewrite wrap16_in_range
    by (assert (H := int_in_range _ (scaled_sample_range s Hs)); lia).
  assert (He := int_round_error (s * 32767) ltac:(lra)).
  fold (F64.mul s 32767) in He.
  replace (IZR (Np.int (F64.mul s 32767)) / 32767 - s)
    with ((IZR (Np.int (F64.mul s 32767)) - s * 32767) * / 32767) by field.
  rewrite Rabs_mult, (Rabs_right (/ 32767)) by lra.
  lra.
Qed.

Lemma roundtrip_within_one_lsb_witness :
  Forall (fun s => -1 <= s <= 1) [0.25; -1; 1] /\
  exists ints,
    wav_data (save_wav (Mono [0.25; -1; 1]) false) = PcmMono ints /\
    Forall2 (fun s z => Rabs (decode z - s) <= 1 / 32767) [0.25; -1; 1] ints.
Proof.
  assert (H : Forall (fun s => -1 <= s <= 1) [0.25; -1; 1])
    by (repeat constructor; lra).
  split; [exact H | exact (roundtrip_within_one_lsb [0.25; -1; 1] false H)].
Defined.

(** * Further properties of the generators *)

(** ** How the generators relate to the plain tone *)

(** X1. The binaural beat is two plain tones side by side: the left column
    is the tone at [base_freq], the right column the tone at
    [base_freq + beat_freq], on the same grid, and it raises exactly when
    they do. *)
Theorem binaural_pairs_two_tones (base_freq beat_freq duration amplitude : R) :
  generate_binaural_beat base_freq beat_freq duration amplitude
  = (left_channel <- generate_sine_wave base_freq duration amplitude ;;
     right_channel <- generate_sine_wave (base_freq + beat_freq) duration amplitude ;;
     ret (combine left_channel right_channel)).
Proof.
  destruct (Z_lt_le_dec (sample_count duration) 0) as [Hneg|H0].
  - rewrite binaural_raises, sine_raises by exact Hneg. reflexivity.
  - rewrite binaural_ok, !sine_ok by exact H0. reflexivity.
Qed.

(** X2. A negative frequency is the same tone with the sign flipped:
    the tone at [-f] with amplitude [a] is the tone at [f] with
    amplitude [-a]. *)
Theorem sine_negative_frequency (frequency duration amplitude : R) :
  generate_sine_wave (- frequency) duration amplitude
  = generate_sine_wave frequency duration (- amplitude).
Proof.
  destruct (Z_lt_le_dec (sample_count duration) 0) as [Hneg|H0].
  - rewrite !sine_raises by exact Hneg. reflexivity.
  - rewrite !sine_ok by exact H0. f_equal. apply tabulate_ext. intros i _.
    replace (2 * PI * - frequency * grid_time duration (Z.to_nat (sample_count duration)) i)
      with (- (2 * PI * frequency * grid_time duration (Z.to_nat (sample_count duration)) i))
      by ring.
    rewrite sin_neg. ring.
Qed.

(** The pulsing envelope lies in [0, 1] before it is clipped. *)
Lemma raised_sine_unit x : 0 <= 0.5 * (1 + sin x) <= 1.
Proof. destruct (SIN_bound x). lra. Qed.

(** X5. The clip of the isochronic envelope never changes a sample: the
    generator computes what it would compute with the [np.clip] line
    removed. *)
Theorem isochronic_clip_changes_nothing (frequency pulse_freq duration amplitude : R) :
  generate_isochronic_tone frequency pulse_freq duration amplitude
  = (t <- Np.linspace 0 duration (Np.int (F64.mul (IZR SAMPLE_RATE) duration)) false ;;
     let carrier := map (fun ti => sin (2 * PI * frequency * ti)) t in
     let envelope := map (fun ti => 0.5 * (1 + sin (2 * PI * pulse_freq * ti))) t in
     ret (Np.zip_with (fun c e => amplitude * c * e) carrier envelope)).
Proof.
  destruct (Z_lt_le_dec (sample_count duration) 0) as [Hneg|H0].
  - rewrite isochronic_raises by exact Hneg. grid_raises Hneg. reflexivity.
  - rewrite isochronic_ok by exact H0. grid_ok H0. cbv zeta.
    rewrite !map_tabulate, zip_with_tabulate. apply (f_equal Ok).
    apply tabulate_ext. intros i _. f_equal.
    apply clip_unit_id, raised_sine_unit.
Qed.

(** ** Bounds on the samples *)

Lemma Forall_tabulate (P : R -> Prop) g n :
  (forall i, (i < n)%nat -> P (g i)) -> Forall P (tabulate g n).
Proof.
  intros H. unfold tabulate. apply Forall_forall. intros x Hx.
  apply in_map_iff in Hx. destruct Hx as (i & <- & Hi).
  apply in_seq in Hi. apply H. lia.
Qed.

Lemma scaled_sine_bound a x : Rabs (a * sin x) <= Rabs a.
Proof.
  rewrite Rabs_mult.
  assert (Rabs (sin x) <= 1) by (apply Rabs_le, SIN_bound).
  assert (H0 := Rabs_pos a). assert (H1 := Rabs_pos (sin x)). nra.
Qed.

Lemma sine_within frequency duration amplitude wave :
  generate_sine_wave frequency duration amplitude = Ok wave ->
  Forall (fun s => Rabs s <= Rabs amplitude) wave.
Proof.
  intros Hw. destruct (Z_lt_le_dec (sample_count duration) 0) as [Hneg|H0].
  { rewrite sine_raises in Hw by exact Hneg. discriminate Hw. }
  rewrite sine_ok in Hw by exact H0. injection Hw as <-.
  apply Forall_tabulate. intros i _. apply scaled_sine_bound.
Qed.

Lemma sweep_within start_freq end_freq duration amplitude wave :
  generate_frequency_sweep start_freq end_freq duration amplitude = Ok wave ->
  Forall (fun s => Rabs s <= Rabs amplitude) wave.
Proof.
  intros Hw. destruct (Z_lt_le_dec (sample_count duration) 0) as [Hneg|H0].
  { rewrite sweep_raises in Hw by exact Hneg. discriminate Hw. }
  rewrite sweep_ok in Hw by exact H0. injection Hw as <-.
  apply Forall_tabulate. intros i _. apply scaled_sine_bound.
Qed.

Lemma isochronic_within frequency pulse_freq duration amplitude wave :
  generate_isochronic_tone frequency pulse_freq duration amplitude = Ok wave ->
  Forall (fun s => Rabs s <= Rabs amplitude) wave.
Proof.
  intros Hw. destruct (Z_lt_le_dec (sample_count duration) 0) as [Hneg|H0].
  { rewrite isochronic_raises in Hw by exact Hneg. discriminate Hw. }
  rewrite isochronic_ok in Hw by exact H0. injection Hw as <-.
  apply Forall_tabulate. intros i _.
  match goal with |- Rabs (_ * sin ?x * Np.clip ?e 0 1) <= _ =>
    assert (He := clip_unit e); assert (Hs := scaled_sine_bound amplitude x);
    set (c := Np.clip e 0 1) in *; set (s := amplitude * sin x) in *
  end.
  rewrite Rabs_mult, (Rabs_right c) by lra.
  assert (H1 := Rabs_pos s). nra.
Qed.

Lemma combine_tabulate (g h : nat -> R) n :
  combine (tabulate g n) (tabulate h n) = map (fun i => (g i, h i)) (seq 0 n).
Proof.
  unfold tabulate. induction (seq 0 n) as [|x l IH]; simpl; [reflexivity|].
  f_equal. exact IH.
Qed.

(** X6. The tone, both channels of the binaural beat and the sweep stay
    within the amplitude: no sample exceeds [|amplitude|] in absolute
    value, whatever the frequencies and the duration. *)
Theorem tones_within_amplitude (duration amplitude : R) :
  (forall f wave,
      generate_sine_wave f duration amplitude = Ok wave ->
      Forall (fun s => Rabs s <= Rabs amplitude) wave) /\
  (forall f b stereo,
      generate_binaural_beat f b duration amplitude = Ok stereo ->
      Forall (fun p => Rabs (fst p) <= Rabs amplitude /\ Rabs (snd p) <= Rabs amplitude)
             stereo) /\
  (forall f g wave,
      generate_frequency_sweep f g duration amplitude = Ok wave ->
      Forall (fun s => Rabs s <= Rabs amplitude) wave).
Proof.
  split; [|split].
  - intros f wave. apply sine_within.
  - intros f b stereo Hw.
    destruct (Z_lt_le_dec (sample_count duration) 0) as [Hneg|H0].
    { rewrite binaural_raises in Hw by exact Hneg. discriminate Hw. }
    rewrite binaural_ok in Hw by exact H0. injection Hw as <-.
    apply Forall_forall. intros [l r] Hin.
    rewrite combine_tabulate, in_map_iff in Hin.
    destruct Hin as (i & Heq & _). injection Heq as <- <-.
    split; apply scaled_sine_bound.
  - intros f g wave. apply sweep_within.
Qed.

Lemma tones_within_amplitude_witness :
  exists wave,
    generate_sine_wave 528 1 0.8 = Ok wave /\
    Forall (fun s => Rabs s <= Rabs 0.8) wave.
Proof.
  assert (H0 : (0 <= sample_count 1)%Z) by (apply sample_count_nonneg; lra).
  eexists. split; [apply sine_ok, H0|].
  apply (proj1 (tones_within_amplitude 1 0.8) 528). apply sine_ok, H0.
Defined.

Lemma om_envelope_unit n i :
  (fade <= n)%nat -> (i < n)%nat -> 0 <= om_envelope n i <= 1.
Proof.
  intros Hn Hi. destruct fade_facts as [HF HF1]. unfold om_envelope.
  destruct (Nat.leb_spec (n - fade) i) as [Hge|Hlt].
  - assert (H0 := pos_INR (i - (n - fade))).
    assert (H1 : INR (i - (n - fade)) <= INR (fade - 1)) by (apply le_INR; lia).
    rewrite HF1 in H1. lra.
  - destruct (Nat.ltb_spec i fade) as [Hif|Hif]; [|lra].
    assert (H0 := pos_INR i).
    assert (H1 : INR i <= INR (fade - 1)) by (apply le_INR; lia).
    rewrite HF1 in H1. lra.
Qed.

Lemma om_within duration amplitude wave :
  generate_om_tone duration amplitude = Ok wave ->
  Forall (fun s => Rabs s <= Rabs amplitude) wave.
Proof.
  intros Hw. destruct fade_facts as [HF _].
  destruct (Z_lt_le_dec (sample_count duration) 0) as [Hneg|H0].
  { rewrite om_raises_negative in Hw by exact Hneg. discriminate Hw. }
  destruct (Z_lt_le_dec (sample_count duration) 22050) as [Hs|Hs].
  { rewrite om_raises_short in Hw by lia. discriminate Hw. }
  rewrite om_ok in Hw by exact Hs. injection Hw as <-.
  apply Forall_tabulate. intros i Hi.
  assert (He := om_envelope_unit (Z.to_nat (sample_count duration)) i ltac:(lia) Hi).
  set (e := om_envelope _ i) in *.
  match goal with |- Rabs (_ * (sin ?x + 0.5 * sin ?y + 0.25 * sin ?z) * _ / _) <= _ =>
    assert (Hx := SIN_bound x); assert (Hy := SIN_bound y); assert (Hz := SIN_bound z);
    set (h := sin x + 0.5 * sin y + 0.25 * sin z) in *
  end.
  assert (Hh : Rabs h <= 1.75) by (apply Rabs_le; unfold h; lra).
  replace (amplitude * h * e / 1.75) with (amplitude * (h * e / 1.75)) by (unfold Rdiv; ring).
  rewrite Rabs_mult.
  assert (Hq : Rabs (h * e / 1.75) <= 1).
  { unfold Rdiv. rewrite !Rabs_mult, (Rabs_right e), (Rabs_right (/ 1.75)) by lra.
    assert (Hh0 := Rabs_pos h). nra. }
  assert (Ha := Rabs_pos amplitude). assert (Hq0 := Rabs_pos (h * e / 1.75)). nra.
Qed.

(** X7. For every duration of at least 0.5 s the Om tone starts and ends
    on a zero sample, and no sample exceeds [|amplitude|] in absolute
    value. *)
Theorem om_tone_bounded_silent_ends (duration amplitude : R) :
  0.5 <= duration ->
  exists wave,
    generate_om_tone duration amplitude = Ok wave /\
    (0 < length wave)%nat /\
    nth 0 wave 0 = 0 /\
    nth (length wave - 1) wave 0 = 0 /\
    Forall (fun s => Rabs s <= Rabs amplitude) wave.
Proof.
  intros Hd. destruct fade_facts as [HF HF1].
  assert (Hge := sample_count_half duration Hd).
  eexists. split; [apply om_ok, Hge|].
  rewrite length_tabulate.
  split; [lia|]. split; [|split].
  - rewrite nth_tabulate by lia. unfold grid_time. simpl INR.
    rewrite !Rmult_0_l, !Rmult_0_r, sin_0. unfold Rdiv. ring.
  - rewrite nth_tabulate by lia. unfold om_envelope.
    destruct (Nat.leb_spec (Z.to_nat (sample_count duration) - fade)
                (Z.to_nat (sample_count duration) - 1)) as [_|H]; [|lia].
    replace (Z.to_nat (sample_count duration) - 1
             - (Z.to_nat (sample_count duration) - fade))%nat with (fade - 1)%nat by lia.
    rewrite HF1. unfold Rdiv. rewrite Rinv_r by lra. ring.
  - apply om_within with (duration := duration). apply om_ok, Hge.
Qed.

Lemma om_tone_bounded_silent_ends_witness :
  0.5 <= 1 /\
  exists wave,
    generate_om_tone 1 0.8 = Ok wave /\
    (0 < length wave)%nat /\
    nth 0 wave 0 = 0 /\
    nth (length wave - 1) wave 0 = 0 /\
    Forall (fun s => Rabs s <= Rabs 0.8) wave.
Proof.
  assert (H : 0.5 <= 1) by lra.
  split; [exact H | exact (om_tone_bounded_silent_ends 1 0.8 H)].
Defined.

(** ** Further properties of the sample encoder *)

(** On samples in [-1, 1] the cast is the integer part, with no wrap. *)
Lemma astype_unit s :
  -1 <= s <= 1 ->
  Np.astype_int16 (F64.mul s 32767) = Np.int (F64.mul s 32767) /\
  (-32767 <= Np.int (F64.mul s 32767) <= 32767)%Z.
Proof.
  intros Hs. assert (Hr := int_in_range _ (scaled_sample_range s Hs)).
  split; [|exact Hr]. unfold Np.astype_int16. apply wrap16_in_range. lia.
Qed.

Lemma save_wav_mono samples stereo :
  wav_data (save_wav (Mono samples) stereo)
  = PcmMono (map (fun s => Np.astype_int16 (F64.mul s 32767)) samples).
Proof. destruct stereo; simpl; rewrite map_map; reflexivity. Qed.

(** X8. The encoder is symmetric on [-1, 1]: negating every sample of a
    buffer negates every integer written.  (Truncation is toward zero, so
    the two signs round alike.) *)
Theorem save_wav_negation (samples : list R) (stereo : bool) :
  Forall (fun s => -1 <= s <= 1) samples ->
  exists ints,
    wav_data (save_wav (Mono samples) stereo) = PcmMono ints /\
    wav_data (save_wav (Mono (map Ropp samples)) stereo) = PcmMono (map Z.opp ints).
Proof.
  intros Hall. eexists. split; [apply save_wav_mono|].
  rewrite save_wav_mono, !map_map. f_equal.
  apply map_ext_in. intros s Hs.
  assert (Hr : -1 <= s <= 1) by (exact (proj1 (Forall_forall _ _) Hall s Hs)).
  destruct (astype_unit s Hr) as [-> _].
  destruct (astype_unit (- s) ltac:(lra)) as [-> _].
  unfold F64.mul.
  replace (- s * 32767) with (- (s * 32767)) by ring.
  rewrite round_opp. apply int_opp.
Qed.

Lemma save_wav_negation_witness :
  Forall (fun s => -1 <= s <= 1) [0.25; -0.8] /\
  exists ints,
    wav_data (save_wav (Mono [0.25; -0.8]) false) = PcmMono ints /\
    wav_data (save_wav (Mono (map Ropp [0.25; -0.8])) false) = PcmMono (map Z.opp ints).
Proof.
  assert (H : Forall (fun s => -1 <= s <= 1) [0.25; -0.8])
    by (repeat constructor; lra).
  split; [exact H | exact (save_wav_negation [0.25; -0.8] false H)].
Defined.

(** X9. The encoder preserves order on [-1, 1]: of two samples the
    larger one is never written as the smaller integer. *)
Theorem save_wav_monotone (s1 s2 : R) (stereo : bool) :
  -1 <= s1 -> s1 <= s2 -> s2 <= 1 ->
  exists z1 z2,
    wav_data (save_wav (Mono [s1; s2]) stereo) = PcmMono [z1; z2] /\ (z1 <= z2)%Z.
Proof.
  intros H1 H12 H2.
  exists (Np.astype_int16 (F64.mul s1 32767)), (Np.astype_int16 (F64.mul s2 32767)).
  split; [apply save_wav_mono|].
  destruct (astype_unit s1 ltac:(lra)) as [-> _].
  destruct (astype_unit s2 ltac:(lra)) as [-> _].
  apply int_monotone, round_monotone. lra.
Qed.

Lemma save_wav_monotone_witness :
  -1 <= -0.5 /\ -0.5 <= 0.25 /\ 0.25 <= 1 /\
  exists z1 z2,
    wav_data (save_wav (Mono [-0.5; 0.25]) false) = PcmMono [z1; z2] /\ (z1 <= z2)%Z.
Proof.
  assert (H1 : -1 <= -0.5) by lra.
  assert (H12 : -0.5 <= 0.25) by lra.
  assert (H2 : 0.25 <= 1) by lra.
  repeat (split; [assumption|]).
  exact (save_wav_monotone (-0.5) 0.25 false H1 H12 H2).
Defined.

(** The float just below 1 is its own rounding. *)
Lemma round_below_one : F64.round (1 - powerRZ 2 (-53)) = 1 - powerRZ 2 (-53).
Proof.
  replace (1 - powerRZ 2 (-53)) with (IZR (2 ^ 53 - 1) * powerRZ 2 (-53)).
  - apply round_dyadic. lia.
  - rewrite minus_IZR, <- (pow2_IZR 53) by lia.
    rewrite Rmult_minus_distr_r, <- pow2_add. simpl. lra.
Qed.

(** X10. The encoder has a dead zone around zero.  A sample whose product
    with 32767 is at most [1 - 2^-53] in magnitude, the float just below
    1, is written as 0; and a sample in [-1, 1] that is written as 0 has
    a magnitude below one step, [|s| < 1/32767].  (Between the two the
    float64 product can round up to 1.) *)
Theorem save_wav_dead_zone (s : R) (stereo : bool) :
  -1 <= s <= 1 ->
  (Rabs (s * 32767) <= 1 - powerRZ 2 (-53) ->
   wav_data (save_wav (Mono [s]) stereo) = PcmMono [0%Z]) /\
  (wav_data (save_wav (Mono [s]) stereo) = PcmMono [0%Z] -> Rabs s < 1 / 32767).
Proof.
  intros Hs. rewrite save_wav_mono. simpl map.
  destruct (astype_unit s Hs) as [-> _].
  assert (Hp := pow2_pos (-53)).
  split.
  - intros H. f_equal. f_equal.
    assert (Hr := round_monotone _ _ H).
    rewrite round_abs, round_below_one in Hr. fold (F64.mul s 32767) in Hr.
    assert (Hx : Rabs (F64.mul s 32767) < 1) by lra.
    apply Rabs_def2 in Hx. destruct Hx as [Hhi Hlo].
    destruct (Rle_dec 0 (F64.mul s 32767)) as [H0|H0].
    + apply int_eq_nonneg; [exact H0 | simpl; lra].
    + apply int_eq_nonpos; [lra | simpl; lra].
  - intros H. injection H as H.
    assert (He := int_abs_error (F64.mul s 32767)). rewrite H in He.
    replace (0 - F64.mul s 32767) with (- F64.mul s 32767) in He by ring.
    rewrite Rabs_Ropp in He.
    assert (Hx : Rabs (s * 32767) < 1).
    { apply Rnot_le_lt. intros Hge.
      assert (Hr := round_monotone _ _ Hge).
      rewrite (round_IZR 1), round_abs in Hr by lia.
      fold (F64.mul s 32767) in Hr. lra. }
    rewrite Rabs_mult, (Rabs_right 32767) in Hx by lra. lra.
Qed.

Lemma save_wav_dead_zone_witness :
  -1 <= -0.00002 <= 1 /\ Rabs (-0.00002 * 32767) <= 1 - powerRZ 2 (-53) /\
  wav_data (save_wav (Mono [-0.00002]) false) = PcmMono [0%Z].
Proof.
  assert (H : -1 <= -0.00002 <= 1) by lra.
  assert (Hz : Rabs (-0.00002 * 32767) <= 1 - powerRZ 2 (-53)).
  { rewrite Rabs_left1 by lra.
    assert (H53 : powerRZ 2 (-53) <= / 4).
    { assert (Hle := pow2_le (-53) (-2) ltac:(lia)).
      assert (H1 : powerRZ 2 (-2) = / 4) by (simpl; lra).
      lra. }
    set (u := powerRZ 2 (-53)) in *. lra. }
  split; [exact H|]. split; [exact Hz|].
  exact (proj1 (save_wav_dead_zone (-0.00002) false H) Hz).
Defined.

(** X11. A stereo buffer is encoded channel by channel: the file of two
    columns holds, side by side, exactly the integers the two columns
    give when each is saved as a mono buffer. *)
Theorem save_wav_stereo_channelwise (left_channel right_channel : list R) (stereo : bool) :
  exists left_ints right_ints,
    wav_data (save_wav (Mono left_channel) stereo) = PcmMono left_ints /\
    wav_data (save_wav (Mono right_channel) stereo) = PcmMono right_ints /\
    wav_data (save_wav (Stereo (combine left_channel right_channel)) stereo)
    = PcmStereo (combine left_ints right_ints).
Proof.
  do 2 eexists. split; [apply save_wav_mono|]. split; [apply save_wav_mono|].
  destruct stereo; simpl; f_equal; rewrite map_map;
    revert right_channel;
    induction left_channel as [|l ls IH]; intros [|r rs]; simpl;
      try reflexivity; f_equal; apply IH.
Qed.

(** X12. A buffer from the tone, isochronic, sweep or Om generator, made
    with an amplitude of magnitude at most 1, is written without
    wrap-around: every integer of the file lies in [-32767, 32767]. *)
Theorem generated_buffers_never_wrap (amplitude : R) (wave : list R) (stereo : bool) :
  Rabs amplitude <= 1 ->
  (exists f d, generate_sine_wave f d amplitude = Ok wave) \/
  (exists f p d, generate_isochronic_tone f p d amplitude = Ok wave) \/
  (exists f g d, generate_frequency_sweep f g d amplitude = Ok wave) \/
  (exists d, generate_om_tone d amplitude = Ok wave) ->
  exists ints,
    wav_data (save_wav (Mono wave) stereo) = PcmMono ints /\
    length ints = length wave /\
    Forall (fun z => (-32767 <= z <= 32767)%Z) ints.
Proof.
  intros Ha Hsrc.
  assert (Hb : Forall (fun s => Rabs s <= Rabs amplitude) wave).
  { destruct Hsrc as [(f & d & H)|[(f & p & d & H)|[(f & g & d & H)|(d & H)]]].
    - exact (sine_within _ _ _ _ H).
    - exact (isochronic_within _ _ _ _ _ H).
    - exact (sweep_within _ _ _ _ _ H).
    - exact (om_within _ _ _ H). }
  eexists. split; [apply save_wav_mono|].
  split; [apply length_map|].
  clear Hsrc. induction Hb as [|s l Hs _ IH]; simpl; constructor; [|exact IH].
  assert (Hr : -1 <= s <= 1).
  { assert (H1 : Rabs s <= 1) by lra.
    unfold Rabs in H1. destruct (Rcase_abs s); lra. }
  destruct (astype_unit s Hr) as [-> Hz]. exact Hz.
Qed.

Lemma generated_buffers_never_wrap_witness :
  Rabs 0.8 <= 1 /\
  exists wave ints,
    generate_sine_wave 528 1 0.8 = Ok wave /\
    wav_data (save_wav (Mono wave) false) = PcmMono ints /\
    Forall (fun z => (-32767 <= z <= 32767)%Z) ints.
Proof.
  assert (Ha : Rabs 0.8 <= 1) by (rewrite Rabs_right by lra; lra).
  assert (H0 : (0 <= sample_count 1)%Z) by (apply sample_count_nonneg; lra).
  split; [exact Ha|].
  eexists.
  destruct (generated_buffers_never_wrap 0.8 _ false Ha
              (or_introl (ex_intro _ 528 (ex_intro _ 1 (sine_ok 1 528 0.8 H0)))))
    as (ints & Hi & _ & Hall).
  exists ints. split; [apply sine_ok, H0|]. split; assumption.
Defined.

(** * The preset generators and the command line *)

(** ** Steps of file-writing code *)

Lemma bind_lift_ok {A B : Type} (r : result A) (a : A) (k : A -> io B) w :
  r = Ok a -> bind (lift r) k w = k a w.
Proof. intros ->. reflexivity. Qed.

Lemma bind_lift_raise {A B : Type} (r : result A) (e : exn) (k : A -> io B) w :
  r = Raise e -> bind (lift r) k w = (w, inl (NumpyError e)).
Proof. intros ->. reflexivity. Qed.

Lemma bind_io_ok {A B : Type} (m : io A) (k : A -> io B) w w' a :
  m w = (w', inr a) -> bind m k w = k a w'.
Proof. intros H. simpl. rewrite H. reflexivity. Qed.

Lemma bind_io_raise {A B : Type} (m : io A) (k : A -> io B) w w' e :
  m w = (w', inl e) -> bind m k w = (w', inl e).
Proof. intros H. simpl. rewrite H. reflexivity. Qed.

Lemma bind_ret_io {A B : Type} (a : A) (k : A -> io B) w : bind (ret a) k w = k a w.
Proof. reflexivity. Qed.

(** ** Paths *)

Lemma parent_path_div p name : parent (path_div p name) = p.
Proof. apply removelast_last. Qed.

Lemma ancestors_self p : In p (ancestors p).
Proof.
  unfold ancestors. apply in_map_iff. exists (length p).
  split; [apply firstn_all | apply in_seq; lia].
Qed.

Lemma ancestors_parent p name : In p (ancestors (path_div p name)).
Proof.
  unfold ancestors, path_div. apply in_map_iff. exists (length p).
  split.
  - rewrite firstn_app, firstn_all, Nat.sub_diag. simpl. apply app_nil_r.
  - apply in_seq. rewrite length_app. simpl. lia.
Qed.

Lemma length_path_div (p : path) name : length (path_div p name) = S (length p).
Proof. unfold path_div. rewrite length_app. simpl. lia. Qed.

Lemma ancestors_length (p q : path) : In q (ancestors p) -> (length q <= length p)%nat.
Proof.
  unfold ancestors. intros H. apply in_map_iff in H. destruct H as (n & <- & _).
  rewrite length_firstn. lia.
Qed.

Lemma path_div_not_ancestor p name : ~ In (path_div p name) (ancestors p).
Proof.
  intros H. apply ancestors_length in H. rewrite length_path_div in H. lia.
Qed.

Lemma ancestors_path_div p name :
  ancestors (path_div p name) = ancestors p ++ [path_div p name].
Proof.
  unfold ancestors. rewrite length_path_div, (seq_S (S (length p))), map_app.
  cbn [map Nat.add]. apply f_equal2.
  - apply map_ext_in. intros n Hn. apply in_seq in Hn.
    unfold path_div. rewrite firstn_app.
    replace (n - length p)%nat with 0%nat by lia. cbn [firstn]. apply app_nil_r.
  - rewrite <- (length_path_div p name), firstn_all. reflexivity.
Qed.

(** ** The file system *)

Lemma is_dir_in w p : In p (dirs w) -> is_dir w p = true.
Proof.
  intros H. unfold is_dir.
  destruct (in_dec path_eq_dec p (dirs w)); [reflexivity | contradiction].
Qed.

Lemma is_dir_out w p : ~ In p (dirs w) -> is_dir w p = false.
Proof.
  intros H. unfold is_dir.
  destruct (in_dec path_eq_dec p (dirs w)); [contradiction | reflexivity].
Qed.

Lemma is_file_out w p : ~ In p (map fst (files w)) -> is_file w p = false.
Proof.
  intros H. unfold is_file.
  destruct (in_dec path_eq_dec p (map fst (files w))); [contradiction | reflexivity].
Qed.

Lemma is_refused_out w p : ~ In p (refused w) -> is_refused w p = false.
Proof.
  intros H. unfold is_refused.
  destruct (in_dec path_eq_dec p (refused w)); [contradiction | reflexivity].
Qed.

Lemma no_file_among w l :
  (forall q, In q l -> ~ In q (map fst (files w))) -> existsb (is_file w) l = false.
Proof.
  induction l as [|q l IH]; intros H; [reflexivity|]. cbn [existsb].
  rewrite is_file_out by (apply H; left; reflexivity).
  apply IH. intros q' Hq. apply H. right. exact Hq.
Qed.

Lemma first_refused_none w l :
  (forall q, In q l -> In q (dirs w) \/ ~ In q (refused w)) -> first_refused w l = None.
Proof.
  induction l as [|q l IH]; intros H; [reflexivity|]. cbn [first_refused].
  rewrite IH by (intros q' Hq; apply H; right; exact Hq).
  destruct (H q (or_introl eq_refl)) as [Hd|Hr].
  - rewrite (is_dir_in _ _ Hd). reflexivity.
  - rewrite (is_refused_out _ _ Hr), andb_false_r. reflexivity.
Qed.

Lemma add_files_nil w : add_files [] w = w.
Proof. destruct w; reflexivity. Qed.

Lemma add_files_app a b w : add_files a (add_files b w) = add_files (a ++ b) w.
Proof. unfold add_files. cbn [dirs files refused]. rewrite app_assoc. reflexivity. Qed.

(** [mkdir] where nothing stands in the way. *)
Lemma mkdir_ok p w :
  (forall q, In q (ancestors p) ->
     ~ In q (map fst (files w)) /\ (In q (dirs w) \/ ~ In q (refused w))) ->
  mkdir p w = (add_dirs (ancestors p) w, inr tt).
Proof.
  intros H. unfold mkdir.
  rewrite is_file_out by (apply H, ancestors_self).
  rewrite no_file_among by (intros q Hq; apply H, Hq).
  rewrite first_refused_none by (intros q Hq; apply H, Hq).
  reflexivity.
Qed.

(** [mkdir] either raises, or creates the directory and its ancestors; it
    touches no file. *)
Lemma mkdir_cases p w :
  (exists w' e, mkdir p w = (w', inl e) /\ files w' = files w) \/
  mkdir p w = (add_dirs (ancestors p) w, inr tt).
Proof.
  unfold mkdir.
  destruct (is_file w p); [left; do 2 eexists; split; reflexivity|].
  destruct (existsb (is_file w) (ancestors p)); [left; do 2 eexists; split; reflexivity|].
  destruct (first_refused w (ancestors p)) as [[made q]|].
  - left. do 2 eexists. split; reflexivity.
  - right. reflexivity.
Qed.

Lemma bind_mkdir {B : Type} p (k : unit -> io B) w :
  accepts w p -> bind (mkdir p) k w = k tt (add_dirs (ancestors p) w).
Proof. intros [H _]. apply bind_io_ok, mkdir_ok, H. Qed.

Lemma write_wav_ok filename f w :
  writable w filename -> write_wav filename f w = (add_files [(filename, f)] w, inr tt).
Proof.
  intros (Hf & Hd & Hn & Hr). unfold write_wav.
  rewrite no_file_among by exact Hf.
  rewrite (is_dir_in _ _ Hd), (is_dir_out _ _ Hn), (is_refused_out _ _ Hr).
  reflexivity.
Qed.

Lemma save_wav_to_ok filename audio_data stereo w :
  writable w filename ->
  save_wav_to filename audio_data stereo w
  = (add_files [(filename, save_wav audio_data stereo)] w, inr tt).
Proof. apply write_wav_ok. Qed.

Lemma bind_save_wav_to {B : Type} filename audio_data stereo (k : unit -> io B) w :
  writable w filename ->
  bind (save_wav_to filename audio_data stereo) k w
  = k tt (add_files [(filename, save_wav audio_data stereo)] w).
Proof. intros H. apply bind_io_ok, save_wav_to_ok, H. Qed.

(** Once its directory is created, a preset can write any name in it, and
    goes on being able to after each file. *)
Lemma accepts_open_dir w output_dir :
  accepts w output_dir -> open_dir (add_dirs (ancestors output_dir) w) output_dir.
Proof.
  intros [Ha Hn] name. unfold writable. rewrite parent_path_div.
  cbn [add_dirs dirs files refused].
  split; [intros q Hq; apply Ha, Hq|].
  split; [apply in_or_app; left; apply ancestors_self|].
  split; [|apply Hn].
  rewrite in_app_iff. intros [H|H].
  - exact (path_div_not_ancestor _ _ H).
  - exact (proj1 (Hn name) H).
Qed.

Lemma open_dir_add_file w output_dir name f :
  open_dir w output_dir -> open_dir (add_files [(path_div output_dir name, f)] w) output_dir.
Proof.
  intros H name'. destruct (H name') as (Hf & Hd & Hn & Hr).
  unfold writable in *. rewrite parent_path_div in *.
  cbn [add_files dirs files refused map fst app].
  split; [|split; [exact Hd | split; [exact Hn | exact Hr]]].
  intros q Hq [Heq|Hin].
  - subst q. exact (path_div_not_ancestor _ _ Hq).
  - exact (Hf q Hq Hin).
Qed.

Lemma open_dir_add_files w output_dir fs :
  open_dir w output_dir ->
  Forall (fun pf : path * wav_file => exists name, fst pf = path_div output_dir name) fs ->
  open_dir (add_files fs w) output_dir.
Proof.
  intros H Hfs name'. destruct (H name') as (Hf & Hd & Hn & Hr).
  unfold writable in *. rewrite parent_path_div in *.
  cbn [add_files dirs files refused].
  split; [|split; [exact Hd | split; [exact Hn | exact Hr]]].
  intros q Hq Hin. rewrite map_app, in_app_iff in Hin. destruct Hin as [Hin|Hin].
  - apply in_map_iff in Hin. destruct Hin as (pf & <- & Hpf).
    destruct (proj1 (Forall_forall _ _) Hfs pf Hpf) as [name Hname].
    rewrite Hname in Hq. exact (path_div_not_ancestor _ _ Hq).
  - exact (Hf q Hq Hin).
Qed.

Lemma accepts_nothing output_dir :
  accepts {| dirs := []; files := []; refused := [] |} output_dir.
Proof. split; intros; cbn; tauto. Qed.

(** Solves [open_dir] for the world reached after some files. *)
Ltac still_open := repeat apply open_dir_add_file; try apply accepts_open_dir; assumption.

(** ** The tables of tones *)

Section TonePresets.

Variables (name : Z -> string) (output_dir : path) (duration : R).

Local Abbreviation N := (Z.to_nat (sample_count duration)).
Local Abbreviation tone_of freq :=
  (tabulate (fun i => 0.8 * sin (2 * PI * IZR freq * grid_time duration N i)) N).
Local Abbreviation tone_loop table :=
  (for_each table (fun item : Z * string =>
     let freq := fst item in
     wave <- lift (generate_sine_wave (IZR freq) duration 0.8) ;;
     save_wav_to (path_div output_dir (name freq)) (Mono wave) false)).

(** The loop shared by the Solfeggio and the angel presets writes one
    file per entry of the table. *)
Lemma tone_loop_ok (table : list (Z * string)) w :
  (0 <= sample_count duration)%Z -> open_dir w output_dir ->
  tone_loop table w
  = (add_files
       (rev (map (fun item : Z * string =>
                    (path_div output_dir (name (fst item)),
                     save_wav (Mono (tone_of (fst item))) false)) table)) w, inr tt).
Proof.
  intros H0. revert w. induction table as [|item table IH]; intros w Hd.
  - simpl. rewrite add_files_nil. reflexivity.
  - cbn [for_each]. cbv zeta.
    rewrite (bind_io_ok _ _ w
               (add_files [(path_div output_dir (name (fst item)),
                            save_wav (Mono (tone_of (fst item))) false)] w) tt).
    + rewrite IH by (apply open_dir_add_file, Hd). cbn [map rev].
      rewrite add_files_app. reflexivity.
    + rewrite (bind_lift_ok _ _ _ _ (sine_ok duration _ 0.8 H0)).
      apply save_wav_to_ok, Hd.
Qed.

Lemma tone_loop_raises (item : Z * string) (table : list (Z * string)) w :
  (sample_count duration < 0)%Z ->
  tone_loop (item :: table) w
  = (w, inl (NumpyError (NegativeSamples (sample_count duration)))).
Proof.
  intros Hneg. cbn [for_each]. cbv zeta.
  apply bind_io_raise.
  apply (bind_lift_raise _ _ _ _ (sine_raises duration _ 0.8 Hneg)).
Qed.

End TonePresets.

Lemma Forall2_map_right {A B : Type} (P : A -> B -> Prop) (f : A -> B) l :
  (forall x, P x (f x)) -> Forall2 P l (map f l).
Proof.
  intros H. induction l as [|x l IH]; simpl; constructor; [apply H | exact IH].
Qed.

(** X13. For every duration >= 0, on a file system that accepts the
    output directory, the Solfeggio preset creates the directory and
    writes nine mono files into it without raising, in the order of the
    table: the file of [freq] is named [solfeggio_<freq>hz.wav] and holds
    what [save_wav] makes of the tone at [freq] Hz. *)
Theorem solfeggio_writes_nine_tones (output_dir : path) (duration : R) (w : world) :
  0 <= duration -> accepts w output_dir ->
  exists new,
    generate_all_solfeggio output_dir duration w
    = (add_files new (add_dirs (ancestors output_dir) w), inr tt) /\
    map fst (rev new)
    = map (path_div output_dir)
        [ "solfeggio_174hz.wav"; "solfeggio_285hz.wav"; "solfeggio_396hz.wav";
          "solfeggio_417hz.wav"; "solfeggio_528hz.wav"; "solfeggio_639hz.wav";
          "solfeggio_741hz.wav"; "solfeggio_852hz.wav"; "solfeggio_963hz.wav" ]%string /\
    Forall2 (fun (item : Z * string) (pf : path * wav_file) =>
               exists wave,
                 generate_sine_wave (IZR (fst item)) duration 0.8 = Ok wave /\
                 snd pf = save_wav (Mono wave) false)
            SOLFEGGIO_FREQUENCIES (rev new).
Proof.
  intros Hd Hacc. destruct (sample_count_of_duration duration Hd) as [H0 _].
  unfold generate_all_solfeggio. rewrite bind_mkdir by exact Hacc.
  rewrite (tone_loop_ok (fun freq => ("solfeggio_" ++ str_int freq ++ "hz.wav")%string))
    by (try exact H0; still_open).
  eexists. split; [reflexivity|].
  rewrite rev_involutive. split.
  - rewrite map_map. reflexivity.
  - apply Forall2_map_right. intros item. eexists.
    split; [apply sine_ok, H0 | reflexivity].
Qed.

Lemma solfeggio_writes_nine_tones_witness :
  0 <= 60 /\
  accepts {| dirs := []; files := []; refused := [] |} ["output"; "solfeggio"]%string /\
  exists new,
    generate_all_solfeggio ["output"; "solfeggio"]%string 60
      {| dirs := []; files := []; refused := [] |}
    = (add_files new
         (add_dirs (ancestors ["output"; "solfeggio"]%string)
            {| dirs := []; files := []; refused := [] |}), inr tt) /\
    length new = 9%nat.
Proof.
  assert (H : 0 <= 60) by lra.
  assert (Ha := accepts_nothing ["output"; "solfeggio"]%string).
  split; [exact H|]. split; [exact Ha|].
  destruct (solfeggio_writes_nine_tones ["output"; "solfeggio"]%string 60 _ H Ha)
    as (new & Hrun & Hnames & _).
  exists new. split; [exact Hrun|].
  rewrite <- length_rev, <- (length_map fst), Hnames. reflexivity.
Defined.

(** X14. The same for the angel preset: nine mono files
    [angel_<freq>hz.wav], one per entry of its table, for every
    duration >= 0. *)
Theorem angels_writes_nine_tones (output_dir : path) (duration : R) (w : world) :
  0 <= duration -> accepts w output_dir ->
  exists new,
    generate_all_angel_frequencies output_dir duration w
    = (add_files new (add_dirs (ancestors output_dir) w), inr tt) /\
    map fst (rev new)
    = map (path_div output_dir)
        [ "angel_111hz.wav"; "angel_222hz.wav"; "angel_333hz.wav";
          "angel_444hz.wav"; "angel_555hz.wav"; "angel_666hz.wav";
          "angel_777hz.wav"; "angel_888hz.wav"; "angel_999hz.wav" ]%string /\
    Forall2 (fun (item : Z * string) (pf : path * wav_file) =>
               exists wave,
                 generate_sine_wave (IZR (fst item)) duration 0.8 = Ok wave /\
                 snd pf = save_wav (Mono wave) false)
            ANGEL_FREQUENCIES (rev new).
Proof.
  intros Hd Hacc. destruct (sample_count_of_duration duration Hd) as [H0 _].
  unfold generate_all_angel_frequencies. rewrite bind_mkdir by exact Hacc.
  rewrite (tone_loop_ok (fun freq => ("angel_" ++ str_int freq ++ "hz.wav")%string))
    by (try exact H0; still_open).
  eexists. split; [reflexivity|].
  rewrite rev_involutive. split.
  - rewrite map_map. reflexivity.
  - apply Forall2_map_right. intros item. eexists.
    split; [apply sine_ok, H0 | reflexivity].
Qed.

Lemma angels_writes_nine_tones_witness :
  0 <= 60 /\
  accepts {| dirs := []; files := []; refused := [] |} ["output"; "angels"]%string /\
  exists new,
    generate_all_angel_frequencies ["output"; "angels"]%string 60
      {| dirs := []; files := []; refused := [] |}
    = (add_files new
         (add_dirs (ancestors ["output"; "angels"]%string)
            {| dirs := []; files := []; refused := [] |}), inr tt) /\
    length new = 9%nat.
Proof.
  assert (H : 0 <= 60) by lra.
  assert (Ha := accepts_nothing ["output"; "angels"]%string).
  split; [exact H|]. split; [exact Ha|].
  destruct (angels_writes_nine_tones ["output"; "angels"]%string 60 _ H Ha)
    as (new & Hrun & Hnames & _).
  exists new. split; [exact Hrun|].
  rewrite <- length_rev, <- (length_map fst), Hnames. reflexivity.
Defined.

(** A preset that creates its directory and then raises on the first
    tone writes nothing, whatever [mkdir] does. *)
Lemma raises_after_mkdir output_dir (body : io unit) (e : py_exn) w :
  (forall w1, body w1 = (w1, inl e)) ->
  (exists w' e', bind (mkdir output_dir) (fun _ => body) w = (w', inl e') /\
                 files w' = files w) /\
  (accepts w output_dir ->
   bind (mkdir output_dir) (fun _ => body) w = (add_dirs (ancestors output_dir) w, inl e)).
Proof.
  intros Hb. split.
  - destruct (mkdir_cases output_dir w) as [(w' & e' & Hm & Hf)|Hm].
    + exists w', e'. split; [apply bind_io_raise, Hm | exact Hf].
    + do 2 eexists. split; [rewrite (bind_io_ok _ _ _ _ _ Hm); apply Hb | reflexivity].
  - intros Hacc. rewrite bind_mkdir by exact Hacc. apply Hb.
Qed.

(** X15. With a duration of -1/44100 s or less the two tone presets never
    return and write no file, whatever the file system holds; where it
    accepts the output directory, they create it and raise on the first
    tone, whose number of samples is negative. *)
Theorem tone_presets_negative_duration (output_dir : path) (duration : R) (w : world) :
  IZR SAMPLE_RATE * duration <= -1 ->
  (exists w' e,
      generate_all_solfeggio output_dir duration w = (w', inl e) /\ files w' = files w) /\
  (exists w' e,
      generate_all_angel_frequencies output_dir duration w = (w', inl e) /\
      files w' = files w) /\
  (accepts w output_dir ->
   exists num,
     (num < 0)%Z /\
     generate_all_solfeggio output_dir duration w
     = (add_dirs (ancestors output_dir) w, inl (NumpyError (NegativeSamples num))) /\
     generate_all_angel_frequencies output_dir duration w
     = (add_dirs (ancestors output_dir) w, inl (NumpyError (NegativeSamples num)))).
Proof.
  intros Hd. assert (Hneg := sample_count_negative duration Hd).
  assert (Hs := fun w1 =>
            tone_loop_raises (fun freq => ("solfeggio_" ++ str_int freq ++ "hz.wav")%string)
              output_dir duration (174%Z, "Pain relief, anesthetic"%string)
              (tl SOLFEGGIO_FREQUENCIES) w1 Hneg).
  assert (Ha := fun w1 =>
            tone_loop_raises (fun freq => ("angel_" ++ str_int freq ++ "hz.wav")%string)
              output_dir duration (111%Z, "New beginnings, manifestation"%string)
              (tl ANGEL_FREQUENCIES) w1 Hneg).
  destruct (raises_after_mkdir output_dir _ _ w Hs) as [Hs1 Hs2].
  destruct (raises_after_mkdir output_dir _ _ w Ha) as [Ha1 Ha2].
  split; [exact Hs1|]. split; [exact Ha1|].
  intros Hacc. exists (sample_count duration). split; [exact Hneg|].
  split; [exact (Hs2 Hacc) | exact (Ha2 Hacc)].
Qed.

Lemma tone_presets_negative_duration_witness :
  IZR SAMPLE_RATE * -1 <= -1 /\
  accepts {| dirs := []; files := []; refused := [] |} ["out"]%string /\
  exists num,
    (num < 0)%Z /\
    generate_all_solfeggio ["out"]%string (-1) {| dirs := []; files := []; refused := [] |}
    = (add_dirs (ancestors ["out"]%string) {| dirs := []; files := []; refused := [] |},
       inl (NumpyError (NegativeSamples num))).
Proof.
  assert (H : IZR SAMPLE_RATE * -1 <= -1) by (unfold SAMPLE_RATE; lra).
  assert (Ha := accepts_nothing ["out"]%string).
  split; [exact H|]. split; [exact Ha|].
  destruct (tone_presets_negative_duration ["out"]%string (-1)
              {| dirs := []; files := []; refused := [] |} H)
    as (_ & _ & Hrun).
  destruct (Hrun Ha) as (num & Hn & Hs & _).
  exists num. split; assumption.
Defined.

(** ** The 432 Hz / 440 Hz comparison *)

Lemma bind_returns {A B : Type} (m : io A) (k : A -> io B) w w' b :
  bind m k w = (w', inr b) -> exists w1 a, m w = (w1, inr a) /\ k a w1 = (w', inr b).
Proof.
  simpl. destruct (m w) as [w1 [e|a]]; [discriminate|].
  intros H. exists w1, a. split; [reflexivity | exact H].
Qed.

Lemma lift_returns {A : Type} (r : result A) w w' a :
  lift r w = (w', inr a) -> r = Ok a /\ w' = w.
Proof.
  unfold lift. destruct r as [e|a']; intros H; inversion H. split; reflexivity.
Qed.

Lemma sample_count_nonneg_int (d : Z) : (0 <= d)%Z -> (0 <= sample_count (IZR d))%Z.
Proof. intros H. apply sample_count_nonneg. apply (IZR_le 0 d H). Qed.

(** The loop that collects the segments: after it the list holds, behind
    what it held, the two five-second tones once per pass. *)
Lemma segments_loop (l : list nat) (segments : list (list R)) w a b :
  generate_sine_wave 432 (IZR 5) 0.8 = Ok a ->
  generate_sine_wave 440 (IZR 5) 0.8 = Ok b ->
  for_fold l segments
    (fun segments (_ : nat) =>
       a <- lift (generate_sine_wave 432 (IZR 5) 0.8) ;;
       let segments := segments ++ [a] in
       b <- lift (generate_sine_wave 440 (IZR 5) 0.8) ;;
       let segments := segments ++ [b] in
       ret segments) w
  = (w, inr (segments ++ concat (repeat [a; b] (length l)))).
Proof.
  intros Ha Hb. revert segments.
  induction l as [|x l IH]; intros segments.
  - simpl. rewrite app_nil_r. reflexivity.
  - cbn [for_fold]. cbv zeta.
    rewrite (bind_io_ok _ _ w w ((segments ++ [a]) ++ [b])).
    + rewrite IH. cbn [length repeat concat]. rewrite <- !app_assoc. reflexivity.
    + rewrite (bind_lift_ok _ _ _ _ Ha), (bind_lift_ok _ _ _ _ Hb). reflexivity.
Qed.

Lemma length_concat_pairs (a b : list R) n :
  length (concat (concat (repeat [a; b] n))) = (n * (length a + length b))%nat.
Proof.
  induction n as [|n IH]; [reflexivity|].
  cbn [repeat concat app]. rewrite !length_app, IH. lia.
Qed.

Section Tuning.

Variables (output_dir : path) (duration : Z) (w : world).

Local Abbreviation tone f d :=
  (tabulate (fun i => 0.8 * sin (2 * PI * f * grid_time d (Z.to_nat (sample_count d)) i))
            (Z.to_nat (sample_count d))).
Local Abbreviation file_432 :=
  (path_div output_dir "tuning_432hz_natural.wav"%string,
   save_wav (Mono (tone 432 (IZR duration))) false).
Local Abbreviation file_440 :=
  (path_div output_dir "tuning_440hz_standard.wav"%string,
   save_wav (Mono (tone 440 (IZR duration))) false).

Lemma tuning_short :
  accepts w output_dir -> (0 <= duration < 10)%Z ->
  generate_432_vs_440 output_dir duration w
  = (add_files [file_440; file_432] (add_dirs (ancestors output_dir) w),
     inl ConcatenateEmpty).
Proof.
  intros Hacc Hd.
  assert (H0 : (0 <= sample_count (IZR duration))%Z) by (apply sample_count_nonneg_int; lia).
  assert (H5 : (0 <= sample_count (IZR 5))%Z) by (apply sample_count_nonneg_int; lia).
  unfold generate_432_vs_440. rewrite bind_mkdir by exact Hacc.
  rewrite (bind_lift_ok _ _ _ _ (sine_ok _ 432 0.8 H0)).
  rewrite (bind_lift_ok _ _ _ _ (sine_ok _ 440 0.8 H0)).
  rewrite bind_save_wav_to by still_open.
  rewrite bind_save_wav_to by still_open.
  cbv zeta.
  erewrite bind_io_ok
    by (apply segments_loop; apply sine_ok, H5).
  rewrite length_seq.
  replace (Z.to_nat (duration / (5 * 2))) with 0%nat
    by (rewrite Z.div_small by lia; reflexivity).
  rewrite add_files_app. reflexivity.
Qed.

Lemma tuning_long :
  accepts w output_dir -> (10 <= duration)%Z ->
  generate_432_vs_440 output_dir duration w
  = (add_files
       [ (path_div output_dir "tuning_432_440_comparison.wav"%string,
          save_wav
            (Mono (concat (concat (repeat [tone 432 (IZR 5); tone 440 (IZR 5)]
                                     (Z.to_nat (duration / 10)))))) false);
         file_440; file_432 ]
       (add_dirs (ancestors output_dir) w), inr tt).
Proof.
  intros Hacc Hd.
  assert (H0 : (0 <= sample_count (IZR duration))%Z) by (apply sample_count_nonneg_int; lia).
  assert (H5 : (0 <= sample_count (IZR 5))%Z) by (apply sample_count_nonneg_int; lia).
  unfold generate_432_vs_440. rewrite bind_mkdir by exact Hacc.
  rewrite (bind_lift_ok _ _ _ _ (sine_ok _ 432 0.8 H0)).
  rewrite (bind_lift_ok _ _ _ _ (sine_ok _ 440 0.8 H0)).
  rewrite bind_save_wav_to by still_open.
  rewrite bind_save_wav_to by still_open.
  cbv zeta.
  erewrite bind_io_ok
    by (apply segments_loop; apply sine_ok, H5).
  rewrite length_seq. change (5 * 2)%Z with 10%Z.
  assert (Hn : (1 <= duration / 10)%Z) by (apply Z.div_le_lower_bound; lia).
  destruct (Z.to_nat (duration / 10)) as [|n] eqn:En; [lia|].
  cbn [repeat concat app concatenate].
  rewrite bind_ret_io.
  rewrite save_wav_to_ok by still_open.
  rewrite !add_files_app. reflexivity.
Qed.

(** Whatever the file system does, a run of less than ten seconds cannot
    return: if nothing else raises, [np.concatenate] does. *)
Lemma tuning_short_never_returns w' :
  (0 <= duration < 10)%Z -> generate_432_vs_440 output_dir duration w <> (w', inr tt).
Proof.
  intros Hd H.
  assert (H5 : (0 <= sample_count (IZR 5))%Z) by (apply sample_count_nonneg_int; lia).
  unfold generate_432_vs_440 in H.
  apply bind_returns in H. destruct H as (w1 & [] & _ & H).
  apply bind_returns in H. destruct H as (w2 & wave_432 & _ & H).
  apply bind_returns in H. destruct H as (w3 & wave_440 & _ & H).
  apply bind_returns in H. destruct H as (w4 & [] & _ & H).
  apply bind_returns in H. destruct H as (w5 & [] & _ & H).
  cbv zeta in H.
  apply bind_returns in H. destruct H as (w6 & segments & Hloop & H).
  rewrite (segments_loop _ _ _ _ _ (sine_ok _ 432 0.8 H5) (sine_ok _ 440 0.8 H5)) in Hloop.
  rewrite length_seq in Hloop.
  replace (Z.to_nat (duration / (5 * 2))) with 0%nat in Hloop
    by (rewrite Z.div_small by lia; reflexivity).
  injection Hloop as <- <-.
  cbn [repeat concat app concatenate] in H.
  apply bind_returns in H. destruct H as (w7 & comparison & Hc & _).
  discriminate Hc.
Qed.

End Tuning.

(** X16. Asked for fewer than ten seconds (0 <= duration < 10), the
    tuning comparison never returns: no segment is collected and
    [np.concatenate] rejects the empty list.  On a file system that
    accepts the output directory it has by then saved the two plain
    tones, and the comparison file is never written. *)
Theorem tuning_comparison_needs_ten_seconds (output_dir : path) (duration : Z) (w : world) :
  (0 <= duration < 10)%Z ->
  (forall w', generate_432_vs_440 output_dir duration w <> (w', inr tt)) /\
  (accepts w output_dir ->
   exists wave_432 wave_440,
     generate_sine_wave 432 (IZR duration) 0.8 = Ok wave_432 /\
     generate_sine_wave 440 (IZR duration) 0.8 = Ok wave_440 /\
     generate_432_vs_440 output_dir duration w
     = (add_files
          [ (path_div output_dir "tuning_440hz_standard.wav"%string,
             save_wav (Mono wave_440) false);
            (path_div output_dir "tuning_432hz_natural.wav"%string,
             save_wav (Mono wave_432) false) ]
          (add_dirs (ancestors output_dir) w), inl ConcatenateEmpty)).
Proof.
  intros Hd. split.
  - intros w'. apply tuning_short_never_returns, Hd.
  - intros Hacc.
    assert (H0 : (0 <= sample_count (IZR duration))%Z)
      by (apply sample_count_nonneg_int; lia).
    do 2 eexists. split; [apply sine_ok, H0|]. split; [apply sine_ok, H0|].
    apply tuning_short; assumption.
Qed.

Lemma tuning_comparison_needs_ten_seconds_witness :
  (0 <= 9 < 10)%Z /\
  accepts {| dirs := []; files := []; refused := [] |} ["tuning"]%string /\
  exists w',
    generate_432_vs_440 ["tuning"]%string 9 {| dirs := []; files := []; refused := [] |}
    = (w', inl ConcatenateEmpty) /\
    length (files w') = 2%nat.
Proof.
  assert (H : (0 <= 9 < 10)%Z) by lia.
  assert (Ha := accepts_nothing ["tuning"]%string).
  split; [exact H|]. split; [exact Ha|].
  destruct (proj2 (tuning_comparison_needs_ten_seconds ["tuning"]%string 9
                     {| dirs := []; files := []; refused := [] |} H) Ha)
    as (a & b & _ & _ & Hrun).
  eexists. split; [exact Hrun | reflexivity].
Defined.

(** X17. Asked for ten seconds or more, on a file system that accepts
    the output directory, the tuning comparison writes three files: the
    two plain tones, and the comparison, which is the five-second 432 Hz
    and 440 Hz tones alternating, [duration // 10] times each.  It lasts
    [10 * (duration // 10)] seconds: the remainder of [duration] modulo
    ten is dropped. *)
Theorem tuning_comparison_length (output_dir : path) (duration : Z) (w : world) :
  (10 <= duration)%Z -> accepts w output_dir ->
  exists wave_432 wave_440 a b comparison,
    generate_sine_wave 432 (IZR duration) 0.8 = Ok wave_432 /\
    generate_sine_wave 440 (IZR duration) 0.8 = Ok wave_440 /\
    generate_sine_wave 432 5 0.8 = Ok a /\
    generate_sine_wave 440 5 0.8 = Ok b /\
    generate_432_vs_440 output_dir duration w
    = (add_files
         [ (path_div output_dir "tuning_432_440_comparison.wav"%string,
            save_wav (Mono comparison) false);
           (path_div output_dir "tuning_440hz_standard.wav"%string,
            save_wav (Mono wave_440) false);
           (path_div output_dir "tuning_432hz_natural.wav"%string,
            save_wav (Mono wave_432) false) ]
         (add_dirs (ancestors output_dir) w), inr tt) /\
    comparison = concat (concat (repeat [a; b] (Z.to_nat (duration / 10)))) /\
    Z.of_nat (length comparison) = (44100 * (10 * (duration / 10)))%Z.
Proof.
  intros Hd Hacc.
  assert (H0 : (0 <= sample_count (IZR duration))%Z)
    by (apply sample_count_nonneg_int; lia).
  assert (H5 : sample_count (IZR 5) = 220500%Z) by (apply (sample_count_int 5); lia).
  assert (H5' : (0 <= sample_count (IZR 5))%Z) by lia.
  assert (Hn : (0 <= duration / 10)%Z) by (apply Z.div_pos; lia).
  do 5 eexists.
  split; [apply sine_ok, H0|]. split; [apply sine_ok, H0|].
  split; [apply (sine_ok (IZR 5)), H5'|]. split; [apply (sine_ok (IZR 5)), H5'|].
  split; [apply tuning_long; assumption|]. split; [reflexivity|].
  rewrite length_concat_pairs, !length_tabulate, !H5. lia.
Qed.

Lemma tuning_comparison_length_witness :
  (10 <= 35)%Z /\
  accepts {| dirs := []; files := []; refused := [] |} ["tuning"]%string /\
  exists w' comparison,
    generate_432_vs_440 ["tuning"]%string 35 {| dirs := []; files := []; refused := [] |}
    = (w', inr tt) /\
    hd_error (files w')
    = Some (["tuning"; "tuning_432_440_comparison.wav"]%string,
            save_wav (Mono comparison) false) /\
    Z.of_nat (length comparison) = (44100 * 30)%Z.
Proof.
  assert (H : (10 <= 35)%Z) by lia.
  assert (Ha := accepts_nothing ["tuning"]%string).
  split; [exact H|]. split; [exact Ha|].
  destruct (tuning_comparison_length ["tuning"]%string 35
              {| dirs := []; files := []; refused := [] |} H Ha)
    as (w432 & w440 & a & b & cmp & _ & _ & _ & _ & Hrun & _ & Hlen).
  eexists. exists cmp. split; [exact Hrun|]. split; [reflexivity | exact Hlen].
Defined.

(** ** The chakra sequence *)

Lemma firstn_tabulate g k n : (k <= n)%nat -> firstn k (tabulate g n) = tabulate g k.
Proof.
  intros H. apply (nth_ext _ _ 0 0).
  - rewrite length_firstn, !length_tabulate. lia.
  - intros i Hi. rewrite length_firstn, length_tabulate in Hi.
    rewrite nth_firstn. destruct (Nat.ltb_spec i k); [|lia].
    rewrite !nth_tabulate by lia. reflexivity.
Qed.

Lemma skipn_tabulate g k n :
  skipn k (tabulate g n) = tabulate (fun i => g (k + i)%nat) (n - k).
Proof.
  apply (nth_ext _ _ 0 0).
  - rewrite length_skipn, !length_tabulate. reflexivity.
  - intros i Hi. rewrite length_skipn, length_tabulate in Hi.
    rewrite nth_skipn, !nth_tabulate by lia. reflexivity.
Qed.

Lemma tabulate_app (g h : nat -> R) a b :
  tabulate g a ++ tabulate h b
  = tabulate (fun i => if (i <? a)%nat then g i else h (i - a)%nat) (a + b).
Proof.
  apply (nth_ext _ _ 0 0).
  - rewrite length_app, !length_tabulate. reflexivity.
  - intros i Hi. rewrite length_app, !length_tabulate in Hi.
    rewrite (nth_tabulate _ (a + b)) by exact Hi.
    destruct (Nat.ltb_spec i a) as [H|H].
    + rewrite app_nth1 by (rewrite length_tabulate; exact H).
      apply nth_tabulate, H.
    + rewrite app_nth2 by (rewrite length_tabulate; exact H).
      rewrite length_tabulate. apply nth_tabulate. lia.
Qed.

(** [a[:f] *= v] and [a[-f:] *= v] on an array of at least [f] elements. *)
Lemma imul_slice_head g u f n :
  (f <= n)%nat ->
  imul_slice (tabulate g n) 0 f (tabulate u f)
  = Ok (tabulate (fun i => if (i <? f)%nat then g i * u i else g i) n).
Proof.
  intros H. unfold imul_slice.
  rewrite Nat.max_r, Nat.sub_0_r, length_tabulate, Nat.eqb_refl by lia.
  f_equal. cbn [firstn skipn app].
  rewrite firstn_tabulate, skipn_tabulate, zip_with_tabulate, tabulate_app by exact H.
  replace (f + (n - f))%nat with n by lia.
  apply tabulate_ext. intros i Hi.
  destruct (Nat.ltb_spec i f); [reflexivity|]. f_equal. lia.
Qed.

Lemma imul_slice_tail g u f n :
  (f <= n)%nat ->
  imul_slice (tabulate g n) (n - f) n (tabulate u f)
  = Ok (tabulate (fun i => if (n - f <=? i)%nat then g i * u (i - (n - f))%nat else g i) n).
Proof.
  intros H. unfold imul_slice.
  rewrite Nat.max_r by lia.
  replace (n - (n - f))%nat with f by lia.
  rewrite length_tabulate, Nat.eqb_refl.
  f_equal.
  rewrite (skipn_all2 (n := n)) by (rewrite length_tabulate; lia).
  rewrite app_nil_r, skipn_tabulate.
  replace (n - (n - f))%nat with f by lia.
  rewrite !firstn_tabulate, zip_with_tabulate, tabulate_app by lia.
  replace (n - f + f)%nat with n by lia.
  apply tabulate_ext. intros i Hi.
  destruct (Nat.ltb_spec i (n - f)); destruct (Nat.leb_spec (n - f) i); try lia.
  - reflexivity.
  - f_equal. f_equal. lia.
Qed.

Lemma imul_slice_mismatch (a v : list R) start stop :
  (start <= stop)%nat -> length v <> (stop - start)%nat -> length v <> 1%nat ->
  imul_slice a start stop v = Raise (BroadcastError (length v) (stop - start)).
Proof.
  intros Hle Hlen H1. unfold imul_slice.
  rewrite Nat.max_r by exact Hle.
  destruct (Nat.eqb_spec (length v) (stop - start)); [contradiction|].
  destruct (Nat.eqb_spec (length v) 1); [contradiction | reflexivity].
Qed.

Lemma chakra_fade_samples : Np.int (IZR SAMPLE_RATE * 2) = 88200%Z.
Proof.
  replace (IZR SAMPLE_RATE * 2) with (IZR 88200) by (unfold SAMPLE_RATE; lra).
  apply int_IZR.
Qed.

Lemma chakra_keys_present :
  Forall (fun item : Z * string =>
            exists description, dict_get CHAKRA_FREQUENCIES (fst item) = ret description)
    [ (396, "root"); (417, "sacral"); (528, "solar_plexus"); (639, "heart");
      (741, "throat"); (852, "third_eye"); (963, "crown") ]%string%Z.
Proof. repeat constructor; eexists; reflexivity. Qed.

Section Chakra.

Variables (output_dir : path) (duration : R).

Local Abbreviation N := (Z.to_nat (sample_count duration)).
Local Abbreviation F2 := (Z.to_nat 88200).

(** A chakra tone after the two in-place fades, by index. *)
Local Abbreviation faded freq :=
  (tabulate
     (fun i =>
        if (N - F2 <=? i)%nat
        then (if (i <? F2)%nat
              then 0.8 * sin (2 * PI * IZR freq * grid_time duration N i)
                   * (INR i * ((1 - 0) / INR (F2 - 1)) + 0)
              else 0.8 * sin (2 * PI * IZR freq * grid_time duration N i))
             * (INR (i - (N - F2)) * ((0 - 1) / INR (F2 - 1)) + 1)
        else (if (i <? F2)%nat
              then 0.8 * sin (2 * PI * IZR freq * grid_time duration N i)
                   * (INR i * ((1 - 0) / INR (F2 - 1)) + 0)
              else 0.8 * sin (2 * PI * IZR freq * grid_time duration N i))) N).

Local Abbreviation chakra_body :=
  (fun (full_sequence : list (list R)) (item : Z * string) =>
     let freq := fst item in
     let name := snd item in
     description <- dict_get CHAKRA_FREQUENCIES freq ;;
     wave <- lift (generate_sine_wave (IZR freq) duration 0.8) ;;
     let fade_samples := Np.int (IZR SAMPLE_RATE * 2) in
     ramp <- lift (Np.linspace 0 1 fade_samples true) ;;
     wave <- lift (imul_slice wave 0 (Np.slice_bound (length wave) fade_samples) ramp) ;;
     ramp <- lift (Np.linspace 1 0 fade_samples true) ;;
     wave <- lift (imul_slice wave (Np.slice_bound (length wave) (- fade_samples))
                     (length wave) ramp) ;;
     let full_sequence := full_sequence ++ [wave] in
     save_wav_to
       (path_div output_dir ("chakra_" ++ name ++ "_" ++ str_int freq ++ "hz.wav")%string)
       (Mono wave) false ;;
     ret full_sequence).

Lemma chakra_body_ok full_sequence (item : Z * string) description w :
  (88200 <= sample_count duration)%Z ->
  open_dir w output_dir ->
  dict_get CHAKRA_FREQUENCIES (fst item) = ret description ->
  chakra_body full_sequence item w
  = (add_files
       [(path_div output_dir
           ("chakra_" ++ snd item ++ "_" ++ str_int (fst item) ++ "hz.wav")%string,
         save_wav (Mono (faded (fst item))) false)] w,
     inr (full_sequence ++ [faded (fst item)])).
Proof.
  intros Hc Hdir Hkey. cbv beta zeta.
  assert (H0 : (0 <= sample_count duration)%Z) by lia.
  assert (HF : Z.of_nat F2 = 88200%Z) by lia.
  assert (H2 : (2 <= F2)%nat) by lia.
  assert (HfN : (F2 <= N)%nat) by lia.
  rewrite Hkey, bind_ret_io.
  rewrite (bind_lift_ok _ _ _ _ (sine_ok duration _ 0.8 H0)).
  rewrite chakra_fade_samples, <- HF.
  rewrite (bind_lift_ok _ _ _ _ (linspace_closed 0 1 F2 H2)).
  rewrite length_tabulate, slice_bound_nonneg by lia.
  rewrite Nat2Z.id, Nat.min_l by exact HfN.
  rewrite (bind_lift_ok _ _ _ _ (imul_slice_head _ _ F2 N HfN)).
  rewrite (bind_lift_ok _ _ _ _ (linspace_closed 1 0 F2 H2)).
  rewrite length_tabulate, slice_bound_neg by lia.
  rewrite Z.opp_involutive, Nat2Z.id.
  rewrite (bind_lift_ok _ _ _ _ (imul_slice_tail _ _ F2 N HfN)).
  rewrite bind_save_wav_to by (apply Hdir).
  reflexivity.
Qed.

Lemma chakra_body_short full_sequence (item : Z * string) description w :
  (0 <= sample_count duration < 88200)%Z ->
  dict_get CHAKRA_FREQUENCIES (fst item) = ret description ->
  chakra_body full_sequence item w
  = (w, inl (NumpyError (BroadcastError F2 N))).
Proof.
  intros [H0 Hc] Hkey. cbv beta zeta.
  assert (HF : Z.of_nat F2 = 88200%Z) by lia.
  assert (H2 : (2 <= F2)%nat) by lia.
  rewrite Hkey, bind_ret_io.
  rewrite (bind_lift_ok _ _ _ _ (sine_ok duration _ 0.8 H0)).
  rewrite chakra_fade_samples, <- HF.
  rewrite (bind_lift_ok _ _ _ _ (linspace_closed 0 1 F2 H2)).
  rewrite length_tabulate, slice_bound_nonneg by lia.
  rewrite Nat2Z.id. replace (Nat.min F2 N) with N by lia.
  erewrite bind_lift_raise; [reflexivity|].
  rewrite imul_slice_mismatch; rewrite ?length_tabulate; try lia.
  rewrite Nat.sub_0_r. reflexivity.
Qed.

Lemma chakra_loop_ok (items : list (Z * string)) full_sequence w :
  (88200 <= sample_count duration)%Z ->
  open_dir w output_dir ->
  Forall (fun item : Z * string =>
            exists description,
              dict_get CHAKRA_FREQUENCIES (fst item) = ret description) items ->
  for_fold items full_sequence chakra_body w
  = (add_files
       (rev (map (fun item : Z * string =>
                    (path_div output_dir
                       ("chakra_" ++ snd item ++ "_" ++ str_int (fst item) ++ "hz.wav")%string,
                     save_wav (Mono (faded (fst item))) false)) items)) w,
     inr (full_sequence ++ map (fun item : Z * string => faded (fst item)) items)).
Proof.
  intros Hc Hdir Hkeys. revert full_sequence w Hdir.
  induction Hkeys as [|item items [description Hkey] _ IH]; intros full_sequence w Hdir.
  - simpl. rewrite app_nil_r, add_files_nil. reflexivity.
  - cbn [for_fold].
    rewrite (bind_io_ok _ _ _ _ _ (chakra_body_ok full_sequence item description w Hc Hdir Hkey)).
    rewrite IH by (apply open_dir_add_file, Hdir).
    cbn [map rev]. rewrite add_files_app, <- !app_assoc. reflexivity.
Qed.

Lemma faded_props freq :
  (88200 <= sample_count duration)%Z ->
  length (faded freq) = N /\
  nth 0 (faded freq) 0 = 0 /\
  nth (N - 1) (faded freq) 0 = 0 /\
  Forall (fun s => Rabs s <= 0.8) (faded freq) /\
  (forall i, (F2 <= i)%nat -> (i < N - F2)%nat ->
     nth i (faded freq) 0 = 0.8 * sin (2 * PI * IZR freq * grid_time duration N i)).
Proof.
  intros Hc.
  assert (HfN : (F2 <= N)%nat) by lia.
  assert (HA : INR (F2 - 1) = 88199).
  { rewrite INR_IZR_INZ. replace (Z.of_nat (F2 - 1)) with 88199%Z by lia. reflexivity. }
  split; [apply length_tabulate|]. split; [|split; [|split]].
  - rewrite nth_tabulate by lia.
    assert (Hs : 0.8 * sin (2 * PI * IZR freq * grid_time duration N 0) = 0).
    { unfold grid_time. simpl INR. rewrite Rmult_0_l, Rmult_0_r, sin_0. ring. }
    rewrite Hs. destruct (N - F2 <=? 0)%nat; destruct (0 <? F2)%nat; ring.
  - rewrite nth_tabulate by lia.
    destruct (Nat.leb_spec (N - F2) (N - 1)) as [_|H]; [|lia].
    replace (N - 1 - (N - F2))%nat with (F2 - 1)%nat by lia.
    rewrite HA.
    replace (88199 * ((0 - 1) / 88199) + 1) with 0 by field.
    ring.
  - apply Forall_tabulate. intros i Hi.
    assert (Hs := scaled_sine_bound 0.8 (2 * PI * IZR freq * grid_time duration N i)).
    rewrite (Rabs_right 0.8) in Hs by lra.
    set (s := 0.8 * sin (2 * PI * IZR freq * grid_time duration N i)) in *.
    assert (Hs0 := Rabs_pos s).
    assert (Hup : (i < F2)%nat -> 0 <= INR i * ((1 - 0) / INR (F2 - 1)) + 0 <= 1).
    { intros Hlt. assert (H0 := pos_INR i).
      assert (H1 : INR i <= INR (F2 - 1)) by (apply le_INR; lia).
      rewrite HA in *. lra. }
    assert (Hdown : 0 <= INR (i - (N - F2)) * ((0 - 1) / INR (F2 - 1)) + 1 <= 1).
    { assert (H0 := pos_INR (i - (N - F2))).
      assert (H1 : INR (i - (N - F2)) <= INR (F2 - 1)) by (apply le_INR; lia).
      rewrite HA in *. lra. }
    set (down := INR (i - (N - F2)) * ((0 - 1) / INR (F2 - 1)) + 1) in *.
    destruct (N - F2 <=? i)%nat; destruct (Nat.ltb_spec i F2) as [Hlt|Hge].
    + specialize (Hup Hlt). set (up := INR i * ((1 - 0) / INR (F2 - 1)) + 0) in *.
      rewrite !Rabs_mult, (Rabs_right up), (Rabs_right down) by lra.
      assert (Rabs s * up <= 0.8) by nra.
      assert (0 <= Rabs s * up) by nra.
      nra.
    + rewrite Rabs_mult, (Rabs_right down) by lra. nra.
    + specialize (Hup Hlt). set (up := INR i * ((1 - 0) / INR (F2 - 1)) + 0) in *.
      rewrite Rabs_mult, (Rabs_right up) by lra. nra.
    + exact Hs.
  - intros i Hlo Hhi. rewrite nth_tabulate by lia.
    destruct (Nat.leb_spec (N - F2) i); [lia|].
    destruct (Nat.ltb_spec i F2); [lia | reflexivity].
Qed.

Lemma faded_shaped_tone freq :
  (88200 <= sample_count duration)%Z ->
  exists tone,
    generate_sine_wave (IZR freq) duration 0.8 = Ok tone /\
    length (faded freq) = length tone /\
    nth 0 (faded freq) 0 = 0 /\
    nth (length (faded freq) - 1) (faded freq) 0 = 0 /\
    Forall (fun s => Rabs s <= 0.8) (faded freq) /\
    (forall i, (F2 <= i)%nat -> (i < length (faded freq) - F2)%nat ->
               nth i (faded freq) 0 = nth i tone 0).
Proof.
  intros Hc. assert (H0 : (0 <= sample_count duration)%Z) by lia.
  destruct (faded_props freq Hc) as (Hl & Hf & Hz & Hb & Hm).
  eexists. split; [apply sine_ok, H0|].
  rewrite !Hl, length_tabulate.
  split; [reflexivity|]. split; [exact Hf|].
  split; [exact Hz|]. split; [exact Hb|].
  intros i Hlo Hhi.
  rewrite (Hm i Hlo Hhi). symmetry. apply nth_tabulate. lia.
Qed.

Local Abbreviation chakra_waves :=
  (map (fun item : Z * string => faded (fst item))
     [ (396, "root"); (417, "sacral"); (528, "solar_plexus"); (639, "heart");
       (741, "throat"); (852, "third_eye"); (963, "crown") ]%string%Z).

Lemma chakra_ok w :
  (88200 <= sample_count duration)%Z -> accepts w output_dir ->
  generate_chakra_meditation output_dir duration w
  = (add_files
       ((path_div output_dir "chakra_full_meditation.wav"%string,
         save_wav (Mono (concat chakra_waves)) false)
        :: rev (combine
                  (map (path_div output_dir)
                     [ "chakra_root_396hz.wav"; "chakra_sacral_417hz.wav";
                       "chakra_solar_plexus_528hz.wav"; "chakra_heart_639hz.wav";
                       "chakra_throat_741hz.wav"; "chakra_third_eye_852hz.wav";
                       "chakra_crown_963hz.wav" ]%string)
                  (map (fun wave => save_wav (Mono wave) false) chakra_waves)))
       (add_dirs (ancestors output_dir) w), inr tt).
Proof.
  intros Hc Hacc.
  unfold generate_chakra_meditation. rewrite bind_mkdir by exact Hacc. cbv zeta.
  erewrite bind_io_ok;
    [| apply chakra_loop_ok;
       [exact Hc | apply accepts_open_dir, Hacc | apply chakra_keys_present]].
  cbn [app map concatenate].
  rewrite bind_ret_io.
  rewrite save_wav_to_ok.
  - rewrite add_files_app. reflexivity.
  - apply open_dir_add_files; [apply accepts_open_dir, Hacc|].
    apply Forall_rev. repeat constructor; eexists; reflexivity.
Qed.

(** With fewer than 88200 samples the sequence stops at the first chakra,
    from any state of the file system. *)
Lemma chakra_rest_short w :
  (0 <= sample_count duration < 88200)%Z ->
  (full_sequence <-
     for_fold
       [ (396, "root"); (417, "sacral"); (528, "solar_plexus"); (639, "heart");
         (741, "throat"); (852, "third_eye"); (963, "crown") ]%string%Z [] chakra_body ;;
   full_meditation <- concatenate full_sequence ;;
   save_wav_to (path_div output_dir "chakra_full_meditation.wav"%string)
     (Mono full_meditation) false) w
  = (w, inl (NumpyError (BroadcastError F2 N))).
Proof.
  intros Hc. apply bind_io_raise. cbn [for_fold].
  apply bind_io_raise.
  eapply (chakra_body_short []); [exact Hc | reflexivity].
Qed.

End Chakra.

(** X18. Asked for a float duration per chakra of less than two seconds
    (and at least zero), the chakra sequence never returns and writes no
    file, whatever the file system holds.  Where it accepts the output
    directory, the sequence creates it and raises on the first chakra:
    the tone is shorter than the 88200-sample fade that is multiplied
    into its head. *)
Theorem chakra_needs_two_seconds (output_dir : path) (duration : R) (w : world) :
  F64.is_float duration -> 0 <= duration < 2 ->
  (exists w' e,
      generate_chakra_meditation output_dir duration w = (w', inl e) /\
      files w' = files w) /\
  (accepts w output_dir ->
   exists n : nat,
     Z.of_nat n = Zfloor (F64.mul (IZR SAMPLE_RATE) duration) /\
     (n < Z.to_nat 88200)%nat /\
     generate_chakra_meditation output_dir duration w
     = (add_dirs (ancestors output_dir) w,
        inl (NumpyError (BroadcastError (Z.to_nat 88200) n)))).
Proof.
  intros Hf [Hd0 Hd2].
  destruct (sample_count_of_duration duration Hd0) as [H0 Hn].
  assert (Hlt : (sample_count duration < 88200)%Z).
  { rewrite sample_count_floor by exact Hd0. apply lt_IZR.
    destruct (Zfloor_bound (F64.mul (IZR SAMPLE_RATE) duration)) as [Hb _].
    assert (Hh := rate_product_below_two duration Hf (conj Hd0 Hd2)). lra. }
  destruct (raises_after_mkdir output_dir _ _ w
              (fun w1 => chakra_rest_short output_dir duration w1 (conj H0 Hlt)))
    as [H1 H2].
  split; [exact H1|].
  intros Hacc. exists (Z.to_nat (sample_count duration)).
  split; [exact Hn|]. split; [lia|]. exact (H2 Hacc).
Qed.

Lemma is_float_one : F64.is_float 1.
Proof. apply (is_float_IZR 1). lia. Qed.

Lemma chakra_needs_two_seconds_witness :
  F64.is_float 1 /\ 0 <= 1 < 2 /\
  accepts {| dirs := []; files := []; refused := [] |} ["chakras"]%string /\
  exists n : nat,
    (n < Z.to_nat 88200)%nat /\
    generate_chakra_meditation ["chakras"]%string 1
      {| dirs := []; files := []; refused := [] |}
    = (add_dirs (ancestors ["chakras"]%string) {| dirs := []; files := []; refused := [] |},
       inl (NumpyError (BroadcastError (Z.to_nat 88200) n))).
Proof.
  assert (H : 0 <= 1 < 2) by lra.
  assert (Ha := accepts_nothing ["chakras"]%string).
  split; [exact is_float_one|]. split; [exact H|]. split; [exact Ha|].
  destruct (proj2 (chakra_needs_two_seconds ["chakras"]%string 1
                     {| dirs := []; files := []; refused := [] |} is_float_one H) Ha)
    as (n & _ & Hn & Hrun).
  exists n. split; assumption.
Defined.

(** X19. With two seconds or more per chakra, on a file system that
    accepts the output directory, the sequence writes eight files
    without raising: one per chakra, in order, and then their
    concatenation, seven times as long.  Each chakra buffer has the length
    of the plain tone, starts and ends on a zero sample, stays within 0.8,
    and between the two fades (from sample 88200 up to 88200 before the
    end) is the plain tone itself. *)
Theorem chakra_sequence_files (output_dir : path) (duration : R) (w : world) :
  2 <= duration -> accepts w output_dir ->
  exists waves,
    generate_chakra_meditation output_dir duration w
    = (add_files
         ((path_div output_dir "chakra_full_meditation.wav"%string,
           save_wav (Mono (concat waves)) false)
          :: rev (combine
                    (map (path_div output_dir)
                       [ "chakra_root_396hz.wav"; "chakra_sacral_417hz.wav";
                         "chakra_solar_plexus_528hz.wav"; "chakra_heart_639hz.wav";
                         "chakra_throat_741hz.wav"; "chakra_third_eye_852hz.wav";
                         "chakra_crown_963hz.wav" ]%string)
                    (map (fun wave => save_wav (Mono wave) false) waves)))
         (add_dirs (ancestors output_dir) w), inr tt) /\
    Forall2 (fun (item : Z * string) (wave : list R) =>
               exists tone,
                 generate_sine_wave (IZR (fst item)) duration 0.8 = Ok tone /\
                 length wave = length tone /\
                 nth 0 wave 0 = 0 /\
                 nth (length wave - 1) wave 0 = 0 /\
                 Forall (fun s => Rabs s <= 0.8) wave /\
                 (forall i, (Z.to_nat 88200 <= i)%nat ->
                            (i < length wave - Z.to_nat 88200)%nat ->
                            nth i wave 0 = nth i tone 0))
            CHAKRA_FREQUENCIES waves /\
    Z.of_nat (length (concat waves))
    = (7 * Zfloor (F64.mul (IZR SAMPLE_RATE) duration))%Z.
Proof.
  intros Hd Hacc.
  destruct (sample_count_of_duration duration) as [H0 Hn]; [lra|].
  assert (Hc : (88200 <= sample_count duration)%Z).
  { assert (H2 : sample_count (IZR 2) = 88200%Z) by (apply (sample_count_int 2); lia).
    rewrite <- H2. apply sample_count_monotone. exact Hd. }
  eexists. split; [|split].
  - apply chakra_ok; assumption.
  - unfold CHAKRA_FREQUENCIES. cbn [map].
    repeat (constructor; [apply (faded_shaped_tone _ _ Hc)|]).
    constructor.
  - cbn [map concat]. rewrite !length_app, !length_tabulate. cbn [length].
    rewrite <- Hn. lia.
Qed.

Lemma chakra_sequence_files_witness :
  2 <= 60 /\
  accepts {| dirs := []; files := []; refused := [] |} ["chakras"]%string /\
  exists (w' : world) (waves : list (list R)),
    generate_chakra_meditation ["chakras"]%string 60
      {| dirs := []; files := []; refused := [] |}
    = (w', inr tt) /\
    length (files w') = 8%nat /\
    Z.of_nat (length (concat waves)) = (7 * Zfloor (F64.mul (IZR SAMPLE_RATE) 60))%Z.
Proof.
  assert (H : 2 <= 60) by lra.
  assert (Ha := accepts_nothing ["chakras"]%string).
  split; [exact H|]. split; [exact Ha|].
  destruct (chakra_sequence_files ["chakras"]%string 60
              {| dirs := []; files := []; refused := [] |} H Ha)
    as (waves & Hrun & Hall & Hlen).
  eexists. exists waves. split; [exact Hrun|]. split; [|exact Hlen].
  cbn [files add_files add_dirs].
  rewrite app_nil_r, length_cons, length_rev, length_combine, !length_map.
  rewrite <- (Forall2_length Hall). reflexivity.
Defined.

(** ** The binaural presets and the Schumann pair *)

Section StereoPresets.

Variables (str_float : R -> string) (output_dir : path) (duration : R).

Local Abbreviation N := (Z.to_nat (sample_count duration)).
Local Abbreviation beat_of base_freq beat_freq :=
  (combine
     (tabulate (fun i => 0.8 * sin (2 * PI * base_freq * grid_time duration N i)) N)
     (tabulate (fun i => 0.8 * sin (2 * PI * (base_freq + beat_freq) * grid_time duration N i))
               N)).

Lemma binaural_loop_ok (base_freq : R) (table : list (string * (R * R * string))) w :
  (0 <= sample_count duration)%Z -> open_dir w output_dir ->
  for_each table (fun item : string * (R * R * string) =>
    let state := fst item in
    let low := fst (fst (snd item)) in
    let high := snd (fst (snd item)) in
    let target_freq := (low + high) / 2 in
    stereo <- lift (generate_binaural_beat base_freq target_freq duration 0.8) ;;
    save_wav_to
      (path_div output_dir
         ("binaural_" ++ state ++ "_" ++ str_float target_freq ++ "hz.wav")%string)
      (Stereo stereo) true) w
  = (add_files
       (rev (map (fun item : string * (R * R * string) =>
                    (path_div output_dir
                       ("binaural_" ++ fst item ++ "_"
                        ++ str_float ((fst (fst (snd item)) + snd (fst (snd item))) / 2)
                        ++ "hz.wav")%string,
                     save_wav
                       (Stereo (beat_of base_freq
                                  ((fst (fst (snd item)) + snd (fst (snd item))) / 2)))
                       true)) table)) w, inr tt).
Proof.
  intros H0. revert w. induction table as [|item table IH]; intros w Hd.
  - simpl. rewrite add_files_nil. reflexivity.
  - cbn [for_each]. cbv zeta.
    erewrite bind_io_ok
      by (rewrite (bind_lift_ok _ _ _ _ (binaural_ok duration _ _ 0.8 H0));
          apply save_wav_to_ok, Hd).
    rewrite IH by (apply open_dir_add_file, Hd). cbn [map rev].
    rewrite add_files_app. reflexivity.
Qed.

Lemma schumann_ok w :
  (0 <= sample_count duration)%Z -> accepts w output_dir ->
  exists wave stereo,
    generate_isochronic_tone 200 7.83 duration 0.8 = Ok wave /\
    generate_binaural_beat 200 7.83 duration 0.8 = Ok stereo /\
    generate_schumann_resonance output_dir duration w
    = (add_files
         [ (path_div output_dir "schumann_7.83hz_binaural.wav"%string,
            save_wav (Stereo stereo) true);
           (path_div output_dir "schumann_7.83hz_isochronic.wav"%string,
            save_wav (Mono wave) false) ]
         (add_dirs (ancestors output_dir) w), inr tt).
Proof.
  intros H0 Hacc. do 2 eexists.
  split; [apply isochronic_ok, H0|]. split; [apply binaural_ok, H0|].
  unfold generate_schumann_resonance. rewrite bind_mkdir by exact Hacc.
  rewrite (bind_lift_ok _ _ _ _ (isochronic_ok duration _ _ 0.8 H0)).
  rewrite bind_save_wav_to by still_open.
  rewrite (bind_lift_ok _ _ _ _ (binaural_ok duration _ _ 0.8 H0)).
  rewrite save_wav_to_ok by still_open.
  rewrite add_files_app. reflexivity.
Qed.

End StereoPresets.

(** X20. For every duration >= 0, on a file system that accepts the
    output directory, the binaural presets write five stereo files
    without raising, one per brainwave state in the order of the table.
    The beat of each is the midpoint of the band of its state: 2.25, 6,
    11, 22 and 65 Hz over the base frequency; the file name carries the
    state and that midpoint. *)
Theorem binaural_presets_midpoints (str_float : R -> string) (output_dir : path)
    (duration base_freq : R) (w : world) :
  0 <= duration -> accepts w output_dir ->
  exists new,
    generate_binaural_presets str_float output_dir duration base_freq w
    = (add_files new (add_dirs (ancestors output_dir) w), inr tt) /\
    map fst (rev new)
    = map (path_div output_dir)
        [ "binaural_delta_" ++ str_float 2.25 ++ "hz.wav";
          "binaural_theta_" ++ str_float 6 ++ "hz.wav";
          "binaural_alpha_" ++ str_float 11 ++ "hz.wav";
          "binaural_beta_" ++ str_float 22 ++ "hz.wav";
          "binaural_gamma_" ++ str_float 65 ++ "hz.wav" ]%string /\
    Forall2 (fun (beat : R) (pf : path * wav_file) =>
               exists stereo,
                 generate_binaural_beat base_freq beat duration 0.8 = Ok stereo /\
                 snd pf = save_wav (Stereo stereo) true)
            [2.25; 6; 11; 22; 65] (rev new).
Proof.
  intros Hd Hacc. destruct (sample_count_of_duration duration Hd) as [H0 _].
  unfold generate_binaural_presets. rewrite bind_mkdir by exact Hacc.
  rewrite (binaural_loop_ok str_float output_dir duration base_freq BRAINWAVE_STATES)
    by (try exact H0; still_open).
  eexists. split; [reflexivity|].
  rewrite rev_involutive. unfold BRAINWAVE_STATES. cbn [map fst snd].
  replace ((0.5 + 4) / 2) with 2.25 by lra.
  replace ((4 + 8) / 2) with 6 by lra.
  replace ((8 + 14) / 2) with 11 by lra.
  replace ((14 + 30) / 2) with 22 by lra.
  replace ((30 + 100) / 2) with 65 by lra.
  split; [reflexivity|].
  repeat (constructor; [eexists; split; [apply binaural_ok, H0 | reflexivity]|]).
  constructor.
Qed.

Lemma binaural_presets_midpoints_witness :
  0 <= 300 /\
  accepts {| dirs := []; files := []; refused := [] |} ["binaural"]%string /\
  exists new,
    generate_binaural_presets (fun _ => "x"%string) ["binaural"]%string 300 200
      {| dirs := []; files := []; refused := [] |}
    = (add_files new
         (add_dirs (ancestors ["binaural"]%string)
            {| dirs := []; files := []; refused := [] |}), inr tt) /\
    length new = 5%nat.
Proof.
  assert (H : 0 <= 300) by lra.
  assert (Ha := accepts_nothing ["binaural"]%string).
  split; [exact H|]. split; [exact Ha|].
  destruct (binaural_presets_midpoints (fun _ => "x"%string) ["binaural"]%string 300 200
              {| dirs := []; files := []; refused := [] |} H Ha) as (new & Hrun & Hnames & _).
  exists new. split; [exact Hrun|].
  rewrite <- length_rev, <- (length_map fst), Hnames. reflexivity.
Defined.

(** ** The custom frequency *)

Lemma save_wav_to_missing filename audio_data stereo w :
  (forall q, In q (ancestors (parent filename)) -> ~ In q (map fst (files w))) ->
  ~ In (parent filename) (dirs w) ->
  save_wav_to filename audio_data stereo w = (w, inl (FileNotFound filename)).
Proof.
  intros Hf H. unfold save_wav_to, write_wav.
  rewrite no_file_among by exact Hf.
  rewrite (is_dir_out _ _ H). reflexivity.
Qed.

(** X21. The custom generator writes one file at the path it is given,
    where that file can be written: in mode [sine] the tone at
    [frequency]; in mode [binaural] a stereo beat of [frequency] Hz over
    a 200 Hz base; in mode [isochronic] a 200 Hz carrier pulsed at
    [frequency] Hz.  Any other mode does nothing and raises nothing.  It
    creates no directory: if that of the file is missing, the write
    raises and nothing is written. *)
Theorem custom_frequency_modes (frequency duration : R) (output_file : path) (w : world) :
  0 <= duration ->
  (forall mode,
      mode <> "sine"%string -> mode <> "binaural"%string -> mode <> "isochronic"%string ->
      generate_custom_frequency frequency duration output_file mode w = (w, inr tt)) /\
  (writable w output_file ->
   (exists wave,
       generate_sine_wave frequency duration 0.8 = Ok wave /\
       generate_custom_frequency frequency duration output_file "sine" w
       = (add_files [(output_file, save_wav (Mono wave) false)] w, inr tt)) /\
   (exists stereo,
       generate_binaural_beat 200 frequency duration 0.8 = Ok stereo /\
       generate_custom_frequency frequency duration output_file "binaural" w
       = (add_files [(output_file, save_wav (Stereo stereo) true)] w, inr tt)) /\
   (exists wave,
       generate_isochronic_tone 200 frequency duration 0.8 = Ok wave /\
       generate_custom_frequency frequency duration output_file "isochronic" w
       = (add_files [(output_file, save_wav (Mono wave) false)] w, inr tt))) /\
  ((forall q, In q (ancestors (parent output_file)) -> ~ In q (map fst (files w))) ->
   ~ In (parent output_file) (dirs w) ->
   forall mode,
     mode = "sine"%string \/ mode = "binaural"%string \/ mode = "isochronic"%string ->
     generate_custom_frequency frequency duration output_file mode w
     = (w, inl (FileNotFound output_file))).
Proof.
  intros Hd. destruct (sample_count_of_duration duration Hd) as [H0 _].
  split; [|split].
  - intros mode H1 H2 H3. unfold generate_custom_frequency.
    destruct (string_dec mode "sine"); [contradiction|].
    destruct (string_dec mode "binaural"); [contradiction|].
    destruct (string_dec mode "isochronic"); [contradiction | reflexivity].
  - intros Hdir. split; [|split]; eexists.
    + split; [apply sine_ok, H0|]. unfold generate_custom_frequency. cbn [string_dec].
      destruct (string_dec "sine" "sine") as [_|Hn]; [|contradiction Hn; reflexivity].
      rewrite (bind_lift_ok _ _ _ _ (sine_ok duration _ 0.8 H0)).
      apply save_wav_to_ok, Hdir.
    + split; [apply binaural_ok, H0|]. unfold generate_custom_frequency.
      destruct (string_dec "binaural" "sine") as [Hn|_]; [discriminate Hn|].
      destruct (string_dec "binaural" "binaural") as [_|Hn]; [|contradiction Hn; reflexivity].
      rewrite (bind_lift_ok _ _ _ _ (binaural_ok duration _ _ 0.8 H0)).
      apply save_wav_to_ok, Hdir.
    + split; [apply isochronic_ok, H0|]. unfold generate_custom_frequency.
      destruct (string_dec "isochronic" "sine") as [Hn|_]; [discriminate Hn|].
      destruct (string_dec "isochronic" "binaural") as [Hn|_]; [discriminate Hn|].
      destruct (string_dec "isochronic" "isochronic") as [_|Hn];
        [|contradiction Hn; reflexivity].
      rewrite (bind_lift_ok _ _ _ _ (isochronic_ok duration _ _ 0.8 H0)).
      apply save_wav_to_ok, Hdir.
  - intros Hf Hdir mode [-> | [-> | ->]]; unfold generate_custom_frequency.
    + destruct (string_dec "sine" "sine") as [_|Hn]; [|contradiction Hn; reflexivity].
      rewrite (bind_lift_ok _ _ _ _ (sine_ok duration _ 0.8 H0)).
      apply save_wav_to_missing; assumption.
    + destruct (string_dec "binaural" "sine") as [Hn|_]; [discriminate Hn|].
      destruct (string_dec "binaural" "binaural") as [_|Hn]; [|contradiction Hn; reflexivity].
      rewrite (bind_lift_ok _ _ _ _ (binaural_ok duration _ _ 0.8 H0)).
      apply save_wav_to_missing; assumption.
    + destruct (string_dec "isochronic" "sine") as [Hn|_]; [discriminate Hn|].
      destruct (string_dec "isochronic" "binaural") as [Hn|_]; [discriminate Hn|].
      destruct (string_dec "isochronic" "isochronic") as [_|Hn];
        [|contradiction Hn; reflexivity].
      rewrite (bind_lift_ok _ _ _ _ (isochronic_ok duration _ _ 0.8 H0)).
      apply save_wav_to_missing; assumption.
Qed.

Lemma custom_frequency_modes_witness :
  0 <= 60 /\
  generate_custom_frequency 528 60 ["output"; "x.wav"]%string "square"
    {| dirs := [["output"]%string]; files := []; refused := [] |}
  = ({| dirs := [["output"]%string]; files := []; refused := [] |}, inr tt) /\
  writable {| dirs := [["output"]%string]; files := []; refused := [] |}
    ["output"; "x.wav"]%string /\
  (exists wave,
      generate_custom_frequency 528 60 ["output"; "x.wav"]%string "sine"
        {| dirs := [["output"]%string]; files := []; refused := [] |}
      = (add_files [(["output"; "x.wav"]%string, save_wav (Mono wave) false)]
           {| dirs := [["output"]%string]; files := []; refused := [] |}, inr tt)) /\
  generate_custom_frequency 528 60 ["output"; "x.wav"]%string "sine"
    {| dirs := []; files := []; refused := [] |}
  = ({| dirs := []; files := []; refused := [] |}, inl (FileNotFound ["output"; "x.wav"]%string)).
Proof.
  assert (H : 0 <= 60) by lra.
  assert (Hw : writable {| dirs := [["output"]%string]; files := []; refused := [] |}
                 ["output"; "x.wav"]%string).
  { unfold writable. cbn. repeat split; try tauto.
    intros [Heq|[]]. discriminate Heq. }
  split; [exact H|]. split; [|split; [exact Hw|split]].
  - apply (proj1 (custom_frequency_modes 528 60 ["output"; "x.wav"]%string
                    {| dirs := [["output"]%string]; files := []; refused := [] |} H));
      discriminate.
  - destruct (proj1 (proj2 (custom_frequency_modes 528 60 ["output"; "x.wav"]%string
                              {| dirs := [["output"]%string]; files := []; refused := [] |} H)) Hw)
      as ((wave & _ & Hrun) & _).
    exists wave. exact Hrun.
  - apply (proj2 (proj2 (custom_frequency_modes 528 60 ["output"; "x.wav"]%string
                           {| dirs := []; files := []; refused := [] |} H))).
    + cbn. tauto.
    + cbn. tauto.
    + left. reflexivity.
Defined.

(** ** The command line *)

(** *** What a run leaves behind *)

Lemma grown_refl output_dir w : grown output_dir [] w w.
Proof.
  split; [reflexivity|]. split; [apply incl_refl|].
  split; intros q Hq; left; exact Hq.
Qed.

Lemma grown_step output_dir subs s w w1 new :
  grown output_dir subs w w1 ->
  Forall (fun pf : path * wav_file =>
            exists name, fst pf = path_div (path_div output_dir s) name) new ->
  grown output_dir (s :: subs) w
    (add_files new (add_dirs (ancestors (path_div output_dir s)) w1)).
Proof.
  intros (Gr & Gi & Gd & Gf) Hnew. unfold grown.
  cbn [add_files add_dirs dirs files refused].
  split; [exact Gr|]. split; [apply incl_appr, Gi|]. split.
  - intros q Hq. rewrite ancestors_path_div, !in_app_iff in Hq.
    destruct Hq as [[Hq|Hq]|Hq].
    + right. left. exact Hq.
    + right. right. exists s. destruct Hq as [<-|[]]. split; [left|]; reflexivity.
    + destruct (Gd q Hq) as [H|[H|(s' & Hs & ->)]].
      * left. exact H.
      * right. left. exact H.
      * right. right. exists s'. split; [right; exact Hs | reflexivity].
  - intros q Hq. rewrite map_app, in_app_iff in Hq. destruct Hq as [Hq|Hq].
    + apply in_map_iff in Hq. destruct Hq as (pf & <- & Hpf).
      destruct (proj1 (Forall_forall _ _) Hnew pf Hpf) as [name Hname].
      right. exists s, name. exact Hname.
    + exact (Gf q Hq).
Qed.

Lemma path_div_app (p : path) s name :
  path_div (path_div p s) name = p ++ s :: [name].
Proof. unfold path_div. rewrite <- app_assoc. reflexivity. Qed.

(** The next directory of a run in a vacant output directory is
    accepted. *)
Lemma accepts_grown output_dir subs s w w1 :
  vacant w output_dir -> grown output_dir subs w w1 -> accepts w1 (path_div output_dir s).
Proof.
  intros [Va Vb] (Gr & Gi & Gd & Gf). split.
  - intros q Hq. assert (Hlen := ancestors_length _ _ Hq).
    rewrite length_path_div in Hlen.
    rewrite ancestors_path_div, in_app_iff in Hq. split.
    + intros Hin. destruct (Gf q Hin) as [H|(s' & name & ->)].
      * destruct Hq as [Hq|[<-|[]]].
        -- exact (proj1 (Va q Hq) H).
        -- exact (proj1 (proj2 (Vb s [])) H).
      * rewrite !length_path_div in Hlen. lia.
    + rewrite Gr. destruct Hq as [Hq|[<-|[]]].
      * destruct (proj2 (Va q Hq)) as [H|H]; [left; apply Gi, H | right; exact H].
      * right. exact (proj2 (proj2 (Vb s []))).
  - intros name. rewrite Gr, path_div_app. split; [|exact (proj2 (proj2 (Vb s [name])))].
    intros Hin. destruct (Gd _ Hin) as [H|[H|(s' & _ & Heq)]].
    + exact (proj1 (Vb s [name]) H).
    + apply ancestors_length in H. rewrite length_app in H. simpl in H. lia.
    + apply (f_equal (@length string)) in Heq.
      rewrite length_path_div, length_app in Heq. simpl in Heq. lia.
Qed.

(** A file directly in the output directory can be written after the
    run has worked in directories of other names. *)
Lemma writable_grown output_dir subs name w w1 :
  vacant w output_dir -> grown output_dir subs w w1 ->
  In output_dir (dirs w1) -> ~ In name subs ->
  writable w1 (path_div output_dir name).
Proof.
  intros [Va Vb] (Gr & Gi & Gd & Gf) Hout Hname.
  unfold writable. rewrite parent_path_div, Gr.
  split; [|split; [exact Hout | split]].
  - intros q Hq Hin. destruct (Gf q Hin) as [H|(s' & name' & ->)].
    + exact (proj1 (Va q Hq) H).
    + apply ancestors_length in Hq. rewrite !length_path_div in Hq. lia.
  - intros Hin. destruct (Gd _ Hin) as [H|[H|(s' & Hs & Heq)]].
    + exact (proj1 (Vb name []) H).
    + exact (path_div_not_ancestor _ _ H).
    + apply app_inj_tail in Heq. destruct Heq as [_ ->]. exact (Hname Hs).
  - exact (proj2 (proj2 (Vb name []))).
Qed.

Lemma vacant_nothing output_dir :
  vacant {| dirs := []; files := []; refused := [] |} output_dir.
Proof. split; intros; cbn; tauto. Qed.

Lemma Forall_inside_rev_map {A : Type} output_dir (f : A -> string) (g : A -> wav_file) l :
  Forall (fun pf : path * wav_file => exists name, fst pf = path_div output_dir name)
    (rev (map (fun x => (path_div output_dir (f x), g x)) l)).
Proof.
  apply Forall_rev, Forall_forall. intros pf Hin.
  apply in_map_iff in Hin. destruct Hin as (x & <- & _). eexists. reflexivity.
Qed.

Section Runs.

Variable str_float : R -> string.

(** [m] run from [w] returns after creating [output_dir] and writing [k]
    files in it. *)
Local Abbreviation writes k output_dir m w :=
  (exists new : list (path * wav_file),
      m w = (add_files new (add_dirs (ancestors output_dir) w), inr tt) /\
      length new = k /\
      Forall (fun pf : path * wav_file => exists name, fst pf = path_div output_dir name)
        new).

Lemma solfeggio_run output_dir duration w :
  (0 <= sample_count duration)%Z -> accepts w output_dir ->
  writes 9%nat output_dir (generate_all_solfeggio output_dir duration) w.
Proof.
  intros H0 Hacc. unfold generate_all_solfeggio. rewrite bind_mkdir by exact Hacc.
  rewrite (tone_loop_ok (fun freq => ("solfeggio_" ++ str_int freq ++ "hz.wav")%string))
    by (try exact H0; still_open).
  eexists. split; [reflexivity|]. split.
  - rewrite length_rev, length_map. reflexivity.
  - apply (Forall_inside_rev_map output_dir
             (fun item : Z * string => ("solfeggio_" ++ str_int (fst item) ++ "hz.wav")%string)).
Qed.

Lemma angels_run output_dir duration w :
  (0 <= sample_count duration)%Z -> accepts w output_dir ->
  writes 9%nat output_dir (generate_all_angel_frequencies output_dir duration) w.
Proof.
  intros H0 Hacc. unfold generate_all_angel_frequencies. rewrite bind_mkdir by exact Hacc.
  rewrite (tone_loop_ok (fun freq => ("angel_" ++ str_int freq ++ "hz.wav")%string))
    by (try exact H0; still_open).
  eexists. split; [reflexivity|]. split.
  - rewrite length_rev, length_map. reflexivity.
  - apply (Forall_inside_rev_map output_dir
             (fun item : Z * string => ("angel_" ++ str_int (fst item) ++ "hz.wav")%string)).
Qed.

Lemma binaural_presets_run output_dir duration base_freq w :
  (0 <= sample_count duration)%Z -> accepts w output_dir ->
  writes 5%nat output_dir (generate_binaural_presets str_float output_dir duration base_freq) w.
Proof.
  intros H0 Hacc. unfold generate_binaural_presets. rewrite bind_mkdir by exact Hacc.
  rewrite (binaural_loop_ok str_float output_dir duration base_freq BRAINWAVE_STATES)
    by (try exact H0; still_open).
  eexists. split; [reflexivity|]. split.
  - rewrite length_rev, length_map. reflexivity.
  - apply (Forall_inside_rev_map output_dir
             (fun item : string * (R * R * string) =>
                ("binaural_" ++ fst item ++ "_"
                 ++ str_float ((fst (fst (snd item)) + snd (fst (snd item))) / 2)
                 ++ "hz.wav")%string)).
Qed.

Lemma schumann_run output_dir duration w :
  (0 <= sample_count duration)%Z -> accepts w output_dir ->
  writes 2%nat output_dir (generate_schumann_resonance output_dir duration) w.
Proof.
  intros H0 Hacc.
  destruct (schumann_ok output_dir duration w H0 Hacc) as (wave & stereo & _ & _ & H).
  eexists. split; [exact H|]. split; [reflexivity|].
  repeat constructor; eexists; reflexivity.
Qed.

Lemma tuning_run output_dir duration w :
  (10 <= duration)%Z -> accepts w output_dir ->
  writes 3%nat output_dir (generate_432_vs_440 output_dir duration) w.
Proof.
  intros Hd Hacc. rewrite tuning_long by assumption.
  eexists. split; [reflexivity|]. split; [reflexivity|].
  repeat constructor; eexists; reflexivity.
Qed.

Lemma chakra_run output_dir duration w :
  (88200 <= sample_count duration)%Z -> accepts w output_dir ->
  writes 8%nat output_dir (generate_chakra_meditation output_dir duration) w.
Proof.
  intros Hc Hacc. rewrite chakra_ok by assumption.
  eexists. split; [reflexivity|]. split.
  - cbn [length]. rewrite length_rev, length_combine, !length_map. reflexivity.
  - constructor; [eexists; reflexivity|].
    apply Forall_rev. cbn [map combine]. repeat constructor; eexists; reflexivity.
Qed.

Lemma chakra_short_run output_dir duration w :
  (0 <= sample_count duration < 88200)%Z -> accepts w output_dir ->
  generate_chakra_meditation output_dir duration w
  = (add_dirs (ancestors output_dir) w,
     inl (NumpyError (BroadcastError (Z.to_nat 88200) (Z.to_nat (sample_count duration))))).
Proof.
  intros Hc Hacc.
  exact (proj2 (raises_after_mkdir output_dir _ _ w
                  (fun w1 => chakra_rest_short output_dir duration w1 Hc)) Hacc).
Qed.

(** The first five presets of [--all], with what they leave for the rest
    of the run. *)
Lemma all_prefix {B : Type} output_dir (d dm : Z) (k : unit -> io B) w :
  vacant w output_dir -> (0 <= d)%Z -> (0 <= dm)%Z ->
  exists w5,
    (generate_all_solfeggio (path_div output_dir "solfeggio") (IZR d) ;;
     generate_all_angel_frequencies (path_div output_dir "angels") (IZR d) ;;
     generate_binaural_presets str_float (path_div output_dir "binaural") (IZR dm) 200 ;;
     generate_schumann_resonance (path_div output_dir "schumann") (IZR dm) ;;
     x <- generate_432_vs_440 (path_div output_dir "tuning") 30 ;; k x) w
    = k tt w5 /\
    grown output_dir ["tuning"; "schumann"; "binaural"; "angels"; "solfeggio"]%string w w5 /\
    length (files w5) = (28 + length (files w))%nat.
Proof.
  intros Hv Hd Hdm.
  assert (H0 := sample_count_nonneg_int d Hd).
  assert (Hm := sample_count_nonneg_int dm Hdm).
  assert (G0 := grown_refl output_dir w).
  destruct (solfeggio_run (path_div output_dir "solfeggio") (IZR d) w H0
              (accepts_grown _ _ _ _ _ Hv G0)) as (n1 & E1 & L1 & F1).
  assert (G1 := grown_step _ _ "solfeggio"%string _ _ _ G0 F1).
  rewrite (bind_io_ok _ _ _ _ _ E1); clear E1.
  set (w1 := add_files n1 _) in *.
  destruct (angels_run (path_div output_dir "angels") (IZR d) w1 H0
              (accepts_grown _ _ _ _ _ Hv G1)) as (n2 & E2 & L2 & F2).
  assert (G2 := grown_step _ _ "angels"%string _ _ _ G1 F2).
  rewrite (bind_io_ok _ _ _ _ _ E2); clear E2.
  set (w2 := add_files n2 _) in *.
  destruct (binaural_presets_run (path_div output_dir "binaural") (IZR dm) 200 w2 Hm
              (accepts_grown _ _ _ _ _ Hv G2)) as (n3 & E3 & L3 & F3).
  assert (G3 := grown_step _ _ "binaural"%string _ _ _ G2 F3).
  rewrite (bind_io_ok _ _ _ _ _ E3); clear E3.
  set (w3 := add_files n3 _) in *.
  destruct (schumann_run (path_div output_dir "schumann") (IZR dm) w3 Hm
              (accepts_grown _ _ _ _ _ Hv G3)) as (n4 & E4 & L4 & F4).
  assert (G4 := grown_step _ _ "schumann"%string _ _ _ G3 F4).
  rewrite (bind_io_ok _ _ _ _ _ E4); clear E4.
  set (w4 := add_files n4 _) in *.
  destruct (tuning_run (path_div output_dir "tuning") 30 w4 ltac:(lia)
              (accepts_grown _ _ _ _ _ Hv G4)) as (n5 & E5 & L5 & F5).
  assert (G5 := grown_step _ _ "tuning"%string _ _ _ G4 F5).
  rewrite (bind_io_ok _ _ _ _ _ E5); clear E5.
  eexists. split; [reflexivity|]. split; [exact G5|].
  unfold w4, w3, w2, w1. cbn [files add_files add_dirs].
  rewrite !length_app. lia.
Qed.

End Runs.

(** X22. [--all] needs a duration of at least two seconds.  Run with an
    output directory below which nothing exists yet, and which the file
    system lets it create: with [--duration] 2 or more it writes 37 files
    and returns, whatever the other switches; with 0 or 1 it writes the
    first 28 and raises in the chakra sequence, whose fade is longer than
    the tone; with a negative duration it raises on the first tone and
    writes nothing. *)
Theorem main_all_needs_two_seconds (str_float : R -> string) (a : args) (w : world) :
  arg_list a = false -> arg_all a = true -> vacant w (arg_output a) ->
  ((2 <= arg_duration a)%Z ->
     exists w', main str_float a w = (w', inr tt) /\
                length (files w') = (37 + length (files w))%nat) /\
  ((0 <= arg_duration a < 2)%Z ->
     exists w', main str_float a w
                = (w', inl (NumpyError (BroadcastError (Z.to_nat 88200)
                                          (Z.to_nat (44100 * arg_duration a))))) /\
                length (files w') = (28 + length (files w))%nat) /\
  ((arg_duration a < 0)%Z ->
     exists w' num,
       (num < 0)%Z /\
       main str_float a w = (w', inl (NumpyError (NegativeSamples num))) /\
       files w' = files w).
Proof.
  intros Hlist Hall Hv. unfold main. rewrite Hlist, Hall. cbv zeta.
  set (d := arg_duration a) in *. set (out := arg_output a) in *.
  split; [|split]; intros Hd.
  - destruct (all_prefix str_float out d (Z.min d 300)
                (fun _ : unit =>
                   generate_chakra_meditation (path_div out "chakras") (IZR d) ;;
                   wave <- lift (generate_om_tone (IZR d) 0.8) ;;
                   save_wav_to (path_div out "om_136.1hz.wav") (Mono wave) false)
                w Hv ltac:(lia) ltac:(lia)) as (w5 & E & G5 & L5).
    rewrite E; clear E.
    assert (Hc : (88200 <= sample_count (IZR d))%Z).
    { assert (H2 : sample_count (IZR 2) = 88200%Z) by (apply (sample_count_int 2); lia).
      rewrite <- H2. apply sample_count_monotone, IZR_le, Hd. }
    destruct (chakra_run (path_div out "chakras") (IZR d) w5 Hc
                (accepts_grown _ _ _ _ _ Hv G5)) as (n6 & E6 & L6 & F6).
    assert (G6 := grown_step _ _ "chakras"%string _ _ _ G5 F6).
    rewrite (bind_io_ok _ _ _ _ _ E6); clear E6.
    rewrite (bind_lift_ok _ _ _ _ (om_ok (IZR d) 0.8 ltac:(lia))).
    rewrite save_wav_to_ok.
    + eexists. split; [reflexivity|].
      cbn [files add_files add_dirs]. rewrite !length_app. cbn [length]. lia.
    + apply (writable_grown out _ _ w _ Hv G6).
      * cbn [dirs add_files add_dirs]. apply in_or_app. left. apply ancestors_parent.
      * cbn [In]. intros H.
        repeat (destruct H as [H|H]; [discriminate H|]). exact H.
  - destruct (all_prefix str_float out d (Z.min d 300)
                (fun _ : unit =>
                   generate_chakra_meditation (path_div out "chakras") (IZR d) ;;
                   wave <- lift (generate_om_tone (IZR d) 0.8) ;;
                   save_wav_to (path_div out "om_136.1hz.wav") (Mono wave) false)
                w Hv ltac:(lia) ltac:(lia)) as (w5 & E & G5 & L5).
    rewrite E; clear E.
    assert (Hc : sample_count (IZR d) = (44100 * d)%Z) by (apply sample_count_int; lia).
    erewrite bind_io_raise
      by (apply chakra_short_run; [rewrite Hc; lia | exact (accepts_grown _ _ _ _ _ Hv G5)]).
    rewrite Hc.
    eexists. split; [reflexivity|]. cbn [files add_dirs]. exact L5.
  - assert (Hneg : (sample_count (IZR d) < 0)%Z).
    { apply sample_count_negative. unfold SAMPLE_RATE.
      assert (H := IZR_le _ _ (proj1 (Z.lt_le_pred d 0) Hd)). simpl in H. lra. }
    assert (Hacc := accepts_grown out [] "solfeggio"%string w w Hv (grown_refl out w)).
    erewrite bind_io_raise.
    + exists (add_dirs (ancestors (path_div out "solfeggio")) w), (sample_count (IZR d)).
      split; [exact Hneg|]. split; reflexivity.
    + unfold generate_all_solfeggio, SOLFEGGIO_FREQUENCIES.
      rewrite bind_mkdir by exact Hacc.
      apply (tone_loop_raises (fun freq => ("solfeggio_" ++ str_int freq ++ "hz.wav")%string)).
      exact Hneg.
Qed.

Lemma main_all_needs_two_seconds_witness :
  vacant {| dirs := []; files := []; refused := [] |} ["output"]%string /\
  exists w',
    main (fun _ => "x"%string)
      {| arg_output := ["output"]%string; arg_duration := 60;
         arg_all := true; arg_solfeggio := false; arg_binaural := true;
         arg_angels := false; arg_schumann := false; arg_chakras := false;
         arg_compare_tuning := false; arg_om := false; arg_custom := None;
         arg_mode := "sine"%string; arg_list := false |}
      {| dirs := []; files := []; refused := [] |} = (w', inr tt) /\
    length (files w') = 37%nat.
Proof.
  assert (Hv := vacant_nothing ["output"]%string).
  split; [exact Hv|].
  destruct (proj1 (main_all_needs_two_seconds (fun _ => "x"%string)
              {| arg_output := ["output"]%string; arg_duration := 60;
                 arg_all := true; arg_solfeggio := false; arg_binaural := true;
                 arg_angels := false; arg_schumann := false; arg_chakras := false;
                 arg_compare_tuning := false; arg_om := false; arg_custom := None;
                 arg_mode := "sine"%string; arg_list := false |}
              {| dirs := []; files := []; refused := [] |} eq_refl eq_refl Hv))
    as (w' & Hrun & Hlen); [simpl; lia|].
  exists w'. split; [exact Hrun | exact Hlen].
Defined.

(** ** No write into a missing directory *)

Lemma safe_ret {A : Type} D (a : A) : safe D (ret a) [].
Proof. intros w _. split; [apply incl_refl | apply incl_nil_l]. Qed.

Lemma safe_lift {A : Type} D (r : result A) : safe D (lift r) [].
Proof.
  intros w _. split; [apply incl_refl|].
  destruct r; simpl; [discriminate | apply incl_nil_l].
Qed.

Lemma safe_mkdir D p : safe D (mkdir p) (ancestors p).
Proof.
  intros w _. unfold mkdir.
  destruct (is_file w p); [split; [apply incl_refl | discriminate]|].
  destruct (existsb (is_file w) (ancestors p)); [split; [apply incl_refl | discriminate]|].
  destruct (first_refused w (ancestors p)) as [[made q]|]; cbn [fst snd add_dirs dirs].
  - split; [apply incl_appr, incl_refl | discriminate].
  - split; [apply incl_appr, incl_refl | apply incl_appl, incl_refl].
Qed.

Lemma safe_save D filename audio_data stereo :
  In (parent filename) D -> safe D (save_wav_to filename audio_data stereo) [].
Proof.
  intros Hin w HD. unfold save_wav_to, write_wav.
  destruct (existsb (is_file w) (ancestors (parent filename)));
    [split; [apply incl_refl | discriminate]|].
  rewrite (is_dir_in _ _ (HD _ Hin)). cbn [negb].
  destruct (is_dir w filename); [split; [apply incl_refl | discriminate]|].
  destruct (is_refused w filename); [split; [apply incl_refl | discriminate]|].
  split; [apply incl_refl | apply incl_nil_l].
Qed.

Lemma safe_bind {A B : Type} D D1 D2 (m : io A) (k : A -> io B) :
  safe D m D1 -> (forall a, safe (D1 ++ D) (k a) D2) -> safe D (bind m k) D2.
Proof.
  intros Hm Hk w HD. destruct (Hm w HD) as [Hinc Hpost].
  simpl. destruct (m w) as [w1 [e|a]]; simpl in *.
  - split; assumption.
  - assert (HD1 : incl (D1 ++ D) (dirs w1)).
    { apply incl_app; [exact Hpost | eapply incl_tran; eassumption]. }
    destruct (Hk a w1 HD1) as [Hinc2 Hpost2].
    split; [eapply incl_tran; eassumption | exact Hpost2].
Qed.

Lemma safe_weaken {A : Type} D D0 D' (m : io A) :
  incl D D0 -> safe D m D' -> safe D0 m [].
Proof.
  intros Hincl Hm w HD. destruct (Hm w (incl_tran Hincl HD)) as [Hinc Hpost].
  split; [exact Hinc|].
  destruct (snd (m w)); [exact Hpost | apply incl_nil_l].
Qed.

Lemma safe_for_each {A : Type} D (l : list A) (body : A -> io unit) :
  (forall x, safe D (body x) []) -> safe D (for_each l body) [].
Proof.
  intros Hb. induction l as [|x l IH]; cbn [for_each].
  - apply safe_ret.
  - eapply safe_bind; [apply Hb|]. intros _. exact IH.
Qed.

Lemma safe_for_fold {A S : Type} D (l : list A) (s : S) (body : S -> A -> io S) :
  (forall s x, safe D (body s x) []) -> safe D (for_fold l s body) [].
Proof.
  intros Hb. revert s. induction l as [|x l IH]; intros s; cbn [for_fold].
  - apply safe_ret.
  - eapply safe_bind; [apply Hb|]. intros s'. apply IH.
Qed.

Lemma safe_dict_get D d key : safe D (dict_get d key) [].
Proof.
  induction d as [|[k v] d IH]; cbn [dict_get].
  - intros w _. split; [apply incl_refl | simpl; discriminate].
  - destruct (k =? key)%Z; [apply safe_ret | exact IH].
Qed.

Lemma safe_concatenate D arrays : safe D (concatenate arrays) [].
Proof.
  destruct arrays; cbn [concatenate].
  - intros w _. split; [apply incl_refl | simpl; discriminate].
  - apply safe_ret.
Qed.

Lemma safe_when D D' b (m : io unit) : safe D m D' -> safe D (when b m) [].
Proof.
  intros Hm. destruct b; cbn [when].
  - eapply safe_weaken; [apply incl_refl | exact Hm].
  - apply safe_ret.
Qed.

Lemma safe_post {A : Type} D D' D'' (m : io A) :
  safe D m D' -> incl D'' (D' ++ D) -> safe D m D''.
Proof.
  intros Hm Hincl w HD. destruct (Hm w HD) as [Hinc Hpost].
  split; [exact Hinc|].
  destruct (snd (m w)); [exact Hpost|].
  eapply incl_tran; [exact Hincl|].
  apply incl_app; [exact Hpost | eapply incl_tran; eassumption].
Qed.

(** A directory is among those known to exist. *)
Ltac in_dirs :=
  rewrite ?parent_path_div; repeat rewrite in_app_iff;
  intuition (auto using ancestors_self, ancestors_parent).

(** Walks through straight-line file-writing code. *)
Ltac safe_steps :=
  cbv beta zeta;
  repeat first
    [ apply safe_ret
    | apply safe_lift
    | apply safe_mkdir
    | apply safe_dict_get
    | apply safe_concatenate
    | apply safe_save; in_dirs
    | apply safe_for_each; intros ?; cbv beta zeta
    | apply safe_for_fold; intros ? ?; cbv beta zeta
    | eapply safe_bind; [|intros ?; cbv beta zeta] ].

(** A preset that starts by creating its directory. *)
Ltac safe_preset :=
  eapply safe_bind; [apply safe_mkdir|]; intros _;
  eapply safe_post; [|apply incl_appr, incl_appl, incl_refl];
  safe_steps.

Lemma safe_solfeggio D output_dir duration :
  safe D (generate_all_solfeggio output_dir duration) (ancestors output_dir).
Proof. unfold generate_all_solfeggio. safe_preset. Qed.

Lemma safe_angels D output_dir duration :
  safe D (generate_all_angel_frequencies output_dir duration) (ancestors output_dir).
Proof. unfold generate_all_angel_frequencies. safe_preset. Qed.

Lemma safe_schumann D output_dir duration :
  safe D (generate_schumann_resonance output_dir duration) (ancestors output_dir).
Proof. unfold generate_schumann_resonance. safe_preset. Qed.

Lemma safe_tuning D output_dir duration :
  safe D (generate_432_vs_440 output_dir duration) (ancestors output_dir).
Proof. unfold generate_432_vs_440. safe_preset. Qed.

Lemma safe_chakra D output_dir duration :
  safe D (generate_chakra_meditation output_dir duration) (ancestors output_dir).
Proof. unfold generate_chakra_meditation. safe_preset. Qed.

Lemma safe_custom D frequency duration output_file mode :
  In (parent output_file) D ->
  safe D (generate_custom_frequency frequency duration output_file mode) [].
Proof.
  intros Hin. unfold generate_custom_frequency.
  destruct (string_dec mode "sine"); [safe_steps|].
  destruct (string_dec mode "binaural"); [safe_steps|].
  destruct (string_dec mode "isochronic"); safe_steps.
Qed.

Section Safety.

Variable str_float : R -> string.

Lemma safe_binaural_presets D output_dir duration base_freq :
  safe D (generate_binaural_presets str_float output_dir duration base_freq)
       (ancestors output_dir).
Proof. unfold generate_binaural_presets. safe_preset. Qed.

Lemma safe_main (a : args) : safe [] (main str_float a) [].
Proof.
  unfold main. destruct (arg_list a); [apply safe_ret|]. cbv zeta.
  destruct (arg_all a).
  - eapply safe_bind; [apply safe_solfeggio|]; intros _.
    eapply safe_bind; [apply safe_angels|]; intros _.
    eapply safe_bind; [apply safe_binaural_presets|]; intros _.
    eapply safe_bind; [apply safe_schumann|]; intros _.
    eapply safe_bind; [apply safe_tuning|]; intros _.
    eapply safe_bind; [apply safe_chakra|]; intros _.
    safe_steps.
  - eapply safe_bind; [eapply safe_when, safe_solfeggio|]; intros _.
    eapply safe_bind; [eapply safe_when, safe_binaural_presets|]; intros _.
    eapply safe_bind; [eapply safe_when, safe_angels|]; intros _.
    eapply safe_bind; [eapply safe_when, safe_schumann|]; intros _.
    eapply safe_bind; [eapply safe_when, safe_chakra|]; intros _.
    eapply safe_bind; [eapply safe_when, safe_tuning|]; intros _.
    eapply safe_bind; [eapply safe_when; safe_steps|]; intros _.
    eapply safe_when.
    eapply safe_bind; [apply safe_mkdir|]; intros _. cbv zeta.
    apply safe_custom. in_dirs.
Qed.

End Safety.

Lemma safe_never_missing {A : Type} (m : io A) D' :
  safe [] m D' -> forall w w' p, m w <> (w', inl (FileNotFound p)).
Proof.
  intros Hm w w' p Heq.
  destruct (Hm w (incl_nil_l _)) as [_ Hpost].
  rewrite Heq in Hpost. simpl in Hpost. exact (Hpost p eq_refl).
Qed.

(** X23. No run of the command line, whatever its switches, duration and
    output path and whatever exists beforehand, fails for a missing
    directory: every file is written into a directory the run has created
    before.  The same holds for each preset called on its own. *)
Theorem no_write_into_missing_directory (str_float : R -> string) :
  (forall a w w' p,
      main str_float a w <> (w', inl (FileNotFound p))) /\
  (forall output_dir duration w w' p,
      generate_all_solfeggio output_dir duration w <> (w', inl (FileNotFound p))) /\
  (forall output_dir duration w w' p,
      generate_all_angel_frequencies output_dir duration w <> (w', inl (FileNotFound p))) /\
  (forall output_dir duration base_freq w w' p,
      generate_binaural_presets str_float output_dir duration base_freq w
      <> (w', inl (FileNotFound p))) /\
  (forall output_dir duration w w' p,
      generate_schumann_resonance output_dir duration w <> (w', inl (FileNotFound p))) /\
  (forall output_dir duration w w' p,
      generate_432_vs_440 output_dir duration w <> (w', inl (FileNotFound p))) /\
  (forall output_dir duration w w' p,
      generate_chakra_meditation output_dir duration w <> (w', inl (FileNotFound p))).
Proof.
  split; [|split; [|split; [|split; [|split; [|split]]]]]; intros.
  - eapply safe_never_missing, safe_main.
  - eapply safe_never_missing. apply safe_solfeggio.
  - eapply safe_never_missing. apply safe_angels.
  - eapply safe_never_missing. apply safe_binaural_presets.
  - eapply safe_never_missing. apply safe_schumann.
  - eapply safe_never_missing. apply safe_tuning.
  - eapply safe_never_missing. apply safe_chakra.
Qed.

(** X24. [--custom 0] is the same as no [--custom] at all: the test
    [if args.custom] takes the frequency 0.0 for a missing one, so no
    custom file is written, whatever the other arguments. *)
Theorem main_custom_zero_is_no_custom (str_float : R -> string)
    (output : path) (duration : Z)
    (all solfeggio binaural angels schumann chakras compare_tuning om list : bool)
    (mode : string) (w : world) :
  main str_float
    {| arg_output := output; arg_duration := duration; arg_all := all;
       arg_solfeggio := solfeggio; arg_binaural := binaural; arg_angels := angels;
       arg_schumann := schumann; arg_chakras := chakras;
       arg_compare_tuning := compare_tuning; arg_om := om;
       arg_custom := Some 0; arg_mode := mode; arg_list := list |} w
  = main str_float
      {| arg_output := output; arg_duration := duration; arg_all := all;
         arg_solfeggio := solfeggio; arg_binaural := binaural; arg_angels := angels;
         arg_schumann := schumann; arg_chakras := chakras;
         arg_compare_tuning := compare_tuning; arg_om := om;
         arg_custom := None; arg_mode := mode; arg_list := list |} w.
Proof.
  unfold main.
  cbn [arg_output arg_duration arg_all arg_solfeggio arg_binaural arg_angels
       arg_schumann arg_chakras arg_compare_tuning arg_om arg_custom arg_mode arg_list].
  assert (Ht : truthy (Some 0) = false).
  { unfold truthy. destruct (Req_dec_T 0 0) as [_|Hn]; [reflexivity | contradiction Hn; reflexivity]. }
  rewrite Ht. reflexivity.
Qed.
